(** * dublincore-editor: the DOCX core-properties codec, embedded and verified

    The development follows the Go sources package by package:
    [dublincore] (the metadata record), [docx] (the container codec),
    [ui] (what the form writes back into the record) and [editor] (the
    command-line edit flow).  The parts of the Go standard library the
    program calls ([strings], [unicode/utf8], [encoding/xml],
    [archive/zip], [os], [time]) are modelled first, each in a module of its
    own, at the level of detail the program depends on.

    Go strings are byte sequences: they are [string] here, one [ascii] per
    byte.  A call that can return an error, panic or loop for ever returns an
    [outcome]. *)

From Stdlib Require Import String Ascii List ZArith NArith Bool Lia Arith.
Import ListNotations.

Open Scope string_scope.
Open Scope Z_scope.

(** ** Outcomes of Go calls *)

(** [Ok a]: the call returned [a] with a nil error.  [Err e]: it returned the
    error whose message is [e].  [Panic m]: a run-time panic unwound the call.
    [Diverges]: the call never returns. *)
Inductive outcome (A : Type) : Type :=
| Ok (a : A)
| Err (e : string)
| Panic (m : string)
| Diverges.
Arguments Ok {A} a.
Arguments Err {A} e.
Arguments Panic {A} m.
Arguments Diverges {A}.

Definition bind {A B : Type} (m : outcome A) (k : A -> outcome B) : outcome B :=
  match m with
  | Ok a => k a
  | Err e => Err e
  | Panic m => Panic m
  | Diverges => Diverges
  end.

Notation "x <- m ;; k" := (bind m (fun x => k))
  (at level 61, m at next level, right associativity).
Notation "' pat <- m ;; k" := (bind m (fun x => match x with pat => k end))
  (at level 61, pat pattern, m at next level, right associativity).

(** [fmt.Errorf(msg + ": %w", err)] *)
Definition wrap (msg e : string) : string := msg ++ ": " ++ e.

(** ** Bytes *)

Definition byte_of (n : N) : ascii := ascii_of_N n.
Definition code (c : ascii) : N := N_of_ascii c.
Definition in_range (lo hi : N) (c : ascii) : bool :=
  ((lo <=? code c) && (code c <=? hi))%N.

Definition LF : ascii := byte_of 10.
Definition nl : string := String LF "".

(** ** Package strings *)

Module strings.

Definition len (s : string) : Z := Z.of_nat (String.length s).

(** [strings.HasPrefix] *)
Fixpoint HasPrefix (s p : string) : bool :=
  match p, s with
  | EmptyString, _ => true
  | String c p', String d s' => Ascii.eqb c d && HasPrefix s' p'
  | String _ _, EmptyString => false
  end.

Fixpoint index_nat (s substr : string) : option nat :=
  if HasPrefix s substr then Some O
  else match s with
       | EmptyString => None
       | String _ s' => option_map S (index_nat s' substr)
       end.

(** [strings.Index]: the byte offset of the first occurrence, or -1. *)
Definition Index (s substr : string) : Z :=
  match index_nat s substr with
  | Some n => Z.of_nat n
  | None => -1
  end.

Fixpoint drop (n : nat) (s : string) : string :=
  match n, s with
  | O, _ => s
  | S n', String _ s' => drop n' s'
  | S _, EmptyString => EmptyString
  end.

Fixpoint take (n : nat) (s : string) : string :=
  match n, s with
  | O, _ => EmptyString
  | S n', String c s' => String c (take n' s')
  | S _, EmptyString => EmptyString
  end.

(** The slice expression [s[lo:hi]]; out-of-range bounds panic. *)
Definition slice (s : string) (lo hi : Z) : outcome string :=
  if (0 <=? lo) && (lo <=? hi) && (hi <=? len s)
  then Ok (take (Z.to_nat (hi - lo)) (drop (Z.to_nat lo) s))
  else Panic "slice bounds out of range".

(** [s[lo:]] *)
Definition slice_from (s : string) (lo : Z) : outcome string :=
  slice s lo (len s).

(** [strings.Join] *)
Fixpoint Join (elems : list string) (sep : string) : string :=
  match elems with
  | [] => ""
  | [x] => x
  | x :: rest => x ++ sep ++ Join rest sep
  end.

(** [strings.Split] for a non-empty separator: [skip] counts the bytes of a
    separator just matched that are still to be passed over; [cur] is the
    piece being collected. *)
Fixpoint split_from (sep : string) (skip : nat) (cur : string) (s : string)
  : list string :=
  match s with
  | EmptyString => [cur]
  | String c s' =>
      match skip with
      | S k => split_from sep k cur s'
      | O =>
          if HasPrefix s sep
          then cur :: split_from sep (String.length sep - 1) "" s'
          else split_from sep O (cur ++ String c "") s'
      end
  end.

Definition Split (s sep : string) : list string := split_from sep O "" s.

(** White space as [unicode.IsSpace] has it: the ASCII characters
    tab, LF, VT, FF, CR and space, and, UTF-8 encoded, U+0085, U+00A0,
    U+1680, U+2000..U+200A, U+2028, U+2029, U+202F, U+205F and U+3000.
    [space_width s] is the number of bytes of the white-space character [s]
    starts with, 0 when it starts with none. *)
Definition ascii_space (c : ascii) : bool :=
  in_range 9 13 c || (code c =? 32)%N.

Definition space_width (s : string) : nat :=
  match s with
  | EmptyString => O
  | String c0 r0 =>
      if ascii_space c0 then 1%nat
      else match r0 with
      | EmptyString => O
      | String c1 r1 =>
          if (code c0 =? 194)%N && ((code c1 =? 133) || (code c1 =? 160))%N
          then 2%nat
          else match r1 with
          | EmptyString => O
          | String c2 _ =>
              let b0 := code c0 in
              let b1 := code c1 in
              let b2 := code c2 in
              if ((b0 =? 225) && (b1 =? 154) && (b2 =? 128))%N
                 || ((b0 =? 226) && (b1 =? 128)
                     && ((128 <=? b2) && (b2 <=? 138)
                         || (b2 =? 168) || (b2 =? 169) || (b2 =? 175)))%N
                 || ((b0 =? 226) && (b1 =? 129) && (b2 =? 159))%N
                 || ((b0 =? 227) && (b1 =? 128) && (b2 =? 128))%N
              then 3%nat else O
          end
      end
  end.

(** [strings.TrimLeftFunc(s, unicode.IsSpace)] *)
Fixpoint trim_left (fuel : nat) (s : string) : string :=
  match fuel with
  | O => s
  | S fuel' =>
      match space_width s with
      | O => s
      | w => trim_left fuel' (drop w s)
      end
  end.

Fixpoint rev_string (s acc : string) : string :=
  match s with
  | EmptyString => acc
  | String c s' => rev_string s' (String c acc)
  end.

(** The width of the white-space character [s] ends with: [r] is [s]
    reversed, so its first bytes are the last bytes of [s]. *)
Definition space_width_last (r : string) : nat :=
  match r with
  | EmptyString => O
  | String c0 r0 =>
      if ascii_space c0 then 1%nat
      else match r0 with
      | EmptyString => O
      | String c1 r1 =>
          if (space_width (String c1 (String c0 "")) =? 2)%nat then 2%nat
          else match r1 with
          | EmptyString => O
          | String c2 _ =>
              if (space_width (String c2 (String c1 (String c0 ""))) =? 3)%nat
              then 3%nat else O
          end
      end
  end.

Fixpoint trim_left_rev (fuel : nat) (r : string) : string :=
  match fuel with
  | O => r
  | S fuel' =>
      match space_width_last r with
      | O => r
      | w => trim_left_rev fuel' (drop w r)
      end
  end.

(** [strings.TrimRightFunc(s, unicode.IsSpace)] *)
Definition trim_right (s : string) : string :=
  rev_string (trim_left_rev (String.length s) (rev_string s "")) "".

(** [strings.TrimSpace] *)
Definition TrimSpace (s : string) : string :=
  trim_right (trim_left (String.length s) s).

End strings.

(** ** Package unicode/utf8 *)

Module utf8.
Local Open Scope N_scope.

Definition RuneError : N := 65533.
Definition MaxRune : N := 1114111.

Definition cont (c : ascii) : bool := in_range 128 191 c.

(** For a leading byte: the length of the sequence and the range the second
    byte must lie in (the table [first]/[acceptRanges] of the package). *)
Definition lead (b0 : N) : option (nat * N * N) :=
  if (194 <=? b0) && (b0 <=? 223) then Some (2%nat, 128, 191)
  else if b0 =? 224 then Some (3%nat, 160, 191)
  else if (225 <=? b0) && (b0 <=? 236) then Some (3%nat, 128, 191)
  else if b0 =? 237 then Some (3%nat, 128, 159)
  else if (238 <=? b0) && (b0 <=? 239) then Some (3%nat, 128, 191)
  else if b0 =? 240 then Some (4%nat, 144, 191)
  else if (241 <=? b0) && (b0 <=? 243) then Some (4%nat, 128, 191)
  else if b0 =? 244 then Some (4%nat, 128, 143)
  else None.

(** [utf8.DecodeRuneInString]: the first rune of [s] and its width in
    bytes; [(RuneError, 1)] on an invalid or truncated encoding. *)
Definition DecodeRuneInString (s : string) : N * nat :=
  match s with
  | EmptyString => (RuneError, 0%nat)
  | String c0 r0 =>
      let b0 := code c0 in
      if b0 <? 128 then (b0, 1%nat)
      else match lead b0, r0 with
      | Some (2%nat, lo, hi), String c1 _ =>
          if in_range lo hi c1
          then ((b0 mod 32) * 64 + code c1 mod 64, 2%nat)
          else (RuneError, 1%nat)
      | Some (3%nat, lo, hi), String c1 (String c2 _) =>
          if in_range lo hi c1 && cont c2
          then (((b0 mod 16) * 64 + code c1 mod 64) * 64 + code c2 mod 64,
                3%nat)
          else (RuneError, 1%nat)
      | Some (4%nat, lo, hi), String c1 (String c2 (String c3 _)) =>
          if in_range lo hi c1 && cont c2 && cont c3
          then ((((b0 mod 8) * 64 + code c1 mod 64) * 64 + code c2 mod 64)
                * 64 + code c3 mod 64, 4%nat)
          else (RuneError, 1%nat)
      | _, _ => (RuneError, 1%nat)
      end
  end.

Definition bytes (l : list N) : string :=
  fold_right (fun n s => String (byte_of n) s) EmptyString l.

(** The conversion [string(rune(r))]: the UTF-8 encoding of [r], that of
    U+FFFD for a surrogate or a value beyond [MaxRune]. *)
Definition EncodeRune (r : N) : string :=
  if r <? 128 then bytes [r]
  else if r <? 2048 then bytes [192 + r / 64; 128 + r mod 64]
  else if (55296 <=? r) && (r <=? 57343) then bytes [239; 191; 189]
  else if r <? 65536
  then bytes [224 + r / 4096; 128 + (r / 64) mod 64; 128 + r mod 64]
  else if r <=? MaxRune
  then bytes [240 + r / 262144; 128 + (r / 4096) mod 64;
              128 + (r / 64) mod 64; 128 + r mod 64]
  else bytes [239; 191; 189].

End utf8.

(** ** Package encoding/xml

    The decoder is modelled as the standard library has it, in two layers: a
    lexer ([Decoder.rawToken]) and, above it, the consumers that
    [xml.Unmarshal] runs for the two struct types of the program.  The lexer
    reads one byte at a time; where the library un-reads a byte ([ungetc]),
    the step function hands the byte to the handler of the next state.

    Fragment: element and attribute names are ASCII; a directive
    ([<!DOCTYPE ...>] and the like) is not modelled.  On either, the lexer
    stops with an [Unsupported] token, and the model then answers with an
    error of its own: nothing is said about such documents. *)

Module xml.

Record Name : Type := { Space : string; Local : string }.
Record Attr : Type := { AttrName_ : Name; Value : string }.

Inductive Token : Type :=
| StartElement (name : Name) (attr : list Attr)
| EndElement (name : Name)
| CharData (data : string)
| Comment
| ProcInst (target : string)
| SyntaxError (msg : string)
| Unsupported (what : string).

(** *** Characters *)

Definition byte_is (c : ascii) (n : N) : bool := (code c =? n)%N.
Definition high (c : ascii) : bool := (128 <=? code c)%N.

(** [isNameByte] *)
Definition isNameByte (c : ascii) : bool :=
  in_range 65 90 c || in_range 97 122 c || in_range 48 57 c
  || byte_is c 95 || byte_is c 58 || byte_is c 46 || byte_is c 45.

(** The ASCII part of the table [first] of [isName]. *)
Definition isNameStart (c : ascii) : bool :=
  in_range 65 90 c || in_range 97 122 c || byte_is c 95 || byte_is c 58.

(** The bytes [Decoder.space] skips. *)
Definition isSpaceByte (c : ascii) : bool :=
  byte_is c 32 || byte_is c 13 || byte_is c 10 || byte_is c 9.

(** [isInCharacterRange] *)
Definition isInCharacterRange (r : N) : bool :=
  ((r =? 9) || (r =? 10) || (r =? 13)
   || (32 <=? r) && (r <=? 55295)
   || (57344 <=? r) && (r <=? 65533)
   || (65536 <=? r) && (r <=? 1114111))%N.

(** The check that closes [Decoder.text]: every rune of the data is a
    valid UTF-8 sequence and a legal XML character.  [skip] counts the
    bytes of the current rune still to be passed over. *)
Fixpoint valid_from (skip : nat) (s : string) : bool :=
  match s with
  | EmptyString => true
  | String _ s' =>
      match skip with
      | S k => valid_from k s'
      | O =>
          let (r, width) := utf8.DecodeRuneInString s in
          if (r =? utf8.RuneError)%N && (width =? 1)%nat then false
          else if isInCharacterRange r then valid_from (width - 1) s'
          else false
      end
  end.

Definition valid_text (s : string) : bool := valid_from O s.

(** *** Names *)

Fixpoint count_colon (s : string) : nat :=
  match s with
  | EmptyString => O
  | String c s' => ((if byte_is c 58 then 1 else 0) + count_colon s')%nat
  end.

Fixpoint all_bytes (p : ascii -> bool) (s : string) : bool :=
  match s with
  | EmptyString => true
  | String c s' => p c && all_bytes p s'
  end.

Inductive name_check : Type := NameOk | NameBad | NameForeign.

(** [Decoder.name]: at least one byte, and [isName] holds. *)
Definition check_name (s : string) : name_check :=
  match s with
  | EmptyString => NameBad
  | String c _ =>
      if negb (all_bytes (fun b => negb (high b)) s) then NameForeign
      else if isNameStart c then NameOk else NameBad
  end.

Fixpoint cut_colon (s : string) : option (string * string) :=
  match s with
  | EmptyString => None
  | String c s' =>
      if byte_is c 58 then Some ("", s')
      else match cut_colon s' with
           | Some (a, b) => Some (String c a, b)
           | None => None
           end
  end.

(** [Decoder.nsname] on a name already read. *)
Definition split_name (s : string) : option Name :=
  if (1 <? count_colon s)%nat then None
  else match cut_colon s with
       | Some (EmptyString, _) | Some (_, EmptyString) | None =>
           Some {| Space := ""; Local := s |}
       | Some (space, local) => Some {| Space := space; Local := local |}
       end.

(** *** Character references *)

Definition digit_value (base : N) (c : ascii) : option N :=
  if in_range 48 57 c then Some (code c - 48)%N
  else if (base =? 16)%N && in_range 97 102 c then Some (code c - 87)%N
  else if (base =? 16)%N && in_range 65 70 c then Some (code c - 55)%N
  else None.

Fixpoint parse_digits (base : N) (acc : N) (s : string) : option N :=
  match s with
  | EmptyString => Some acc
  | String c s' =>
      match digit_value base c with
      | Some d => parse_digits base (acc * base + d)%N s'
      | None => None
      end
  end.

Definition parse_uint (base : N) (s : string) : option N :=
  match s with
  | EmptyString => None
  | _ => parse_digits base 0%N s
  end.

Definition numeric (base : N) (digits : string) : option string :=
  match parse_uint base digits with
  | Some n => if (n <=? utf8.MaxRune)%N then Some (utf8.EncodeRune n) else None
  | None => None
  end.

(** What stands between [&] and [;]: one of the five predefined entities
    or a decimal or hexadecimal character reference. *)
Definition entity_text (ent : string) : option string :=
  match ent with
  | "lt" => Some "<"
  | "gt" => Some ">"
  | "amp" => Some "&"
  | "apos" => Some "'"
  | "quot" => Some (String (byte_of 34) "")
  | String "#" (String "x" digits) => numeric 16 digits
  | String "#" digits => numeric 10 digits
  | _ => None
  end.

Definition isEntityByte (c : ascii) : bool :=
  isNameByte c || byte_is c 35 || high c.

(** *** The XML declaration *)

(** [procInst]: the value of the pseudo-attribute [param] in the text of a
    processing instruction, the empty string when there is none.  [i] is the
    offset the search resumes at. *)
Fixpoint procInst_scan (fuel : nat) (param s : string) (i : nat)
  : option (nat * ascii) :=
  match fuel with
  | O => None
  | S fuel' =>
      if (i <? String.length s)%nat then
        let sub := strings.drop i s in
        match strings.index_nat sub param with
        | None => None
        | Some k =>
            let lenp := String.length param in
            if (String.length sub <=? lenp + k)%nat then None
            else match strings.drop (lenp + k) sub with
                 | String c _ =>
                     if byte_is c 39 || byte_is c 34
                     then Some ((i + lenp + k + 1)%nat, c)
                     else procInst_scan fuel' param s (i + lenp + k + 1)%nat
                 | EmptyString => None
                 end
        end
      else None
  end.

Definition procInst (param s : string) : string :=
  match procInst_scan (S (String.length s)) (param ++ "=") s O with
  | None => ""
  | Some (i, sep) =>
      let rest := strings.drop i s in
      match strings.index_nat rest (String sep "") with
      | None => ""
      | Some j => strings.take j rest
      end
  end.

Definition lower (c : ascii) : ascii :=
  if in_range 65 90 c then byte_of (code c + 32)%N else c.

Fixpoint map_bytes (f : ascii -> ascii) (s : string) : string :=
  match s with
  | EmptyString => EmptyString
  | String c s' => String (f c) (map_bytes f s')
  end.

(** The checks [rawToken] makes on [<?xml ...?>]: version 1.0 only, and
    no encoding other than UTF-8 (no [CharsetReader] is installed by
    [xml.Unmarshal]). *)
Definition xml_decl_ok (target data : string) : bool :=
  if String.eqb target "xml" then
    let ver := procInst "version" data in
    let enc := procInst "encoding" data in
    (String.eqb ver "" || String.eqb ver "1.0")
    && (String.eqb enc "" || String.eqb (map_bytes lower enc) "utf-8")
  else true.

(** *** The lexer *)

Record tag : Type := { tname : Name; tattrs : list Attr }.

Definition NUL : ascii := byte_of 0.

Inductive lexstate : Type :=
| Text (buf : string) (b0 b1 : ascii)
| TextEnt (buf ent : string)
| TagOpen
| StartName (nm : string)
| Attrs (t : tag)
| SlashSeen (t : tag)
| AttrName (t : tag) (an : string)
| AttrEq (t : tag) (an : Name)
| AttrValStart (t : tag) (an : Name)
| AttrVal (t : tag) (an : Name) (q : ascii) (buf : string) (b0 b1 : ascii)
| AttrValEnt (t : tag) (an : Name) (q : ascii) (buf ent : string)
| EndName (nm : string)
| EndSpace (n : Name)
| PITarget (target : string)
| PISpace (target : string)
| PIBody (target buf : string) (b0 : ascii)
| Bang
| BangDash
| CommentBody (b0 b1 : ascii)
| CDataOpen (seen : string)
| CData (buf : string) (b0 b1 : ascii)
| Failed.

Definition boundary : lexstate := Text "" NUL NUL.

Definition snoc (s : string) (c : ascii) : string := s ++ String c "".

Definition fail (msg : string) : lexstate * list Token :=
  (Failed, [SyntaxError msg]).

Definition foreign (what : string) : lexstate * list Token :=
  (Failed, [Unsupported what]).

(** A byte of character data goes to the buffer with CR and CR LF
    rewritten into LF. *)
Definition put (buf : string) (b1 c : ascii) : string :=
  if byte_is c 13 then snoc buf LF
  else if byte_is b1 13 && byte_is c 10 then buf
  else snoc buf c.

Definition closes_cdata (b0 b1 c : ascii) : bool :=
  byte_is b0 93 && byte_is b1 93 && byte_is c 62.

Definition bad_text : string := "invalid UTF-8 or illegal character code".

Definition attrs_step (t : tag) (c : ascii) : lexstate * list Token :=
  if isSpaceByte c then (Attrs t, [])
  else if byte_is c 47 then (SlashSeen t, [])
  else if byte_is c 62 then (boundary, [StartElement (tname t) (tattrs t)])
  else if isNameByte c || high c then (AttrName t (String c ""), [])
  else fail "expected attribute name in element".

Definition attr_eq_step (t : tag) (an : Name) (c : ascii)
  : lexstate * list Token :=
  if isSpaceByte c then (AttrEq t an, [])
  else if byte_is c 61 then (AttrValStart t an, [])
  else fail "attribute name without = in element".

Definition end_space_step (n : Name) (c : ascii) : lexstate * list Token :=
  if isSpaceByte c then (EndSpace n, [])
  else if byte_is c 62 then (boundary, [EndElement n])
  else fail "invalid characters between </name and >".

Definition pi_body_step (target buf : string) (b0 c : ascii)
  : lexstate * list Token :=
  if byte_is b0 63 && byte_is c 62 then
    let data := strings.take (String.length buf - 1) buf in
    if xml_decl_ok target data then (boundary, [ProcInst target])
    else fail "xml: unsupported version or encoding"
  else (PIBody target (snoc buf c) c, []).

Definition pi_space_step (target : string) (c : ascii)
  : lexstate * list Token :=
  if isSpaceByte c then (PISpace target, [])
  else pi_body_step target "" NUL c.

Definition step (st : lexstate) (c : ascii) : lexstate * list Token :=
  match st with
  | Text buf b0 b1 =>
      if closes_cdata b0 b1 c then fail "unescaped ]]> not in CDATA section"
      else if byte_is c 60 then
        if String.eqb buf "" then (TagOpen, [])
        else if valid_text buf then (TagOpen, [CharData buf])
        else fail bad_text
      else if byte_is c 38 then (TextEnt buf "", [])
      else (Text (put buf b1 c) b1 c, [])
  | TextEnt buf ent =>
      if byte_is c 59 then
        match entity_text ent with
        | Some x => (Text (buf ++ x) NUL NUL, [])
        | None => fail "invalid character entity"
        end
      else if isEntityByte c then (TextEnt buf (snoc ent c), [])
      else fail "invalid character entity (no semicolon)"
  | TagOpen =>
      if byte_is c 47 then (EndName "", [])
      else if byte_is c 63 then (PITarget "", [])
      else if byte_is c 33 then (Bang, [])
      else if isNameByte c || high c then (StartName (String c ""), [])
      else fail "expected element name after <"
  | StartName nm =>
      if isNameByte c || high c then (StartName (snoc nm c), [])
      else match check_name nm, split_name nm with
           | NameOk, Some n => attrs_step {| tname := n; tattrs := [] |} c
           | NameForeign, _ => foreign "element name outside ASCII"
           | _, _ => fail "expected element name after <"
           end
  | Attrs t => attrs_step t c
  | SlashSeen t =>
      if byte_is c 62
      then (boundary, [StartElement (tname t) (tattrs t); EndElement (tname t)])
      else fail "expected /> in element"
  | AttrName t an =>
      if isNameByte c || high c then (AttrName t (snoc an c), [])
      else match check_name an, split_name an with
           | NameOk, Some n => attr_eq_step t n c
           | NameForeign, _ => foreign "attribute name outside ASCII"
           | _, _ => fail "expected attribute name in element"
           end
  | AttrEq t an => attr_eq_step t an c
  | AttrValStart t an =>
      if isSpaceByte c then (AttrValStart t an, [])
      else if byte_is c 34 || byte_is c 39 then (AttrVal t an c "" NUL NUL, [])
      else fail "unquoted or missing attribute value in element"
  | AttrVal t an q buf b0 b1 =>
      if closes_cdata b0 b1 c then fail "unescaped ]]> not in CDATA section"
      else if byte_is c 60 then fail "unescaped < inside quoted string"
      else if Ascii.eqb c q then
        if valid_text buf
        then (Attrs {| tname := tname t;
                       tattrs := tattrs t ++ [{| AttrName_ := an; Value := buf |}] |},
              [])
        else fail bad_text
      else if byte_is c 38 then (AttrValEnt t an q buf "", [])
      else (AttrVal t an q (put buf b1 c) b1 c, [])
  | AttrValEnt t an q buf ent =>
      if byte_is c 59 then
        match entity_text ent with
        | Some x => (AttrVal t an q (buf ++ x) NUL NUL, [])
        | None => fail "invalid character entity"
        end
      else if isEntityByte c then (AttrValEnt t an q buf (snoc ent c), [])
      else fail "invalid character entity (no semicolon)"
  | EndName nm =>
      if isNameByte c || high c then (EndName (snoc nm c), [])
      else match check_name nm, split_name nm with
           | NameOk, Some n => end_space_step n c
           | NameForeign, _ => foreign "element name outside ASCII"
           | _, _ => fail "expected element name after </"
           end
  | EndSpace n => end_space_step n c
  | PITarget target =>
      if isNameByte c || high c then (PITarget (snoc target c), [])
      else match check_name target with
           | NameOk => pi_space_step target c
           | NameForeign => foreign "target name outside ASCII"
           | NameBad => fail "expected target name after <?"
           end
  | PISpace target => pi_space_step target c
  | PIBody target buf b0 => pi_body_step target buf b0 c
  | Bang =>
      if byte_is c 45 then (BangDash, [])
      else if byte_is c 91 then (CDataOpen "", [])
      else foreign "directive"
  | BangDash =>
      if byte_is c 45 then (CommentBody NUL NUL, [])
      else fail "invalid sequence <!- not part of <!--"
  | CommentBody b0 b1 =>
      if byte_is b0 45 && byte_is b1 45 then
        if byte_is c 62 then (boundary, [Comment])
        else fail "invalid sequence -- not allowed in comments"
      else (CommentBody b1 c, [])
  | CDataOpen seen =>
      let seen' := snoc seen c in
      if String.eqb seen' "CDATA[" then (CData "" NUL NUL, [])
      else if strings.HasPrefix "CDATA[" seen' then (CDataOpen seen', [])
      else fail "invalid <![ sequence"
  | CData buf b0 b1 =>
      if closes_cdata b0 b1 c then
        let data := strings.take (String.length buf - 2) buf in
        if valid_text data then (boundary, [CharData data]) else fail bad_text
      else (CData (put buf b1 c) b1 c, [])
  | Failed => (Failed, [])
  end.

(** What the end of the input leaves: pending character data is a last
    token; inside anything else the input ended too early. *)
Definition finish (st : lexstate) : list Token :=
  match st with
  | Text buf _ _ =>
      if String.eqb buf "" then []
      else if valid_text buf then [CharData buf]
      else [SyntaxError bad_text]
  | Failed => []
  | _ => [SyntaxError "unexpected EOF"]
  end.

Fixpoint run (st : lexstate) (s : string) : lexstate * list Token :=
  match s with
  | EmptyString => (st, [])
  | String c s' =>
      let (st1, out1) := step st c in
      let (st2, out2) := run st1 s' in
      (st2, (out1 ++ out2)%list)
  end.

(** The tokens of a document, as successive calls of [rawToken] return
    them, a self-closing tag giving its start and its end; the list stops
    at the first error. *)
Definition tokens (s : string) : list Token :=
  let (st, out) := run boundary s in (out ++ finish st)%list.

(** *** Name spaces *)

Definition name_eqb (a b : Name) : bool :=
  String.eqb (Space a) (Space b) && String.eqb (Local a) (Local b).

(** The prefix bindings in force, the most recent first. *)
Definition ns_env : Type := list (string * string).

Fixpoint ns_lookup (env : ns_env) (prefix : string) : option string :=
  match env with
  | [] => None
  | (p, uri) :: env' =>
      if String.eqb p prefix then Some uri else ns_lookup env' prefix
  end.

(** The bindings a start tag adds: [xmlns:p="uri"] and [xmlns="uri"]. *)
Fixpoint ns_bind (env : ns_env) (attr : list Attr) : ns_env :=
  match attr with
  | [] => env
  | a :: attr' =>
      let n := AttrName_ a in
      let env1 :=
        if String.eqb (Space n) "xmlns" then (Local n, Value a) :: env
        else env in
      let env2 :=
        if String.eqb (Space n) "" && String.eqb (Local n) "xmlns"
        then ("", Value a) :: env1 else env1 in
      ns_bind env2 attr'
  end.

Definition xmlURL : string := "http://www.w3.org/XML/1998/namespace".

(** [Decoder.translate] for an element name: the prefix is replaced by
    the URI bound to it; an unbound prefix stays as it is. *)
Definition translate (env : ns_env) (n : Name) : Name :=
  if String.eqb (Space n) "xmlns" then n
  else if String.eqb (Space n) "xml"
  then {| Space := xmlURL; Local := Local n |}
  else if String.eqb (Space n) "" && String.eqb (Local n) "xmlns" then n
  else match ns_lookup env (Space n) with
       | Some uri => {| Space := uri; Local := Local n |}
       | None => n
       end.

(** *** Unmarshal into a struct of string slices

    [R] is the struct, [F] names its fields that take child elements.
    [lookup] is what [unmarshalPath] does with one child of the root: the
    first field whose tag fits the (translated) name of the child.
    [store f v r] appends [v] to the slice of field [f]. *)

Section Unmarshal.
Variables R F : Type.
Variable lookup : Name -> option F.
Variable store : F -> string -> R -> R.

(** Where the decoder stands inside the root element.  [stk] holds the
    raw names of the elements still open, the innermost first. *)
Inductive place : Type :=
| Children
| Field (f : F) (acc : string) (stk : list Name)
| Skipped (stk : list Name).

Definition model_error (what : string) : string :=
  "outside the modelled fragment: " ++ what.

Definition closed_by (top n : Name) : string :=
  "element <" ++ Local top ++ "> closed by </" ++ Local n ++ ">".

Fixpoint fill (root : Name) (env : ns_env) (p : place) (r : R)
  (toks : list Token) : outcome R :=
  match toks with
  | [] => Err "unexpected EOF"
  | tok :: rest =>
      match tok with
      | SyntaxError e => Err e
      | Unsupported w => Err (model_error w)
      | StartElement n a =>
          match p with
          | Children =>
              match lookup (translate (ns_bind env a) n) with
              | Some f => fill root env (Field f "" [n]) r rest
              | None => fill root env (Skipped [n]) r rest
              end
          | Field f acc stk => fill root env (Field f acc (n :: stk)) r rest
          | Skipped stk => fill root env (Skipped (n :: stk)) r rest
          end
      | EndElement n =>
          match p with
          | Children =>
              if name_eqb root n then Ok r else Err (closed_by root n)
          | Field f acc (top :: stk) =>
              if name_eqb top n then
                match stk with
                | [] => fill root env Children (store f acc r) rest
                | _ => fill root env (Field f acc stk) r rest
                end
              else Err (closed_by top n)
          | Skipped (top :: stk) =>
              if name_eqb top n then
                match stk with
                | [] => fill root env Children r rest
                | _ => fill root env (Skipped stk) r rest
                end
              else Err (closed_by top n)
          | Field _ _ [] | Skipped [] => Err "unexpected end element"
          end
      | CharData d =>
          match p with
          | Field f acc [x] => fill root env (Field f (acc ++ d) [x]) r rest
          | _ => fill root env p r rest
          end
      | Comment | ProcInst _ => fill root env p r rest
      end
  end.

(** The first start element of the document; what comes before it is
    passed over. *)
Fixpoint find_root (toks : list Token)
  : outcome (Name * list Attr * list Token) :=
  match toks with
  | [] => Err "EOF"
  | tok :: rest =>
      match tok with
      | StartElement n a => Ok (n, a, rest)
      | EndElement n => Err ("unexpected end element </" ++ Local n ++ ">")
      | SyntaxError e => Err e
      | Unsupported w => Err (model_error w)
      | _ => find_root rest
      end
  end.

(** [xml.Unmarshal(data, &v)] for [v] a zero value of the struct:
    [root_error] is the check against the [XMLName] tag, [zero n] the zero
    value with [XMLName] set to [n].  Nothing after the end tag of the
    root is read. *)
Definition Unmarshal (root_error : Name -> option string) (zero : Name -> R)
  (data : string) : outcome R :=
  '(n, a, rest) <- find_root (tokens data) ;;
  let env := ns_bind [] a in
  let tn := translate env n in
  match root_error tn with
  | Some e => Err e
  | None => fill n env Children (zero tn) rest
  end.

End Unmarshal.

Arguments Children {F}.
Arguments Field {F} f acc stk.
Arguments Skipped {F} stk.

(** The text collected so far for a field has passed the check of
    [Decoder.text]. *)
Definition place_ok {F : Type} (p : place F) : Prop :=
  match p with
  | Field _ acc _ => valid_text acc = true
  | _ => True
  end.

(** *** Marshal *)

Definition escape_of (r : N) : option string :=
  if (r =? 34)%N then Some "&#34;"
  else if (r =? 39)%N then Some "&#39;"
  else if (r =? 38)%N then Some "&amp;"
  else if (r =? 60)%N then Some "&lt;"
  else if (r =? 62)%N then Some "&gt;"
  else if (r =? 9)%N then Some "&#x9;"
  else if (r =? 10)%N then Some "&#xA;"
  else if (r =? 13)%N then Some "&#xD;"
  else None.

Definition FFFD : string := utf8.bytes [239; 191; 189]%N.

(** [EscapeString], rune by rune: the eight characters above are written
    as references, an invalid encoding or an illegal character as U+FFFD,
    everything else as it is.  [skip] counts the bytes of the current rune
    still to be passed over, copied or dropped as [copy] says. *)
Fixpoint escape_from (skip : nat) (copy : bool) (s : string) : string :=
  match s with
  | EmptyString => EmptyString
  | String c s' =>
      match skip with
      | S k =>
          if copy then String c (escape_from k copy s')
          else escape_from k copy s'
      | O =>
          let (r, width) := utf8.DecodeRuneInString s in
          match escape_of r with
          | Some e => e ++ escape_from O true s'
          | None =>
              if negb (isInCharacterRange r)
                 || ((r =? utf8.RuneError)%N && (width =? 1)%nat)
              then FFFD ++ escape_from (width - 1) false s'
              else String c (escape_from (width - 1) true s')
          end
      end
  end.

Definition EscapeString (s : string) : string := escape_from O true s.

(** An element with text content, as the encoder writes it after the white
    space [lead]. *)
Definition element (lead tag value : string) : string :=
  lead ++ "<" ++ tag ++ ">" ++ EscapeString value ++ "</" ++ tag ++ ">".

(** The values of a slice field tagged [omitempty] that are written:
    [marshalValue] puts the test for the empty value to the slice and then,
    called on each of its elements with the same field, to the element; an
    empty string is an empty value and writes nothing. *)
Definition omitempty (values : list string) : list string :=
  filter (fun v => negb (String.eqb v "")) values.

(** The elements of a slice field tagged [omitempty], one after the
    other. *)
Fixpoint elements (lead tag : string) (values : list string) : string :=
  match values with
  | [] => ""
  | v :: vs =>
      if String.eqb v "" then elements lead tag vs
      else element lead tag v ++ elements lead tag vs
  end.

(** *** Vocabulary of the statements *)

(** Every byte of [s] is beyond ASCII. *)
Definition highs (s : string) : bool := all_bytes high s.

Definition highs_prefix (k : nat) (s : string) : Prop :=
  highs (strings.take k s) = true.

(** A byte that character data holds as it is: not [<], [&], [>], CR
    or LF. *)
Definition plain (c : ascii) : bool :=
  negb (byte_is c 60 || byte_is c 38 || byte_is c 62
        || byte_is c 13 || byte_is c 10).

(** The token character data gives: none when there is no data. *)
Definition chardata (s : string) : list Token :=
  if String.eqb s "" then [] else [CharData s].

(** The tokens of one element written by [element]. *)
Definition element_tokens (lead : string) (n : Name) (v : string)
  : list Token :=
  (chardata lead ++ [StartElement n []] ++ chardata v ++ [EndElement n])%list.

(** The lexer reads the tag back as the element name [n] after the white
    space [lead]. *)
Definition reads_as (lead tag : string) (n : Name) : Prop :=
  run boundary (lead ++ "<" ++ tag ++ ">")
  = (boundary, (chardata lead ++ [StartElement n []])%list)
  /\ run TagOpen ("/" ++ tag ++ ">") = (boundary, [EndElement n]).

Definition all_valid (values : list string) : Prop :=
  Forall (fun v => valid_text v = true) values.

(** In a token list, every piece of character data has passed the check of
    [Decoder.text]. *)
Definition token_ok (t : Token) : Prop :=
  match t with
  | CharData d => valid_text d = true
  | _ => True
  end.

End xml.

(** ** The world outside the process: archive/zip, os, time

    A file holds either the bytes of a zip archive, given by its members in
    directory order, or bytes [zip.NewReader] rejects; the bytes of an archive
    are not modelled further.  The clock is the sequence of readings that
    successive calls of [time.Now] obtain. *)

Module zip.

(** What reading an opened member to its end gives: the bytes delivered
    and the error that stopped the reading, if any (a checksum error, for
    one). *)
Record Reader : Type := { delivered : string; failure : option string }.

(** What [f.Open()] returns: a reader, or the error that kept the member
    from being opened (an unsupported compression method, for one). *)
Inductive opening : Type :=
| Opened (rc : Reader)
| NotOpened (e : string).

Record File : Type := { Name : string; Open : opening }.

(** [io.ReadAll] *)
Definition ReadAll (rc : Reader) : outcome string :=
  match failure rc with
  | Some e => Err e
  | None => Ok (delivered rc)
  end.

(** A member written by a [zip.Writer] reads back as what was written. *)
Definition stored (name data : string) : File :=
  {| Name := name;
     Open := Opened {| delivered := data; failure := None |} |}.

(** A [zip.Writer]: the headers created so far, each with the bytes written
    under it, the last created first. *)
Definition Writer : Type := list (string * string).

Definition NewWriter : Writer := [].

(** [w.Create(name)] opens a new member; the writes that follow go to it. *)
Definition Create (w : Writer) (name : string) : Writer := (name, "") :: w.

Definition Write (w : Writer) (data : string) : Writer :=
  match w with
  | (name, old) :: w' => (name, old ++ data) :: w'
  | [] => []
  end.

(** [w.Close()]: the archive that has been written. *)
Definition Close (w : Writer) : list File :=
  map (fun e => stored (fst e) (snd e)) (rev w).

Definition ErrFormat : string := "zip: not a valid zip file".

End zip.

Inductive FileData : Type :=
| Zip (members : list zip.File)
| NotZip (bytes : string).

Record World : Type := {
  clock : nat -> string;          (* the n-th reading, formatted as RFC 3339 *)
  ticks : nat;                    (* readings taken so far *)
  files : string -> option FileData;
  creatable : string -> bool      (* can os.Create / os.WriteFile open the path *)
}.

Module os.

Definition ReadFile (path : string) (w : World) : outcome FileData :=
  match files w path with
  | Some d => Ok d
  | None => Err ("open " ++ path ++ ": no such file or directory")
  end.

Definition write (path : string) (d : FileData) (w : World) : World :=
  {| clock := clock w; ticks := ticks w;
     files := fun p => if String.eqb p path then Some d else files w p;
     creatable := creatable w |}.

(** [os.WriteFile] *)
Definition WriteFile (path : string) (d : FileData) (w : World)
  : outcome unit * World :=
  if creatable w path then (Ok tt, write path d w)
  else (Err ("open " ++ path ++ ": permission denied"), w).

(** What [os.Stat] answers for a path: the information on a file, the
    error of a path at which nothing exists, or another error (a component
    of the path that is not a directory, a directory that may not be
    searched).  The world records the files that can be read, not why
    another path cannot; code that tells the errors apart is given the
    answer. *)
Inductive StatResult : Type :=
| FileInfo
| ErrNotExist
| ErrStat (e : string).

(** [os.IsNotExist] on the error of the answer. *)
Definition IsNotExist (r : StatResult) : bool :=
  match r with
  | ErrNotExist => true
  | _ => false
  end.

End os.

Module time.

(** The world after one more reading of the clock. *)
Definition tick (w : World) : World :=
  {| clock := clock w; ticks := S (ticks w);
     files := files w; creatable := creatable w |}.

(** The reading the next call of [time.Now] obtains. *)
Definition reading (w : World) : string := clock w (ticks w).

(** [time.Now().Format(time.RFC3339)] *)
Definition Now_RFC3339 (w : World) : string * World := (reading w, tick w).

End time.

Definition NewReader (d : FileData) : outcome (list zip.File) :=
  match d with
  | Zip members => Ok members
  | NotZip _ => Err zip.ErrFormat
  end.

(** ** Package dublincore *)

Module dublincore.

Record DublinCore : Type := {
  XMLName : xml.Name;
  Title : list string;
  Creator : list string;
  Subject : list string;
  Description : list string;
  Publisher : list string;
  Contributor : list string;
  Date : list string;
  Type_ : list string;
  Format : list string;
  Identifier : list string;
  Source : list string;
  Language : list string;
  Relation : list string;
  Coverage : list string;
  Rights : list string;
  Keywords : list string;
  Category : list string
}.

(** The slice fields, in the order of the struct. *)
Inductive field : Type :=
| FTitle | FCreator | FSubject | FDescription | FPublisher | FContributor
| FDate | FType | FFormat | FIdentifier | FSource | FLanguage | FRelation
| FCoverage | FRights | FKeywords | FCategory.

Definition field_eqb (a b : field) : bool :=
  match a, b with
  | FTitle, FTitle | FCreator, FCreator | FSubject, FSubject
  | FDescription, FDescription | FPublisher, FPublisher
  | FContributor, FContributor | FDate, FDate | FType, FType
  | FFormat, FFormat | FIdentifier, FIdentifier | FSource, FSource
  | FLanguage, FLanguage | FRelation, FRelation | FCoverage, FCoverage
  | FRights, FRights | FKeywords, FKeywords | FCategory, FCategory => true
  | _, _ => false
  end.

Definition get (f : field) (dc : DublinCore) : list string :=
  match f with
  | FTitle => Title dc | FCreator => Creator dc | FSubject => Subject dc
  | FDescription => Description dc | FPublisher => Publisher dc
  | FContributor => Contributor dc | FDate => Date dc | FType => Type_ dc
  | FFormat => Format dc | FIdentifier => Identifier dc
  | FSource => Source dc | FLanguage => Language dc
  | FRelation => Relation dc | FCoverage => Coverage dc
  | FRights => Rights dc | FKeywords => Keywords dc
  | FCategory => Category dc
  end.

(** The assignment [dc.f = v]. *)
Definition set (f : field) (v : list string) (dc : DublinCore) : DublinCore :=
  let pick g := if field_eqb g f then v else get g dc in
  {| XMLName := XMLName dc;
     Title := pick FTitle; Creator := pick FCreator;
     Subject := pick FSubject; Description := pick FDescription;
     Publisher := pick FPublisher; Contributor := pick FContributor;
     Date := pick FDate; Type_ := pick FType; Format := pick FFormat;
     Identifier := pick FIdentifier; Source := pick FSource;
     Language := pick FLanguage; Relation := pick FRelation;
     Coverage := pick FCoverage; Rights := pick FRights;
     Keywords := pick FKeywords; Category := pick FCategory |}.

(** The zero value [DublinCore{}] with [XMLName] set. *)
Definition zero (n : xml.Name) : DublinCore :=
  {| XMLName := n;
     Title := []; Creator := []; Subject := []; Description := [];
     Publisher := []; Contributor := []; Date := []; Type_ := [];
     Format := []; Identifier := []; Source := []; Language := [];
     Relation := []; Coverage := []; Rights := []; Keywords := [];
     Category := [] |}.

Definition no_name : xml.Name := {| xml.Space := ""; xml.Local := "" |}.

Definition docx_mime : string :=
  "application/vnd.openxmlformats-officedocument.wordprocessingml.document".

(** The record [New] builds when the clock reads [now]. *)
Definition default (now : string) : DublinCore :=
  set FCategory ["curriculo"]
    (set FFormat [docx_mime] (set FDate [now] (zero no_name))).

Definition New (w : World) : DublinCore * World :=
  let (now, w') := time.Now_RFC3339 w in (default now, w').

Definition SetTitle (title : string) (dc : DublinCore) : DublinCore :=
  set FTitle [title] dc.

Definition AddCreator (creator : string) (dc : DublinCore) : DublinCore :=
  set FCreator (Creator dc ++ [creator]) dc.

Definition SetDescription (description : string) (dc : DublinCore)
  : DublinCore :=
  set FDescription [description] dc.

Definition AddKeyword (keyword : string) (dc : DublinCore) : DublinCore :=
  set FKeywords (Keywords dc ++ [keyword]) dc.

Definition SetCategory (dc : DublinCore) : DublinCore :=
  set FCategory ["curriculo"] dc.

Definition dc_elements : string := "http://purl.org/dc/elements/1.1/".
Definition dc_terms : string := "http://purl.org/dc/terms/".

(** The struct tags: the name space a field asks for (none when empty) and
    its element name. *)
Definition tag_of (f : field) : string * string :=
  match f with
  | FTitle => ("", "title") | FCreator => ("", "creator")
  | FSubject => ("", "subject") | FDescription => ("", "description")
  | FPublisher => ("", "publisher") | FContributor => ("", "contributor")
  | FDate => ("", "date") | FType => ("", "type") | FFormat => ("", "format")
  | FIdentifier => ("", "identifier") | FSource => ("", "source")
  | FLanguage => ("", "language") | FRelation => ("", "relation")
  | FCoverage => ("", "coverage") | FRights => ("", "rights")
  | FKeywords => (dc_terms, "keyword") | FCategory => (dc_terms, "type")
  end.

Definition all_fields : list field :=
  [FTitle; FCreator; FSubject; FDescription; FPublisher; FContributor;
   FDate; FType; FFormat; FIdentifier; FSource; FLanguage; FRelation;
   FCoverage; FRights; FKeywords; FCategory].

(** A field takes an element when the local names agree and the field asks
    for no name space or for that of the element; the first such field in
    struct order wins. *)
Definition fits (n : xml.Name) (f : field) : bool :=
  let (space, local) := tag_of f in
  (String.eqb space "" || String.eqb space (xml.Space n))
  && String.eqb local (xml.Local n).

Definition lookup (n : xml.Name) : option field := find (fits n) all_fields.

Definition store (f : field) (v : string) (dc : DublinCore) : DublinCore :=
  set f (get f dc ++ [v]) dc.

Definition root_error (n : xml.Name) : option string :=
  if negb (String.eqb (xml.Local n) "dc")
  then Some ("expected element type <dc> but have <" ++ xml.Local n ++ ">")
  else if negb (String.eqb (xml.Space n) dc_elements)
  then Some ("expected element <dc> in name space " ++ dc_elements
             ++ " but have "
             ++ (if String.eqb (xml.Space n) "" then "no name space"
                 else xml.Space n))
  else None.

(** [FromXML]: [xml.Unmarshal] into a [DublinCore]. *)
Definition FromXML (data : string) : outcome DublinCore :=
  xml.Unmarshal DublinCore field lookup store root_error zero data.

(** The mutation API as data: a call, and a sequence of calls made one
    after the other on the same record. *)
Inductive mutation : Type :=
| CallSetTitle (title : string)
| CallAddCreator (creator : string)
| CallSetDescription (description : string)
| CallAddKeyword (keyword : string)
| CallSetCategory.

Definition call (m : mutation) (dc : DublinCore) : DublinCore :=
  match m with
  | CallSetTitle t => SetTitle t dc
  | CallAddCreator c => AddCreator c dc
  | CallSetDescription d => SetDescription d dc
  | CallAddKeyword k => AddKeyword k dc
  | CallSetCategory => SetCategory dc
  end.

Definition calls (ms : list mutation) (dc : DublinCore) : DublinCore :=
  fold_left (fun d m => call m d) ms dc.

Definition is_SetCategory (m : mutation) : bool :=
  match m with CallSetCategory => true | _ => false end.

(** How many times a sequence calls [SetCategory]. *)
Definition count_SetCategory (ms : list mutation) : nat :=
  List.length (filter is_SetCategory ms).

(** The creators and the keywords a sequence of calls adds, in the order of
    the calls, and the title and the description the last such call leaves. *)
Definition added_creators (ms : list mutation) : list string :=
  flat_map (fun m => match m with CallAddCreator c => [c] | _ => [] end) ms.

Definition added_keywords (ms : list mutation) : list string :=
  flat_map (fun m => match m with CallAddKeyword k => [k] | _ => [] end) ms.

Definition last_title (ms : list mutation) (init : list string)
  : list string :=
  fold_left (fun acc m => match m with CallSetTitle t => [t] | _ => acc end)
    ms init.

Definition last_description (ms : list mutation) (init : list string)
  : list string :=
  fold_left
    (fun acc m => match m with CallSetDescription d => [d] | _ => acc end)
    ms init.

End dublincore.

(** ** Package docx *)

Module docx.
Import dublincore.

Definition corePropertiesPath : string := "docProps/core.xml".

Record DOCX : Type := {
  FilePath : string;
  DublinCore_ : DublinCore;
  FileData_ : FileData
}.

(** *** Writing core.xml *)

(** [CoreProperties]: the six slices; the four [xmlns] attributes are
    constants that [ToXML] sets. *)
Record CoreProperties : Type := {
  cpTitle : list string;
  cpCreator : list string;
  cpSubject : list string;
  cpDescription : list string;
  cpKeywords : list string;
  cpCategory : list string
}.

Definition dq : string := String (byte_of 34) EmptyString.

Definition XMLNSCP : string :=
  "http://schemas.openxmlformats.org/package/2006/metadata/core-properties".
Definition XMLNSDC : string := "http://purl.org/dc/elements/1.1/".
Definition XMLNSDCTERMS : string := "http://purl.org/dc/terms/".
Definition XMLNSXSI : string := "http://www.w3.org/2001/XMLSchema-instance".

Definition header : string :=
  "<?xml version=" ++ dq ++ "1.0" ++ dq ++ " encoding=" ++ dq ++ "UTF-8" ++ dq
  ++ " standalone=" ++ dq ++ "yes" ++ dq ++ "?>" ++ nl.

Definition attribute (name value : string) : string :=
  " " ++ name ++ "=" ++ dq ++ xml.EscapeString value ++ dq.

(** What [MarshalIndent(cp, "", "  ")] puts before a child of the root: a
    new line and one step of indentation. *)
Definition indent : string := nl ++ "  ".

Definition elements (tag : string) (values : list string) : string :=
  xml.elements indent tag values.

Definition children (cp : CoreProperties) : string :=
  elements "dc:title" (cpTitle cp) ++ elements "dc:creator" (cpCreator cp)
  ++ elements "dc:subject" (cpSubject cp)
  ++ elements "dc:description" (cpDescription cp)
  ++ elements "cp:keywords" (cpKeywords cp)
  ++ elements "cp:category" (cpCategory cp).

Definition root_start : string :=
  "<cp:coreProperties" ++ attribute "xmlns:cp" XMLNSCP
  ++ attribute "xmlns:dc" XMLNSDC ++ attribute "xmlns:dcterms" XMLNSDCTERMS
  ++ attribute "xmlns:xsi" XMLNSXSI ++ ">".

(** [xml.MarshalIndent(cp, "", "  ")]: an empty slice writes nothing; the
    end tag of the root goes on a line of its own unless the root has no
    child. *)
Definition marshalled (cp : CoreProperties) : string :=
  let body := children cp in
  root_start ++ body
  ++ (if String.eqb body "" then "" else nl) ++ "</cp:coreProperties>".

Definition MarshalIndent (cp : CoreProperties) : outcome string :=
  Ok (marshalled cp).

Definition ToXML (cp : CoreProperties) : outcome string :=
  match MarshalIndent cp with
  | Ok data => Ok (header ++ data)
  | Err e => Err e
  | Panic m => Panic m
  | Diverges => Diverges
  end.

(** The [CoreProperties] literal of [writeCoreProperties]. *)
Definition properties_of (dc : DublinCore) : CoreProperties :=
  {| cpTitle := Title dc; cpCreator := Creator dc;
     cpSubject := Subject dc; cpDescription := Description dc;
     cpKeywords := Keywords dc; cpCategory := Category dc |}.

Definition writeCoreProperties (d : DOCX) (zipWriter : zip.Writer)
  : outcome unit * zip.Writer :=
  let coreWriter := zip.Create zipWriter corePropertiesPath in
  let coreProps := properties_of (DublinCore_ d) in
  match ToXML coreProps with
  | Ok data => (Ok tt, zip.Write coreWriter data)
  | Err e => (Err (wrap "failed to marshal core properties" e), coreWriter)
  | Panic m => (Panic m, coreWriter)
  | Diverges => (Diverges, coreWriter)
  end.

(** *** Reading core.xml *)

(** The anonymous struct of [parseCoreXML]. *)
Record coreProps : Type := {
  pXMLName : xml.Name;
  pTitle : list string;
  pCreator : list string;
  pSubject : list string;
  pDescription : list string;
  pKeywords : list string;
  pCategory : list string
}.

Inductive pfield : Type :=
| PTitle | PCreator | PSubject | PDescription | PKeywords | PCategory.

Definition ptag (f : pfield) : string :=
  match f with
  | PTitle => "title" | PCreator => "creator" | PSubject => "subject"
  | PDescription => "description" | PKeywords => "keywords"
  | PCategory => "category"
  end.

(** The tags name no name space, and [unmarshalPath] passes over a field on
    account of the name space only when the tag of the field names one: a
    child element goes to the field whose name is its local name, whatever
    its prefix ([dc:title], [cp:title] and [title] all go to [Title]). *)
Definition plookup (n : xml.Name) : option pfield :=
  find (fun f => String.eqb (ptag f) (xml.Local n))
    [PTitle; PCreator; PSubject; PDescription; PKeywords; PCategory].

(** Values appended to the slice of a field. *)
Definition pappend (f : pfield) (vs : list string) (p : coreProps)
  : coreProps :=
  match f with
  | PTitle =>
      {| pXMLName := pXMLName p; pTitle := pTitle p ++ vs;
         pCreator := pCreator p; pSubject := pSubject p;
         pDescription := pDescription p; pKeywords := pKeywords p;
         pCategory := pCategory p |}
  | PCreator =>
      {| pXMLName := pXMLName p; pTitle := pTitle p;
         pCreator := pCreator p ++ vs; pSubject := pSubject p;
         pDescription := pDescription p; pKeywords := pKeywords p;
         pCategory := pCategory p |}
  | PSubject =>
      {| pXMLName := pXMLName p; pTitle := pTitle p;
         pCreator := pCreator p; pSubject := pSubject p ++ vs;
         pDescription := pDescription p; pKeywords := pKeywords p;
         pCategory := pCategory p |}
  | PDescription =>
      {| pXMLName := pXMLName p; pTitle := pTitle p;
         pCreator := pCreator p; pSubject := pSubject p;
         pDescription := pDescription p ++ vs; pKeywords := pKeywords p;
         pCategory := pCategory p |}
  | PKeywords =>
      {| pXMLName := pXMLName p; pTitle := pTitle p;
         pCreator := pCreator p; pSubject := pSubject p;
         pDescription := pDescription p; pKeywords := pKeywords p ++ vs;
         pCategory := pCategory p |}
  | PCategory =>
      {| pXMLName := pXMLName p; pTitle := pTitle p;
         pCreator := pCreator p; pSubject := pSubject p;
         pDescription := pDescription p; pKeywords := pKeywords p;
         pCategory := pCategory p ++ vs |}
  end.

(** The slice of the field grows by one string. *)
Definition pstore (f : pfield) (v : string) (p : coreProps) : coreProps :=
  pappend f [v] p.

Definition pzero (n : xml.Name) : coreProps :=
  {| pXMLName := n; pTitle := []; pCreator := []; pSubject := [];
     pDescription := []; pKeywords := []; pCategory := [] |}.

Definition proot_error (n : xml.Name) : option string :=
  if String.eqb (xml.Local n) "coreProperties" then None
  else Some ("expected element type <coreProperties> but have <"
             ++ xml.Local n ++ ">").

(** [xml.Unmarshal(data, &coreProps)] *)
Definition Unmarshal_coreProps (data : string) : outcome coreProps :=
  xml.Unmarshal coreProps pfield plookup pstore proot_error pzero data.

Definition nonempty {A : Type} (l : list A) : bool :=
  match l with [] => false | _ => true end.

(** [if len(v) > 0 { dc.f = v }] *)
Definition set_if_any (f : field) (v : list string) (dc : DublinCore)
  : DublinCore :=
  if nonempty v then set f v dc else dc.

(** The closure [extractField] of [parseCoreXMLAlternative].  [start] is
    the loop variable; [fuel] bounds the number of turns of the loop.  The
    loop is run with more fuel than [start] has values (it ranges over the
    offsets into [xmlStr]), so a loop that uses it up has come back to a
    value of [start] it had before, and never ends. *)
Fixpoint extractField_loop (fuel : nat) (xmlStr startTag endTag : string)
  (start : Z) (values : list string) : outcome (list string) :=
  if start =? -1 then Ok values
  else match fuel with
  | O => Diverges
  | S fuel' =>
      rest <- strings.slice_from xmlStr start ;;
      let end_ := strings.Index rest endTag in
      if end_ =? -1 then Ok values
      else
        value <- strings.slice xmlStr (start + strings.len startTag)
                   (start + end_) ;;
        let values' := (values ++ [strings.TrimSpace value])%list in
        rest' <- strings.slice_from xmlStr
                   (start + end_ + strings.len endTag) ;;
        let next := strings.Index rest' startTag in
        let start' :=
          if next =? -1 then next else next + end_ + strings.len endTag in
        extractField_loop fuel' xmlStr startTag endTag start' values'
  end.

Definition extractField (xmlStr tag : string) : outcome (list string) :=
  let startTag := "<" ++ tag ++ ">" in
  let endTag := "</" ++ tag ++ ">" in
  extractField_loop (String.length xmlStr + 2) xmlStr startTag endTag
    (strings.Index xmlStr startTag) [].

Definition possibleTags : list string :=
  ["dc:title"; "title"; "cp:title";
   "dc:creator"; "creator"; "cp:creator";
   "dc:subject"; "subject"; "cp:subject";
   "dc:description"; "description"; "cp:description";
   "cp:keywords"; "keywords";
   "cp:category"; "category"].

(** The [switch tag] of the loop over [possibleTags]. *)
Definition field_of_tag (tag : string) : option field :=
  if existsb (String.eqb tag) ["dc:title"; "title"; "cp:title"]
  then Some FTitle
  else if existsb (String.eqb tag) ["dc:creator"; "creator"; "cp:creator"]
  then Some FCreator
  else if existsb (String.eqb tag) ["dc:subject"; "subject"; "cp:subject"]
  then Some FSubject
  else if existsb (String.eqb tag)
            ["dc:description"; "description"; "cp:description"]
  then Some FDescription
  else if existsb (String.eqb tag) ["cp:keywords"; "keywords"]
  then Some FKeywords
  else if existsb (String.eqb tag) ["cp:category"; "category"]
  then Some FCategory
  else None.

(** The body of the loop: [if len(values) > 0 { switch tag ... }]. *)
Definition assign (tag : string) (values : list string) (dc : DublinCore)
  : DublinCore :=
  if nonempty values then
    match field_of_tag tag with
    | Some f => set f values dc
    | None => dc
    end
  else dc.

Fixpoint scan_tags (xmlStr : string) (tags : list string) (dc : DublinCore)
  : outcome DublinCore :=
  match tags with
  | [] => Ok dc
  | tag :: tags' =>
      values <- extractField xmlStr tag ;;
      scan_tags xmlStr tags' (assign tag values dc)
  end.

Definition parseCoreXMLAlternative (data : string) (w : World)
  : outcome DublinCore * World :=
  let (dc, w') := New w in
  (scan_tags data possibleTags dc, w').

(** "Map the core properties to Dublin Core": the six guarded
    assignments of [parseCoreXML]. *)
Definition map_properties (coreProps : coreProps) (dc : DublinCore)
  : DublinCore :=
  set_if_any FCategory (pCategory coreProps)
    (set_if_any FKeywords (pKeywords coreProps)
       (set_if_any FDescription (pDescription coreProps)
          (set_if_any FSubject (pSubject coreProps)
             (set_if_any FCreator (pCreator coreProps)
                (set_if_any FTitle (pTitle coreProps) dc))))).

(** "If we found any data": the test of [parseCoreXML]. *)
Definition usable (dc : DublinCore) : bool :=
  nonempty (Title dc) || nonempty (Creator dc)
  || nonempty (Keywords dc) || nonempty (Description dc).

Definition parseCoreXML (data : string) (w : World)
  : outcome DublinCore * World :=
  match Unmarshal_coreProps data with
  | Ok coreProps =>
      let (dc0, w') := New w in
      let dc := map_properties coreProps dc0 in
      if usable dc then (Ok dc, w')
      else parseCoreXMLAlternative data w'
  | Err e => (Err (wrap "XML parsing failed" e), w)
  | Panic m => (Panic m, w)
  | Diverges => (Diverges, w)
  end.

Definition extractDublinCore (data : string) (w : World)
  : outcome DublinCore * World :=
  let raw (w' : World) :=
    match FromXML data with
    | Ok rawDC => (Ok rawDC, w')
    | other => (other, w')
    end in
  match parseCoreXML data w with
  | (Ok dc, w') =>
      if nonempty (Title dc) || nonempty (Creator dc)
         || nonempty (Keywords dc)
      then (Ok dc, w')
      else raw w'
  | (Err _, w') => raw w'
  | (Panic m, w') => (Panic m, w')
  | (Diverges, w') => (Diverges, w')
  end.

(** *** Helper functions *)

Fixpoint findFile (reader : list zip.File) (name : string)
  : outcome zip.File :=
  match reader with
  | [] => Err ("file not found: " ++ name)
  | file :: rest =>
      if String.eqb (zip.Name file) name then Ok file
      else findFile rest name
  end.

Definition readZipFile (file : zip.File) : outcome string :=
  match zip.Open file with
  | zip.Opened rc => zip.ReadAll rc
  | zip.NotOpened e => Err e
  end.

Definition copyZipFile (dest : zip.Writer) (src : zip.File)
  : outcome unit * zip.Writer :=
  match zip.Open src with
  | zip.Opened srcReader =>
      let destWriter := zip.Create dest (zip.Name src) in
      let written := zip.Write destWriter (zip.delivered srcReader) in
      match zip.failure srcReader with
      | Some e => (Err e, written)
      | None => (Ok tt, written)
      end
  | zip.NotOpened e => (Err e, dest)
  end.

(** *** Open and Save *)

Definition Open (filePath : string) (w : World) : outcome DOCX * World :=
  match os.ReadFile filePath w with
  | Ok fileData =>
      match NewReader fileData with
      | Ok reader =>
          let (dc0, w1) := New w in
          let docx dc :=
            {| FilePath := filePath; DublinCore_ := dc;
               FileData_ := fileData |} in
          match findFile reader corePropertiesPath with
          | Ok coreFile =>
              match readZipFile coreFile with
              | Ok coreData =>
                  match extractDublinCore coreData w1 with
                  | (Ok dc, w2) => (Ok (docx dc), w2)
                  | (Err _, w2) => (Ok (docx dc0), w2)
                  | (Panic m, w2) => (Panic m, w2)
                  | (Diverges, w2) => (Diverges, w2)
                  end
              | Err _ => (Ok (docx dc0), w1)
              | Panic m => (Panic m, w1)
              | Diverges => (Diverges, w1)
              end
          | Err _ => (Ok (docx dc0), w1)
          | Panic m => (Panic m, w1)
          | Diverges => (Diverges, w1)
          end
      | Err e => (Err (wrap "failed to create zip reader" e), w)
      | Panic m => (Panic m, w)
      | Diverges => (Diverges, w)
      end
  | Err e => (Err (wrap "failed to read file" e), w)
  | Panic m => (Panic m, w)
  | Diverges => (Diverges, w)
  end.

(** The loop of [Save] over [reader.File]. *)
Fixpoint copy_all (d : DOCX) (zipWriter : zip.Writer) (reader : list zip.File)
  : outcome unit * zip.Writer :=
  match reader with
  | [] => (Ok tt, zipWriter)
  | file :: rest =>
      if String.eqb (zip.Name file) corePropertiesPath then
        match writeCoreProperties d zipWriter with
        | (Ok _, zw) => copy_all d zw rest
        | (Err e, zw) => (Err (wrap "failed to write core properties" e), zw)
        | other => other
        end
      else
        match copyZipFile zipWriter file with
        | (Ok _, zw) => copy_all d zw rest
        | (Err e, zw) =>
            (Err (wrap ("failed to copy file " ++ zip.Name file) e), zw)
        | other => other
        end
  end.

(** [Save]: the deferred [zipWriter.Close()] and [outFile.Close()] run on
    every path past [os.Create], so the destination holds the archive
    written so far, whole or not. *)
Definition Save (d : DOCX) (outputPath : string) (w : World)
  : outcome unit * World :=
  let outputPath := if String.eqb outputPath "" then FilePath d
                    else outputPath in
  match NewReader (FileData_ d) with
  | Ok reader =>
      if creatable w outputPath then
        let (res, zipWriter) := copy_all d zip.NewWriter reader in
        (res, os.write outputPath (Zip (zip.Close zipWriter)) w)
      else
        (Err (wrap "failed to create output file"
                ("open " ++ outputPath ++ ": permission denied")), w)
  | Err e => (Err (wrap "failed to create zip reader from memory" e), w)
  | Panic m => (Panic m, w)
  | Diverges => (Diverges, w)
  end.

(** *** Vocabulary of the statements *)

(** The root element [ToXML] writes, as the lexer returns it. *)
Definition root_raw : xml.Name :=
  {| xml.Space := "cp"; xml.Local := "coreProperties" |}.

Definition root_attrs : list xml.Attr :=
  [{| xml.AttrName_ := {| xml.Space := "xmlns"; xml.Local := "cp" |};
      xml.Value := XMLNSCP |};
   {| xml.AttrName_ := {| xml.Space := "xmlns"; xml.Local := "dc" |};
      xml.Value := XMLNSDC |};
   {| xml.AttrName_ := {| xml.Space := "xmlns"; xml.Local := "dcterms" |};
      xml.Value := XMLNSDCTERMS |};
   {| xml.AttrName_ := {| xml.Space := "xmlns"; xml.Local := "xsi" |};
      xml.Value := XMLNSXSI |}].

(** The name of the root after the translation of its prefix. *)
Definition root_name : xml.Name :=
  {| xml.Space := XMLNSCP; xml.Local := "coreProperties" |}.

(** What the strict decode makes of a [CoreProperties] written by
    [ToXML]: the values that were written, the empty strings left out. *)
Definition decoded (cp : CoreProperties) : coreProps :=
  {| pXMLName := root_name;
     pTitle := xml.omitempty (cpTitle cp);
     pCreator := xml.omitempty (cpCreator cp);
     pSubject := xml.omitempty (cpSubject cp);
     pDescription := xml.omitempty (cpDescription cp);
     pKeywords := xml.omitempty (cpKeywords cp);
     pCategory := xml.omitempty (cpCategory cp) |}.

(** A metadata entry that uses [cp:]-prefixed tags only: a
    [cp:coreProperties] root and, for each item in turn, an element
    [cp:title], [cp:creator], ... with the value of the item as its text. *)
Definition cp_tag (f : pfield) : string := "cp:" ++ ptag f.

Definition cp_name (f : pfield) : xml.Name :=
  {| xml.Space := "cp"; xml.Local := ptag f |}.

Definition cp_root_start : string :=
  "<cp:coreProperties" ++ attribute "xmlns:cp" XMLNSCP ++ ">".

Fixpoint cp_items (items : list (pfield * string)) : string :=
  match items with
  | [] => ""
  | (f, v) :: rest => xml.element "" (cp_tag f) v ++ cp_items rest
  end.

Definition cp_entry (items : list (pfield * string)) : string :=
  cp_root_start ++ cp_items items ++ "</cp:coreProperties>".

(** The tokens of an item, and the attributes of the root. *)
Definition item_tokens (i : pfield * string) : list xml.Token :=
  xml.element_tokens "" (cp_name (fst i)) (snd i).

Definition cp_attrs : list xml.Attr :=
  [{| xml.AttrName_ := {| xml.Space := "xmlns"; xml.Local := "cp" |};
      xml.Value := XMLNSCP |}].

Definition pfield_eqb (a b : pfield) : bool :=
  match a, b with
  | PTitle, PTitle | PCreator, PCreator | PSubject, PSubject
  | PDescription, PDescription | PKeywords, PKeywords
  | PCategory, PCategory => true
  | _, _ => false
  end.

(** The values the items give to a field, in document order. *)
Definition values_of (f : pfield) (items : list (pfield * string))
  : list string :=
  map snd (filter (fun i => pfield_eqb (fst i) f) items).

(** A token the decoder passes over wherever it stands, but for the
    character data inside an element it is reading: character data, a
    comment, a processing instruction. *)
Definition passed_over (t : xml.Token) : bool :=
  match t with
  | xml.CharData _ | xml.Comment | xml.ProcInst _ => true
  | _ => false
  end.

(** The text of an element whose content is such tokens: its character
    data, one piece after the other (text and CDATA sections come as
    pieces of their own). *)
Fixpoint text_of (content : list xml.Token) : string :=
  match content with
  | [] => ""
  | xml.CharData d :: rest => d ++ text_of rest
  | _ :: rest => text_of rest
  end.

(** What stands between the tags of the root of a metadata entry that uses
    [cp:]-prefixed tags only, in any layout: an element [cp:title],
    [cp:creator], ... with attributes and text; an element of another name,
    which is none of the six; or white space, a comment or a processing
    instruction between the elements. *)
Inductive part : Type :=
| Item (f : pfield) (attr : list xml.Attr) (content : list xml.Token)
| Other (n : xml.Name) (attr : list xml.Attr) (content : list xml.Token)
| Between (t : xml.Token).

Definition part_tokens (p : part) : list xml.Token :=
  match p with
  | Item f attr content =>
      xml.StartElement (cp_name f) attr
      :: (content ++ [xml.EndElement (cp_name f)])%list
  | Other n attr content =>
      xml.StartElement n attr :: (content ++ [xml.EndElement n])%list
  | Between t => [t]
  end.

Definition part_ok (p : part) : bool :=
  match p with
  | Item _ _ content => forallb passed_over content
  | Other n _ content =>
      forallb passed_over content
      && match plookup n with None => true | Some _ => false end
  | Between t => passed_over t
  end.

(** The fields and values of the [cp:] elements, in document order. *)
Fixpoint items_of (parts : list part) : list (pfield * string) :=
  match parts with
  | [] => []
  | Item f _ content :: rest => (f, text_of content) :: items_of rest
  | _ :: rest => items_of rest
  end.

(** One turn of the loop of [extractField], seen from its loop variable:
    the value [start] has after the turn, or nothing when the turn is the
    last one (no end tag, no further start tag, or a panic). *)
Definition turn (xmlStr startTag endTag : string) (start : Z) : option Z :=
  match strings.slice_from xmlStr start with
  | Ok rest =>
      let end_ := strings.Index rest endTag in
      if end_ =? -1 then None
      else
        match strings.slice xmlStr (start + strings.len startTag)
                (start + end_) with
        | Ok _ =>
            match strings.slice_from xmlStr
                    (start + end_ + strings.len endTag) with
            | Ok rest' =>
                let next := strings.Index rest' startTag in
                if next =? -1 then None
                else Some (next + end_ + strings.len endTag)
            | _ => None
            end
        | _ => None
        end
  | _ => None
  end.

Fixpoint turns (xmlStr startTag endTag : string) (n : nat) (start : Z)
  : option Z :=
  match n with
  | O => Some start
  | S n' =>
      match turn xmlStr startTag endTag start with
      | Some start' => turns xmlStr startTag endTag n' start'
      | None => None
      end
  end.

(** The tag is one of the spellings the fallback knows for the field. *)
Definition spells (f : field) (tag : string) : bool :=
  match field_of_tag tag with
  | Some g => field_eqb f g
  | None => false
  end.

(** The spellings of a field, in the order of [possibleTags]. *)
Definition variants (f : field) : list string :=
  filter (spells f) possibleTags.

(** Last match wins: going through the spellings in order, every one that
    matches somewhere in the text replaces what was there before. *)
Definition last_match (xmlStr : string) (tags : list string)
  (init : list string) : list string :=
  fold_left
    (fun acc tag =>
       match extractField xmlStr tag with
       | Ok values => if nonempty values then values else acc
       | _ => acc
       end)
    tags init.

(** One of title, creator, keywords. *)
Definition leading (f : pfield) : bool :=
  match f with
  | PTitle | PCreator | PKeywords => true
  | _ => false
  end.

(** One of title, creator, keywords, description. *)
Definition primary (f : pfield) : bool :=
  match f with
  | PTitle | PCreator | PKeywords | PDescription => true
  | _ => false
  end.

(** Every string of the six slices is valid character data. *)
Definition valid_properties (cp : CoreProperties) : Prop :=
  xml.all_valid (cpTitle cp) /\ xml.all_valid (cpCreator cp)
  /\ xml.all_valid (cpSubject cp) /\ xml.all_valid (cpDescription cp)
  /\ xml.all_valid (cpKeywords cp) /\ xml.all_valid (cpCategory cp).

Definition valid_coreProps (p : coreProps) : Prop :=
  xml.all_valid (pTitle p) /\ xml.all_valid (pCreator p)
  /\ xml.all_valid (pSubject p) /\ xml.all_valid (pDescription p)
  /\ xml.all_valid (pKeywords p) /\ xml.all_valid (pCategory p).

(** The bytes of the metadata entry written for a record. *)
Definition core_xml (dc : DublinCore) : string :=
  header ++ marshalled (properties_of dc).

(** Of what is written for a record: there is a title, a creator or a
    keyword that is not the empty string; there is one of these, or such a
    description. *)
Definition writes_leading (dc : DublinCore) : bool :=
  nonempty (xml.omitempty (Title dc)) || nonempty (xml.omitempty (Creator dc))
  || nonempty (xml.omitempty (Keywords dc)).

Definition writes_usable (dc : DublinCore) : bool :=
  writes_leading dc || nonempty (xml.omitempty (Description dc)).

(** None of the values that get serialized is the empty string. *)
Definition no_empty_value (dc : DublinCore) : Prop :=
  xml.omitempty (Title dc) = Title dc
  /\ xml.omitempty (Creator dc) = Creator dc
  /\ xml.omitempty (Subject dc) = Subject dc
  /\ xml.omitempty (Description dc) = Description dc
  /\ xml.omitempty (Keywords dc) = Keywords dc
  /\ xml.omitempty (Category dc) = Category dc.

(** The container [Open] builds around a record. *)
Definition container (path : string) (d : FileData) (dc : DublinCore) : DOCX :=
  {| FilePath := path; DublinCore_ := dc; FileData_ := d |}.

(** What [Save] writes for a member of the source archive. *)
Definition saved_member (core : string) (f : zip.File) : zip.File :=
  if String.eqb (zip.Name f) corePropertiesPath
  then zip.stored corePropertiesPath core
  else f.

(** A member other than the metadata entry. *)
Definition other (f : zip.File) : bool :=
  negb (String.eqb (zip.Name f) corePropertiesPath).

(** A member can be read to its end. *)
Definition readable (f : zip.File) : Prop :=
  exists data,
    zip.Open f = zip.Opened {| zip.delivered := data; zip.failure := None |}.

(** The path [Save] writes to. *)
Definition destination (d : DOCX) (outputPath : string) : string :=
  if String.eqb outputPath "" then FilePath d else outputPath.

(** Two worlds with the same files, the same permissions and the same
    clock; they may differ in how often the clock has been read. *)
Definition same_store (w w' : World) : Prop :=
  clock w' = clock w /\ files w' = files w /\ creatable w' = creatable w.

(** [strings.Contains] *)
Definition Contains (s substr : string) : bool :=
  negb (strings.Index s substr =? -1).

(** The error that keeps [copyZipFile] from copying a member, if any: the
    member cannot be opened, or reading it stops with an error. *)
Definition copy_error (f : zip.File) : option string :=
  match zip.Open f with
  | zip.Opened rc => zip.failure rc
  | zip.NotOpened e => Some e
  end.

(** What a copy that fails leaves in the archive: nothing when the member
    could not be opened, else a member with the bytes delivered before the
    error. *)
Definition partial_copy (f : zip.File) : list zip.File :=
  match zip.Open f with
  | zip.Opened rc => [zip.stored (zip.Name f) (zip.delivered rc)]
  | zip.NotOpened _ => []
  end.

(** The number of offsets at which [sub] occurs in [s]. *)
Fixpoint occurrences (s sub : string) : nat :=
  ((if strings.HasPrefix s sub then 1 else 0)
   + match s with
     | EmptyString => 0
     | String _ s' => occurrences s' sub
     end)%nat.

(** Two records that agree on every field but, possibly, the date. *)
Definition same_but_date (a b : DublinCore) : Prop :=
  forall f, f <> FDate -> get f a = get f b.

(** Two calls that end the same way: with results that [R] relates, with
    the same error, with the same panic, or never. *)
Definition alike {A : Type} (R : A -> A -> Prop) (x y : outcome A) : Prop :=
  match x, y with
  | Ok a, Ok b => R a b
  | Err e, Err e' => e = e'
  | Panic m, Panic m' => m = m'
  | Diverges, Diverges => True
  | _, _ => False
  end.

(** Two containers for the same path and bytes whose records agree but
    for the date. *)
Definition same_document (a b : DOCX) : Prop :=
  FilePath a = FilePath b /\ FileData_ a = FileData_ b
  /\ same_but_date (DublinCore_ a) (DublinCore_ b).

End docx.

(** ** Package textinput

    The text input of the form, of the bubbles library.  Of the widget the
    form uses [SetValue], [Value] and the field [CharLimit].  The widget
    keeps its value as characters ([[]rune]); [SetValue] keeps the first
    [CharLimit] characters when the limit is positive and the text is
    longer.  The model gives the bytes [Value] returns after [SetValue] for
    text that is valid UTF-8 without control characters. *)

Module textinput.





End textinput.

(** ** Package ui

    The form is an interactive program; what the codec sees of it is how it
    ends: cancelled, or submitted with some text in each of the four inputs.
    A [session] is that ending; the text typed is whatever the user made
    it. *)

Module ui.
Import dublincore.

(** [m.inputs[i].Value()] at the time the form is submitted. *)
Record inputs : Type := {
  title_input : string;
  creator_input : string;
  keywords_input : string;
  description_input : string
}.

Definition title_placeholder : string := "e.g., Senior Backend Developer".
Definition creator_placeholder : string :=
  "e.g., João Silva, Maria Santos".
Definition keywords_placeholder : string :=
  "e.g., Go, Backend, Microservices, PHP".
Definition description_placeholder : string :=
  "e.g., Experienced backend developer with 6+ years in technology".

Definition filled (value placeholder : string) : bool :=
  negb (String.eqb value "") && negb (String.eqb value placeholder).

(** The loop over [strings.Split(input, ",")] that keeps the trimmed,
    non-empty pieces. *)
Definition pieces (input : string) : list string :=
  filter (fun s => negb (String.eqb s ""))
    (map strings.TrimSpace (strings.Split input ",")).

Definition updateDublinCoreFromInputs (m : inputs) (dc : DublinCore)
  : DublinCore :=
  let titleInput := strings.TrimSpace (title_input m) in
  let dc1 :=
    if filled titleInput title_placeholder then SetTitle titleInput dc
    else dc in
  let creatorsInput := strings.TrimSpace (creator_input m) in
  let dc2 :=
    if filled creatorsInput creator_placeholder
    then set FCreator (pieces creatorsInput) dc1 else dc1 in
  let keywordsInput := strings.TrimSpace (keywords_input m) in
  let dc3 :=
    if filled keywordsInput keywords_placeholder
    then set FKeywords (pieces keywordsInput) dc2 else dc2 in
  let descriptionInput := strings.TrimSpace (description_input m) in
  let dc4 :=
    if filled descriptionInput description_placeholder
    then SetDescription descriptionInput dc3 else dc3 in
  SetCategory dc4.

Inductive session : Type :=
| Submitted (m : inputs)     (* Enter on the submit button: [m.done] *)
| Cancelled                  (* Esc or Ctrl-C: [m.cancelled] *)
| Ended                      (* the program ended with neither flag set *)
| Broken (e : string).       (* [p.Run()] returned an error *)

(** [RunEditor]: the record handed back and the [cancelled] flag.  The
    form works on the record it was given, through the pointer. *)
Definition RunEditor (dc : DublinCore) (s : session)
  : outcome (DublinCore * bool) :=
  match s with
  | Submitted m => Ok (updateDublinCoreFromInputs m dc, false)
  | Cancelled => Ok (dc, true)
  | Ended => Ok (dc, false)
  | Broken e => Err e
  end.




(** An input the form passes over: empty once trimmed, or the
    placeholder. *)
Definition blank (value placeholder : string) : bool :=
  negb (filled (strings.TrimSpace value) placeholder).

(** *** The keys of the form

    [Update] tells the keys apart by [msg.String()].  Of the model it
    assigns [focused], [done] and [cancelled] itself; the text of the inputs
    is kept by the text widgets, which see the keys [Update] passes on. *)
Inductive key : Type :=
| KeyCancel                  (* "ctrl+c", "esc" *)
| KeyNext                    (* "tab", "down" *)
| KeyPrevious                (* "shift+tab", "up" *)
| KeyEnter                   (* "enter" *)
| KeyOther.                  (* any other key: passed on to the inputs *)

Record model : Type := {
  focused : Z;
  done : bool;
  cancelled : bool
}.

(** [len(m.inputs)] *)
Definition n_inputs : Z := 4.

(** [initialModel]: the zero values. *)
Definition initialModel : model :=
  {| focused := 0; done := false; cancelled := false |}.

(** [Update] on a key: the model and whether the command is [tea.Quit]. *)
Definition Update (k : key) (m : model) : model * bool :=
  let cycle (f : Z) : Z :=
    if f >? n_inputs then 0 else if f <? 0 then n_inputs else f in
  match k with
  | KeyCancel =>
      ({| focused := focused m; done := done m; cancelled := true |}, true)
  | KeyPrevious =>
      ({| focused := cycle (focused m - 1); done := done m;
          cancelled := cancelled m |}, false)
  | KeyNext =>
      ({| focused := cycle (focused m + 1); done := done m;
          cancelled := cancelled m |}, false)
  | KeyEnter =>
      if focused m =? n_inputs
      then ({| focused := focused m; done := true;
               cancelled := cancelled m |}, true)
      else (m, false)
  | KeyOther => (m, false)
  end.

(** The model after a sequence of keys, each handled whether or not an
    earlier one asked to quit. *)
Definition after_keys (keys : list key) (m : model) : model :=
  fold_left (fun m k => fst (Update k m)) keys m.

End ui.

(** ** Package editor: the edit command

    What is printed on the terminal is left out. *)

Module editor.
Import dublincore.

Definition differ (a b : list string) (sep : string) : bool :=
  negb (String.eqb (strings.Join a sep) (strings.Join b sep)).

Definition hasChanges (original updated : DublinCore) : bool :=
  if differ (Title original) (Title updated) "|" then true
  else if differ (Creator original) (Creator updated) "|" then true
  else if differ (Keywords original) (Keywords updated) "|" then true
  else if differ (Description original) (Description updated) "|" then true
  else false.

Definition hasRealChanges (original updated : DublinCore) : bool :=
  if differ (Title original) (Title updated) "," then true
  else if differ (Creator original) (Creator updated) "," then true
  else if differ (Keywords original) (Keywords updated) "," then true
  else if differ (Description original) (Description updated) "," then true
  else false.

Definition createBackup (src dst : string) (w : World)
  : outcome unit * World :=
  match os.ReadFile src w with
  | Ok input => os.WriteFile dst input w
  | Err e => (Err e, w)
  | Panic m => (Panic m, w)
  | Diverges => (Diverges, w)
  end.

(** The copy of the record [editWithTUI] keeps for the comparison: five
    slices copied into an otherwise empty record. *)
Definition snapshot (dc : DublinCore) : DublinCore :=
  set FCategory (Category dc)
    (set FDescription (Description dc)
       (set FKeywords (Keywords dc)
          (set FCreator (Creator dc)
             (set FTitle (Title dc) (zero no_name))))).

Definition editWithTUI (filePath outputPath : string) (s : ui.session)
  (w : World) : outcome unit * World :=
  match docx.Open filePath w with
  | (Ok doc, w1) =>
      let originalDC := snapshot (docx.DublinCore_ doc) in
      match ui.RunEditor (docx.DublinCore_ doc) s with
      | Ok (updatedDC, cancelled) =>
          if cancelled then (Ok tt, w1)
          else if negb (hasChanges originalDC updatedDC) then (Ok tt, w1)
          else
            let doc' :=
              {| docx.FilePath := docx.FilePath doc;
                 docx.DublinCore_ := updatedDC;
                 docx.FileData_ := docx.FileData_ doc |} in
            let save (outputPath : string) (w2 : World) :=
              match docx.Save doc' outputPath w2 with
              | (Err e, w3) => (Err (wrap "failed to save DOCX file" e), w3)
              | other => other
              end in
            if String.eqb outputPath "" then
              match createBackup filePath (filePath ++ ".backup") w1 with
              | (Ok _, w2) => save filePath w2
              | (Err e, w2) => (Err (wrap "backup failed" e), w2)
              | other => other
              end
            else save outputPath w1
      | Err e => (Err (wrap "TUI editor failed" e), w1)
      | Panic m => (Panic m, w1)
      | Diverges => (Diverges, w1)
      end
  | (Err e, w1) => (Err (wrap "failed to open DOCX file" e), w1)
  | (Panic m, w1) => (Panic m, w1)
  | (Diverges, w1) => (Diverges, w1)
  end.

(** Values the comparison keeps apart: none is empty, none holds the
    bar. *)
Definition barless (values : list string) : bool :=
  forallb
    (fun s => negb (String.eqb s "") && (strings.Index s "|" =? -1))
    values.

End editor.

(** ** Package editor: the view and debug commands

    What they print is left out; [filePath] is the value of the [file]
    flag. *)

Module viewer.

(** [stat] is what [os.Stat(filePath)] answered.  Only the not-exist
    error is turned into an error; with any other answer the command goes
    on. *)
Definition validateFileExists (filePath : string) (stat : os.StatResult)
  : outcome unit :=
  if os.IsNotExist stat then Err ("file does not exist: " ++ filePath)
  else Ok tt.

Definition viewMetadata (filePath : string) (stat : os.StatResult)
  (w : World) : outcome unit * World :=
  match validateFileExists filePath stat with
  | Ok _ =>
      match docx.Open filePath w with
      | (Ok _, w1) => (Ok tt, w1)
      | (Err e, w1) => (Err (wrap "failed to open DOCX file" e), w1)
      | (Panic m, w1) => (Panic m, w1)
      | (Diverges, w1) => (Diverges, w1)
      end
  | Err e => (Err e, w)
  | Panic m => (Panic m, w)
  | Diverges => (Diverges, w)
  end.

Fixpoint findZipFile (reader : list zip.File) (name : string)
  : outcome zip.File :=
  match reader with
  | [] => Err ("file not found: " ++ name)
  | file :: rest =>
      if String.eqb (zip.Name file) name then Ok file
      else findZipFile rest name
  end.

Definition readZipFile (file : zip.File) : outcome string :=
  match zip.Open file with
  | zip.Opened rc => zip.ReadAll rc
  | zip.NotOpened e => Err e
  end.

Definition debugDOCX (filePath : string) (stat : os.StatResult)
  (w : World) : outcome unit * World :=
  match validateFileExists filePath stat with
  | Ok _ =>
      match os.ReadFile filePath w with
      | Ok fileData =>
          match NewReader fileData with
          | Ok reader =>
              match findZipFile reader "docProps/core.xml" with
              | Ok coreFile =>
                  match readZipFile coreFile with
                  | Ok _ =>
                      match docx.Open filePath w with
                      | (Ok _, w1) => (Ok tt, w1)
                      | (Err e, w1) =>
                          (Err (wrap "failed to open with docx parser" e), w1)
                      | (Panic m, w1) => (Panic m, w1)
                      | (Diverges, w1) => (Diverges, w1)
                      end
                  | Err e => (Err (wrap "failed to read core.xml" e), w)
                  | Panic m => (Panic m, w)
                  | Diverges => (Diverges, w)
                  end
              | Err e => (Err (wrap "core.xml not found" e), w)
              | Panic m => (Panic m, w)
              | Diverges => (Diverges, w)
              end
          | Err e => (Err (wrap "failed to create zip reader" e), w)
          | Panic m => (Panic m, w)
          | Diverges => (Diverges, w)
          end
      | Err e => (Err (wrap "failed to open file" e), w)
      | Panic m => (Panic m, w)
      | Diverges => (Diverges, w)
      end
  | Err e => (Err e, w)
  | Panic m => (Panic m, w)
  | Diverges => (Diverges, w)
  end.

End viewer.


(** ** Sample data

    Concrete worlds and documents on which the statements below are
    exercised. *)

Module samples.
Import dublincore.

Definition core_old : string :=
  "<coreProperties><dc:title>Old</dc:title></coreProperties>".

(** Entries with unprefixed tags. *)
Definition core_title : string :=
  "<coreProperties><title>T</title></coreProperties>".

Definition core_plain : string :=
  "<coreProperties><title>Senior &amp; Lead &lt;dev&gt;</title>"
  ++ "<creator>Ana</creator><creator>Rui</creator></coreProperties>".

Definition core_subject : string :=
  "<coreProperties><subject>a&amp;b</subject></coreProperties>".

(** An entry with [cp:]-prefixed tags only, the title holding an
    ampersand. *)
Definition cp_only_items : list (docx.pfield * string) :=
  [(docx.PTitle, "A & B"); (docx.PCreator, "Ana"); (docx.PSubject, "S");
   (docx.PDescription, "D"); (docx.PKeywords, "go")].

Definition cp_only : string := docx.cp_entry cp_only_items.

(** The same kind of entry as an application lays it out: an XML
    declaration, each element on a line of its own, an element the decoder
    does not know, a comment, and a description written in two pieces, the
    second a CDATA section. *)
Definition cp_laid_out : string :=
  docx.header ++ docx.cp_root_start ++ nl
  ++ "  <cp:title>A</cp:title>" ++ nl
  ++ "  <cp:revision>3</cp:revision>" ++ nl
  ++ "  <!-- c --><cp:subject>S</cp:subject>" ++ nl
  ++ "  <cp:description>D <![CDATA[& E]]></cp:description>" ++ nl
  ++ "</cp:coreProperties>" ++ nl.

Definition cp_laid_out_parts : list docx.part :=
  [docx.Between (xml.CharData (nl ++ "  "));
   docx.Item docx.PTitle [] [xml.CharData "A"];
   docx.Between (xml.CharData (nl ++ "  "));
   docx.Other {| xml.Space := "cp"; xml.Local := "revision" |} []
     [xml.CharData "3"];
   docx.Between (xml.CharData (nl ++ "  "));
   docx.Between xml.Comment;
   docx.Item docx.PSubject [] [xml.CharData "S"];
   docx.Between (xml.CharData (nl ++ "  "));
   docx.Item docx.PDescription [] [xml.CharData "D "; xml.CharData "& E"];
   docx.Between (xml.CharData nl)].

Definition description_only : string :=
  "<coreProperties><description>Only</description></coreProperties>".

(** A metadata entry with two subjects after some text, and no title,
    creator, keywords or description. *)
Definition stray_subjects : string :=
  "<coreProperties>x<subject>A</subject><subject>B</subject>"
  ++ "</coreProperties>".

(** A metadata entry with one creator, whose name holds a bar, and a
    category of its own. *)
Definition core_bar : string :=
  "<coreProperties><dc:creator>a|b</dc:creator>"
  ++ "<cp:category>other</cp:category></coreProperties>".

(** The form submitted with the creators retyped as a list of two. *)
Definition retyped : ui.session :=
  ui.Submitted {| ui.title_input := ""; ui.creator_input := "a, b";
                  ui.keywords_input := ""; ui.description_input := "" |}.

Definition document_xml : zip.File :=
  zip.stored "word/document.xml" "<w:document><w:body/></w:document>".

Definition content_types : zip.File :=
  zip.stored "[Content_Types].xml" "<Types/>".

Definition archive_with (core : string) : list zip.File :=
  [content_types; zip.stored docx.corePropertiesPath core; document_xml].

Definition archive_without_core : list zip.File :=
  [content_types; document_xml].

Definition clock_2024 (n : nat) : string :=
  match n with
  | O => "2024-05-01T10:00:00Z"
  | 1%nat => "2024-05-01T10:00:01Z"
  | _ => "2024-05-01T10:00:02Z"
  end.

(** A world with one file, [cv.docx], and every path writable. *)
Definition world_with (d : FileData) : World :=
  {| clock := clock_2024; ticks := O;
     files := fun p => if String.eqb p "cv.docx" then Some d else None;
     creatable := fun _ => true |}.

(** A record as the form leaves it: a new title, the fixed category. *)
Definition new_role : DublinCore :=
  SetCategory (SetTitle "New Role" (default "t")).

(** A record that holds a description and none of title, creator and
    keywords. *)
Definition described : DublinCore :=
  SetDescription "Only" (default "t").

(** A picture whose bytes fail the checksum after three of them have been
    delivered, and an archive that holds it between two sound members. *)
Definition broken_picture : zip.File :=
  {| zip.Name := "word/media/image1.png";
     zip.Open := zip.Opened {| zip.delivered := "PNG";
                               zip.failure := Some "zip: checksum error" |} |}.

Definition archive_broken : list zip.File :=
  [content_types; broken_picture; document_xml].

(** A metadata entry stored with a compression method [archive/zip] does
    not know. *)
Definition sealed_core : zip.File :=
  {| zip.Name := docx.corePropertiesPath;
     zip.Open := zip.NotOpened "zip: unsupported compression algorithm" |}.

(** The form submitted with a new title and nothing else, and with nothing
    at all. *)
Definition titled : ui.inputs :=
  {| ui.title_input := " New Role "; ui.creator_input := "";
     ui.keywords_input := ""; ui.description_input := "" |}.

Definition untouched : ui.inputs :=
  {| ui.title_input := ""; ui.creator_input := "  ";
     ui.keywords_input := ""; ui.description_input := "" |}.

(** A record with two creators, a keyword, a title and a description,
    every one of them trimmed. *)
Definition tidy : DublinCore :=
  set FDescription ["Backend developer"]
    (set FKeywords ["go"]
       (set FCreator ["Ana Lima"; "Rui"]
          (set FTitle ["Engineer"] (default "t")))).

(** The world of [world_with] in which no backup can be written. *)
Definition world_without_backup (d : FileData) : World :=
  {| clock := clock_2024; ticks := O;
     files := fun p => if String.eqb p "cv.docx" then Some d else None;
     creatable := fun p => negb (String.eqb p "cv.docx.backup") |}.

End samples.

(** * Properties *)

(** ** Strings *)

Module string_facts.

Lemma append_assoc (a b c : string) : (a ++ b) ++ c = a ++ b ++ c.
Proof. induction a as [|x a IH]; simpl; [reflexivity | now rewrite IH]. Qed.

Lemma append_nil_r (a : string) : a ++ "" = a.
Proof. induction a as [|x a IH]; simpl; [reflexivity | now rewrite IH]. Qed.

Lemma length_append (a b : string) :
  String.length (a ++ b) = (String.length a + String.length b)%nat.
Proof. induction a as [|x a IH]; simpl; [reflexivity | now rewrite IH]. Qed.

End string_facts.

(** ** The XML decoder on what the encoder writes *)

Module xml_facts.
Import string_facts xml.

Lemma run_app (s1 s2 : string) (st : lexstate) :
  run st (s1 ++ s2)
  = let (st1, out1) := run st s1 in
    let (st2, out2) := run st1 s2 in (st2, (out1 ++ out2)%list).
Proof.
  revert st. induction s1 as [|c s1 IH]; intros st; simpl.
  - destruct (run st s2). reflexivity.
  - destruct (step st c) as [st1 o1]. rewrite IH.
    destruct (run st1 s1) as [st2 o2]. destruct (run st2 s2) as [st3 o3].
    now rewrite app_assoc.
Qed.


Lemma decode_ascii c0 s' : (code c0 <? 128)%N = true ->
  utf8.DecodeRuneInString (String c0 s') = (code c0, 1%nat).
Proof. intros H. unfold utf8.DecodeRuneInString. now rewrite H. Qed.


Local Ltac euclid := Z.to_euclidean_division_equations; lia.

Lemma high_range lo hi c : (128 <= lo)%N -> in_range lo hi c = true -> high c = true.
Proof.
  unfold in_range, high. intros H1 H2.
  apply andb_true_iff in H2. destruct H2 as [H2 _].
  apply N.leb_le in H2. apply N.leb_le. lia.
Qed.

Lemma cont_high c : utf8.cont c = true -> high c = true.
Proof. apply high_range. lia. Qed.

Lemma lead_cases b0 n lo hi :
  utf8.lead b0 = Some (n, lo, hi) ->
  (128 <= lo)%N /\ (hi <= 191)%N
  /\ ((n = 2%nat /\ 194 <= b0 <= 223)%N
      \/ (n = 3%nat /\ (224 < b0 <= 239 \/ b0 = 224 /\ lo = 160))%N
      \/ (n = 4%nat /\ (240 < b0 <= 244 \/ b0 = 240 /\ lo = 144))%N).
Proof.
  unfold utf8.lead.
  repeat match goal with
         | |- (if ?b then _ else _) = _ -> _ => destruct b eqn:?
         end; intros H; inversion H; subst; clear H;
    repeat match goal with
           | H : (_ && _)%bool = true |- _ => apply andb_true_iff in H; destruct H
           | H : (_ && _)%bool = false |- _ => apply andb_false_iff in H
           | H : (_ <=? _)%N = true |- _ => apply N.leb_le in H
           | H : (_ <=? _)%N = false |- _ => apply N.leb_gt in H
           | H : (_ =? _)%N = true |- _ => apply N.eqb_eq in H
           | H : (_ =? _)%N = false |- _ => apply N.eqb_neq in H
           end; lia.
Qed.

Lemma decode_multi c0 s' r w :
  (code c0 <? 128)%N = false ->
  utf8.DecodeRuneInString (String c0 s') = (r, w) ->
  (r = utf8.RuneError /\ w = 1%nat)
  \/ (exists pre rest, s' = pre ++ rest /\ S (String.length pre) = w
       /\ highs pre = true /\ (128 <= r)%N
       /\ forall t, utf8.DecodeRuneInString (String c0 (pre ++ t)) = (r, w)).
Proof.
  intros Hhi. unfold utf8.DecodeRuneInString. rewrite Hhi.
  destruct (utf8.lead (code c0)) as [[[n lo] hi]|] eqn:Hlead.
  2:{ intros H; inversion H; auto. }
  destruct (lead_cases _ _ _ _ Hlead) as (Hlo & Hhi' & Hn).
  destruct Hn as [[-> Hb] | [[-> Hb] | [-> Hb]]].
  - destruct s' as [|c1 s1]; [intros H; inversion H; auto|].
    destruct (in_range lo hi c1) eqn:H1; intros H; inversion H; subst; auto.
    right. exists (String c1 ""), s1.
    split; [reflexivity|]. split; [reflexivity|].
    split; [unfold highs; cbn [all_bytes];
            now rewrite (high_range _ _ _ Hlo H1)|].
    split.
    + zify; euclid.
    + intros t. cbn [append]. now rewrite H1.
  - destruct s' as [|c1 [|c2 s2]]; try (intros H; inversion H; auto; fail).
    destruct (in_range lo hi c1) eqn:H1; simpl;
      [|intros H; inversion H; auto].
    destruct (utf8.cont c2) eqn:H2; intros H; inversion H; subst; auto.
    right. exists (String c1 (String c2 "")), s2.
    split; [reflexivity|]. split; [reflexivity|].
    split; [unfold highs; cbn [all_bytes];
            now rewrite (high_range _ _ _ Hlo H1), (cont_high _ H2)|].
    split.
    + unfold in_range in H1. apply andb_true_iff in H1.
      destruct H1 as [H1 H1']. apply N.leb_le in H1, H1'.
      zify; euclid.
    + intros t. cbn [append]. now rewrite H1, H2.
  - destruct s' as [|c1 [|c2 [|c3 s3]]]; try (intros H; inversion H; auto; fail).
    destruct (in_range lo hi c1) eqn:H1; simpl;
      [|intros H; inversion H; auto].
    destruct (utf8.cont c2) eqn:H2; simpl; [|intros H; inversion H; auto].
    destruct (utf8.cont c3) eqn:H3; intros H; inversion H; subst; auto.
    right. exists (String c1 (String c2 (String c3 ""))), s3.
    split; [reflexivity|]. split; [reflexivity|].
    split; [unfold highs; cbn [all_bytes];
            now rewrite (high_range _ _ _ Hlo H1), (cont_high _ H2),
              (cont_high _ H3)|].
    split.
    + unfold in_range in H1. apply andb_true_iff in H1.
      destruct H1 as [H1 H1']. apply N.leb_le in H1, H1'.
      zify; euclid.
    + intros t. cbn [append]. now rewrite H1, H2, H3.
Qed.


(** *** Valid character data *)

Lemma valid_from_app (a b : string) :
  valid_text b = true ->
  forall k, (k <= String.length a)%nat -> valid_from k a = true ->
  valid_from k (a ++ b) = true.
Proof.
  intros Hb. induction a as [|c a IH]; intros k Hk Ha.
  - simpl in Hk. assert (k = O) by lia. subst. exact Hb.
  - destruct k as [|k].
    + cbn [append valid_from] in *.
      destruct (utf8.DecodeRuneInString (String c a)) as [r w] eqn:Hd.
      destruct (code c <? 128)%N eqn:Hc.
      * rewrite decode_ascii in Hd by assumption. inversion Hd; subst.
        rewrite decode_ascii by assumption.
        destruct ((code c =? utf8.RuneError)%N && (1 =? 1)%nat); [discriminate|].
        destruct (isInCharacterRange (code c)); [|discriminate].
        apply IH; [simpl; lia | assumption].
      * destruct (decode_multi _ _ _ _ Hc Hd)
          as [[-> ->] | (pre & rest & -> & Hw & _ & _ & Happ)].
        { simpl in Ha. discriminate. }
        rewrite append_assoc, Happ.
        destruct ((r =? utf8.RuneError)%N && (w =? 1)%nat); [discriminate|].
        destruct (isInCharacterRange r); [|discriminate].
        rewrite <- append_assoc. apply IH; [|assumption].
        rewrite length_append. lia.
    + cbn [append valid_from] in *. apply IH; [simpl in Hk; lia | assumption].
Qed.

Lemma valid_text_app (a b : string) :
  valid_text a = true -> valid_text b = true -> valid_text (a ++ b) = true.
Proof.
  intros Ha Hb. apply valid_from_app; [assumption | lia | assumption].
Qed.


(** *** The lexer on escaped text *)

Lemma closes_cdata_other b0 b1 c :
  byte_is c 62 = false -> closes_cdata b0 b1 c = false.
Proof. intros H. unfold closes_cdata. rewrite H. apply andb_false_r. Qed.


Lemma step_text_plain buf b0 b1 c :
  plain c = true ->
  step (Text buf b0 b1) c = (Text (buf ++ String c "") b1 c, []).
Proof.
  unfold plain. rewrite negb_true_iff, !orb_false_iff.
  intros ((((H1 & H2) & H3) & H4) & H5).
  unfold step, put, snoc.
  rewrite (closes_cdata_other _ _ _ H3), H1, H2, H4, H5.
  now rewrite andb_false_r.
Qed.

Lemma high_plain c : high c = true -> plain c = true.
Proof.
  unfold high, plain, byte_is. intros H. apply N.leb_le in H.
  rewrite negb_true_iff, !orb_false_iff.
  repeat split; apply N.eqb_neq; lia.
Qed.

Lemma code_byte_of c n : code c = n -> c = byte_of n.
Proof. intros <-. unfold code, byte_of. now rewrite ascii_N_embedding. Qed.

Lemma escape_of_cases r e :
  escape_of r = Some e ->
  (r = 34 \/ r = 39 \/ r = 38 \/ r = 60 \/ r = 62 \/ r = 9 \/ r = 10 \/ r = 13)%N.
Proof.
  unfold escape_of.
  repeat match goal with
         | |- (if ?b then _ else _) = _ -> _ =>
             let E := fresh in destruct b eqn:E;
             [apply N.eqb_eq in E; subst; tauto|]
         end.
  discriminate.
Qed.

Lemma escape_of_none_plain c :
  escape_of (code c) = None -> plain c = true.
Proof.
  unfold escape_of, plain, byte_is.
  repeat match goal with
         | |- (if ?b then _ else _) = _ -> _ =>
             let E := fresh in destruct b eqn:E; [discriminate|]
         end.
  intros _.
  repeat match goal with H : (_ =? _)%N = false |- _ => rewrite H end.
  reflexivity.
Qed.

Lemma escape_of_high r : (128 <= r)%N -> escape_of r = None.
Proof.
  intros H. unfold escape_of.
  repeat match goal with
         | |- (if ?b then _ else _) = _ =>
             let E := fresh in destruct b eqn:E;
             [apply N.eqb_eq in E; lia|]
         end.
  reflexivity.
Qed.

Lemma run_reference buf b0 b1 c e :
  escape_of (code c) = Some e ->
  run (Text buf b0 b1) e = (Text (buf ++ String c "") NUL NUL, []).
Proof.
  intros H. pose proof (escape_of_cases _ _ H) as Hc.
  assert (Hstart : forall rest,
             run (Text buf b0 b1) (String "&" rest) = 
             let (st, o) := run (TextEnt buf "") rest in (st, o)).
  { intros rest. cbn [run]. unfold step at 1.
    rewrite closes_cdata_other by reflexivity.
    change (byte_is "&" 60) with false. change (byte_is "&" 38) with true.
    cbn iota. destruct (run (TextEnt buf "") rest). reflexivity. }
  destruct Hc as [Hc|[Hc|[Hc|[Hc|[Hc|[Hc|[Hc|Hc]]]]]]];
    rewrite Hc in H; inversion H; subst e;
    rewrite (code_byte_of _ _ Hc); rewrite Hstart; reflexivity.
Qed.


Lemma run_escape (v : string) :
  forall k buf b0 b1,
    highs_prefix k v -> valid_from k v = true ->
    exists b0' b1',
      run (Text buf b0 b1) (escape_from k true v)
      = (Text (buf ++ v) b0' b1', []).
Proof.
  induction v as [|c v IH]; intros k buf b0 b1 Hp Hv.
  - exists b0, b1. destruct k; simpl; now rewrite append_nil_r.
  - assert (Hraw : forall k',
               plain c = true -> highs_prefix k' v -> valid_from k' v = true ->
               exists b0' b1',
                 run (Text buf b0 b1) (String c (escape_from k' true v))
                 = (Text (buf ++ String c v) b0' b1', [])).
    { intros k' Hc Hp' Hv'. cbn [run]. rewrite step_text_plain by assumption.
      destruct (IH k' (buf ++ String c "") b1 c Hp' Hv') as (x & y & E).
      rewrite E. exists x, y. rewrite append_assoc. reflexivity. }
    destruct k as [|k].
    + cbn [valid_from escape_from] in *.
      destruct (utf8.DecodeRuneInString (String c v)) as [r w] eqn:Hd.
      destruct (code c <? 128)%N eqn:Hc.
      * rewrite decode_ascii in Hd by assumption. inversion Hd; subst r w.
        destruct ((code c =? utf8.RuneError)%N && (1 =? 1)%nat) eqn:E1;
          [discriminate|].
        destruct (isInCharacterRange (code c)) eqn:E2; [|discriminate].
        cbn [negb orb Nat.sub] in *.
        destruct (escape_of (code c)) as [e|] eqn:He.
        -- rewrite run_app, (run_reference buf b0 b1 c e He).
           destruct (IH O (buf ++ String c "") NUL NUL) as (x & y & E);
             [reflexivity | assumption |].
           rewrite E. exists x, y. rewrite append_assoc. reflexivity.
        -- apply Hraw; [now apply escape_of_none_plain | reflexivity
                        | assumption].
      * destruct (decode_multi _ _ _ _ Hc Hd)
          as [[-> ->] | (pre & rest & -> & Hw & Hh & Hr & _)].
        { simpl in Hv. discriminate. }
        rewrite (escape_of_high _ Hr).
        destruct ((r =? utf8.RuneError)%N && (w =? 1)%nat) eqn:E1;
          [discriminate|].
        destruct (isInCharacterRange r) eqn:E2; [|discriminate].
        cbn [negb orb].
        apply Hraw; [| |assumption].
        -- apply high_plain. unfold high. apply N.leb_le.
           apply N.ltb_ge in Hc. exact Hc.
        -- subst w. cbn [Nat.sub]. rewrite Nat.sub_0_r.
           unfold highs_prefix.
           assert (Ht : strings.take (String.length pre) (pre ++ rest) = pre).
           { clear. induction pre as [|x p IHp]; simpl;
               [now destruct rest | now rewrite IHp]. }
           now rewrite Ht.
    + cbn [valid_from escape_from] in *.
      unfold highs_prefix in Hp. cbn [strings.take] in Hp.
      unfold highs in Hp. cbn [all_bytes] in Hp.
      apply andb_true_iff in Hp. destruct Hp as [Hc Hp].
      apply Hraw; [now apply high_plain | exact Hp | assumption].
Qed.

Lemma run_EscapeString (v buf : string) (b0 b1 : ascii) :
  valid_text v = true ->
  exists b0' b1',
    run (Text buf b0 b1) (EscapeString v) = (Text (buf ++ v) b0' b1', []).
Proof. intros H. apply run_escape; [reflexivity | exact H]. Qed.

(** *** Character data of a document is valid *)

Lemma step_ok (st : lexstate) (c : ascii) : Forall token_ok (snd (step st c)).
Proof.
  destruct st; cbn [step];
    unfold attrs_step, attr_eq_step, end_space_step, pi_space_step,
      pi_body_step, fail, foreign;
    repeat match goal with
           | |- context [if ?b then _ else _] => destruct b eqn:?
           | |- context [match ?x with _ => _ end] => destruct x eqn:?
           end;
    cbn [snd]; repeat constructor; assumption.
Qed.

Lemma finish_ok (st : lexstate) : Forall token_ok (finish st).
Proof.
  destruct st; cbn [finish];
    repeat match goal with
           | |- context [if ?b then _ else _] => destruct b eqn:?
           end;
    repeat constructor; assumption.
Qed.

Lemma run_ok (s : string) (st : lexstate) : Forall token_ok (snd (run st s)).
Proof.
  revert st. induction s as [|c s IH]; intros st; cbn [run].
  - constructor.
  - pose proof (step_ok st c) as H1.
    destruct (step st c) as [st1 o1]. specialize (IH st1).
    destruct (run st1 s) as [st2 o2]. cbn [snd] in *.
    apply Forall_app. split; assumption.
Qed.

Lemma tokens_ok (s : string) : Forall token_ok (tokens s).
Proof.
  unfold tokens. pose proof (run_ok s boundary) as H.
  destruct (run boundary s) as [st o]. cbn [snd] in H.
  apply Forall_app. split; [assumption | apply finish_ok].
Qed.

Section FillInvariant.
Variables R F : Type.
Variable lookup : Name -> option F.
Variable store : F -> string -> R -> R.
Variable P : R -> Prop.
Hypothesis store_P :
  forall f v r, valid_text v = true -> P r -> P (store f v r).

Lemma fill_invariant (root : Name) (env : ns_env) (toks : list Token) :
  Forall token_ok toks ->
  forall p r r',
    place_ok p -> P r ->
    fill R F lookup store root env p r toks = Ok r' -> P r'.
Proof.
  induction 1 as [|tok toks Htok Htoks IH]; intros p r r' Hp Hr.
  - discriminate.
  - cbn [fill]. destruct tok; try discriminate.
    + (* StartElement *)
      destruct p.
      * destruct (lookup _); apply IH; simpl; auto.
      * apply IH; auto.
      * apply IH; auto.
    + (* EndElement *)
      destruct p as [|f acc [|top stk]|[|top stk]]; try discriminate.
      * destruct (name_eqb root name); [|discriminate].
        intros H; inversion H; subst; assumption.
      * destruct (name_eqb top name); [|discriminate].
        destruct stk; apply IH; simpl; auto.
      * destruct (name_eqb top name); [|discriminate].
        destruct stk; apply IH; simpl; auto.
    + (* CharData *)
      destruct p as [|f acc [|x [|y stk]]|]; try (apply IH; now auto).
      apply IH; auto. simpl. apply valid_text_app; assumption.
    + apply IH; auto.
    + apply IH; auto.
Qed.

Lemma find_root_ok (toks : list Token) n a rest :
  Forall token_ok toks ->
  find_root toks = Ok (n, a, rest) -> Forall token_ok rest.
Proof.
  induction 1 as [|tok toks Htok Htoks IH]; [discriminate|].
  cbn [find_root]. destruct tok; try discriminate; try exact IH.
  intros H; inversion H; subst; assumption.
Qed.

Lemma Unmarshal_invariant root_error zero data r :
  (forall n, P (zero n)) ->
  Unmarshal R F lookup store root_error zero data = Ok r -> P r.
Proof.
  intros Hz. unfold Unmarshal.
  destruct (find_root (tokens data)) as [[[n a] rest]| | |] eqn:Hf;
    try discriminate.
  cbn [bind]. destruct (root_error _); [discriminate|].
  apply fill_invariant; auto.
  - eapply find_root_ok; [apply tokens_ok | exact Hf].
  - exact I.
Qed.

End FillInvariant.

Lemma run_element (lead tag : string) (n : Name) (v : string) :
  reads_as lead tag n -> valid_text v = true ->
  run boundary (element lead tag v) = (boundary, element_tokens lead n v).
Proof.
  intros [H1 H2] Hv. unfold element.
  replace (lead ++ "<" ++ tag ++ ">" ++ EscapeString v ++ "</" ++ tag ++ ">")
    with ((lead ++ "<" ++ tag ++ ">") ++ EscapeString v
          ++ String "<" ("/" ++ tag ++ ">")).
  2:{ rewrite !append_assoc. reflexivity. }
  rewrite run_app, H1.
  destruct (run_EscapeString v "" NUL NUL Hv) as (b0 & b1 & E).
  fold boundary in E. rewrite run_app, E. cbn [run].
  unfold step at 1. rewrite closes_cdata_other by reflexivity.
  change (byte_is "<" 60) with true. cbn iota.
  change ("" ++ v) with v.
  unfold element_tokens, chardata.
  destruct (String.eqb v "") eqn:Ev.
  - rewrite H2, <- !app_assoc. reflexivity.
  - rewrite Hv, H2, <- !app_assoc. reflexivity.
Qed.

Lemma run_elements (lead tag : string) (n : Name) (vs : list string) :
  reads_as lead tag n -> all_valid vs ->
  run boundary (elements lead tag vs)
  = (boundary, concat (map (element_tokens lead n) (omitempty vs))).
Proof.
  intros Hr. induction 1 as [|v vs Hv Hvs IH]; [reflexivity|].
  cbn [elements omitempty filter].
  destruct (String.eqb v ""); cbn [negb]; [exact IH|].
  fold (omitempty vs). cbn [map concat].
  rewrite run_app, (run_element _ _ _ _ Hr Hv), IH.
  reflexivity.
Qed.

Section FillElements.
Variables R F : Type.
Variable lookup : Name -> option F.
Variable store : F -> string -> R -> R.

Lemma fill_chardata root env (r : R) s rest :
  fill R F lookup store root env Children r (chardata s ++ rest)
  = fill R F lookup store root env Children r rest.
Proof. unfold chardata. destruct (String.eqb s ""); reflexivity. Qed.

Lemma fill_element root env (r : R) lead n f v rest :
  lookup (translate env n) = Some f ->
  fill R F lookup store root env Children r (element_tokens lead n v ++ rest)
  = fill R F lookup store root env Children (store f v r) rest.
Proof.
  intros Hl. unfold element_tokens. rewrite <- !app_assoc.
  rewrite fill_chardata. cbn [app fill ns_bind]. rewrite Hl.
  unfold chardata. destruct (String.eqb v "") eqn:Ev.
  - apply String.eqb_eq in Ev. subst v. cbn [app fill].
    unfold name_eqb. rewrite !String.eqb_refl. reflexivity.
  - cbn [app fill append].
    unfold name_eqb. rewrite !String.eqb_refl. reflexivity.
Qed.

Lemma fill_elements root env lead n f vs : 
  lookup (translate env n) = Some f ->
  forall (r : R) rest,
  fill R F lookup store root env Children r
    (concat (map (element_tokens lead n) vs) ++ rest)
  = fill R F lookup store root env Children
      (fold_left (fun r v => store f v r) vs r) rest.
Proof.
  intros Hl. induction vs as [|v vs IH]; intros r rest; [reflexivity|].
  cbn [map concat fold_left]. rewrite <- app_assoc.
  rewrite (fill_element _ _ _ _ _ _ _ _ Hl). apply IH.
Qed.

End FillElements.

End xml_facts.

(** ** The metadata record *)

Module dublincore_facts.
Import dublincore.

Lemma get_set_same (f : field) (v : list string) (dc : DublinCore) :
  get f (set f v dc) = v.
Proof. destruct f; reflexivity. Qed.

Lemma get_set_other (f g : field) (v : list string) (dc : DublinCore) :
  field_eqb g f = false -> get g (set f v dc) = get g dc.
Proof. destruct f, g; simpl; intros H; try reflexivity; discriminate H. Qed.

Lemma Category_call (m : mutation) (dc : DublinCore) :
  Category (call m dc) =
  if is_SetCategory m then ["curriculo"] else Category dc.
Proof. destruct m; reflexivity. Qed.

Lemma Category_calls (ms : list mutation) (dc : DublinCore) :
  Category (calls ms dc) =
  if existsb is_SetCategory ms then ["curriculo"] else Category dc.
Proof.
  revert dc. induction ms as [|m ms IH]; intros dc; simpl.
  - reflexivity.
  - unfold calls in *. simpl. rewrite IH, Category_call.
    destruct (is_SetCategory m); simpl; [|reflexivity].
    destruct (existsb is_SetCategory ms); reflexivity.
Qed.

Lemma SetCategory_idempotent (dc : DublinCore) :
  SetCategory (SetCategory dc) = SetCategory dc.
Proof. reflexivity. Qed.

Lemma iter_SetCategory (n : nat) (dc : DublinCore) :
  Nat.iter (S n) SetCategory dc = SetCategory dc.
Proof.
  induction n as [|n IH]; [reflexivity|].
  change (Nat.iter (S (S n)) SetCategory dc)
    with (SetCategory (Nat.iter (S n) SetCategory dc)).
  rewrite IH. apply SetCategory_idempotent.
Qed.

Lemma count_SetCategory_exists (ms : list mutation) :
  (1 <= count_SetCategory ms)%nat -> existsb is_SetCategory ms = true.
Proof.
  unfold count_SetCategory. induction ms as [|m ms IH]; simpl.
  - lia.
  - destruct (is_SetCategory m); simpl; auto.
Qed.

(** C9.  [SetCategory] is idempotent and wins.  Whatever the record, a
    sequence of calls of the mutation API that calls [SetCategory] [n >= 1]
    times, interleaved in any way with the other calls, leaves the category
    equal to exactly ["curriculo"]; so does the sequence followed by one more
    [SetCategory]; and [n] calls in a row give the same record as one. *)
Theorem SetCategory_wins (dc : DublinCore) (ms : list mutation) (n : nat) :
  (1 <= n)%nat ->
  count_SetCategory ms = n ->
  Category (calls ms dc) = ["curriculo"]
  /\ Category (calls (ms ++ [CallSetCategory]) dc) = ["curriculo"]
  /\ Nat.iter n SetCategory dc = SetCategory dc
  /\ Category (Nat.iter n SetCategory dc) = ["curriculo"].
Proof.
  intros Hn Hc. subst n.
  repeat split.
  - rewrite Category_calls, count_SetCategory_exists; auto.
  - rewrite Category_calls, existsb_app. simpl.
    rewrite orb_true_r. reflexivity.
  - destruct (count_SetCategory ms); [lia|]. apply iter_SetCategory.
  - destruct (count_SetCategory ms); [lia|]. rewrite iter_SetCategory.
    reflexivity.
Qed.

Lemma SetCategory_wins_witness :
  Category
    (calls [CallSetCategory; CallSetTitle "New Role"; CallAddKeyword "go";
            CallSetCategory; CallAddCreator "Ana"]
       (set FCategory ["other"] (default "2024-05-01T10:00:00Z")))
  = ["curriculo"].
Proof.
  refine (proj1 (SetCategory_wins _ _ 2%nat _ _)); [lia | reflexivity].
Defined.

End dublincore_facts.

(** ** The container codec: opening *)

Module docx_facts.
Import dublincore docx.

Lemma same_store_refl (w : World) : same_store w w.
Proof. repeat split. Qed.

Lemma same_store_tick (w : World) : same_store w (time.tick w).
Proof. repeat split. Qed.

Lemma same_store_trans (a b c : World) :
  same_store a b -> same_store b c -> same_store a c.
Proof.
  intros (H1 & H2 & H3) (K1 & K2 & K3).
  repeat split; congruence.
Qed.

Lemma New_eq (w : World) : New w = (default (time.reading w), time.tick w).
Proof. reflexivity. Qed.

Lemma parseCoreXMLAlternative_store (data : string) (w : World) :
  same_store w (snd (parseCoreXMLAlternative data w)).
Proof. unfold parseCoreXMLAlternative. simpl. apply same_store_tick. Qed.

Lemma parseCoreXML_store (data : string) (w : World) :
  same_store w (snd (parseCoreXML data w)).
Proof.
  unfold parseCoreXML.
  destruct (Unmarshal_coreProps data); try apply same_store_refl.
  rewrite New_eq.
  match goal with |- context [if ?b then _ else _] => destruct b end.
  - apply same_store_tick.
  - eapply same_store_trans; [apply same_store_tick|].
    apply parseCoreXMLAlternative_store.
Qed.

Lemma extractDublinCore_store (data : string) (w : World) :
  same_store w (snd (extractDublinCore data w)).
Proof.
  unfold extractDublinCore.
  pose proof (parseCoreXML_store data w) as H.
  destruct (parseCoreXML data w) as [[dc|e|m|] w']; simpl in *; auto.
  - match goal with |- context [if ?b then _ else _] => destruct b end;
      [assumption|].
    destruct (FromXML data); assumption.
  - destruct (FromXML data); assumption.
Qed.

Lemma findFile_spec (members : list zip.File) (name : string) :
  (exists f, findFile members name = Ok f /\ In f members
             /\ zip.Name f = name)
  \/ (findFile members name = Err ("file not found: " ++ name)
      /\ forall f, In f members -> zip.Name f <> name).
Proof.
  induction members as [|f ms IH]; simpl.
  - right. split; [reflexivity|]. intros f [].
  - destruct (String.eqb (zip.Name f) name) eqn:E.
    + left. exists f. apply String.eqb_eq in E. auto.
    + apply String.eqb_neq in E.
      destruct IH as [(g & H1 & H2 & H3) | (H1 & H2)].
      * left. exists g. auto.
      * right. split; [assumption|].
        intros g [<- | Hg]; auto.
Qed.

Lemma readZipFile_cases (f : zip.File) :
  (exists data, readZipFile f = Ok data) \/ (exists e, readZipFile f = Err e).
Proof.
  unfold readZipFile, zip.ReadAll.
  destruct (zip.Open f) as [rc|e]; [|right; eauto].
  destruct (zip.failure rc); [right|left]; eauto.
Qed.

(** C5.  Opening a valid archive that has no member named
    [docProps/core.xml] succeeds, and the record of the container is the
    default one: the date is the reading of the clock at that moment, the
    format the DOCX MIME type, the category ["curriculo"]. *)
Theorem Open_without_core_properties
  (w : World) (path : string) (members : list zip.File) :
  files w path = Some (Zip members) ->
  (forall f, In f members -> zip.Name f <> corePropertiesPath) ->
  Open path w
  = (Ok (container path (Zip members) (default (time.reading w))),
     time.tick w)
  /\ Date (default (time.reading w)) = [time.reading w]
  /\ Format (default (time.reading w)) = [docx_mime]
  /\ Category (default (time.reading w)) = ["curriculo"].
Proof.
  intros Hfile Hnone. split; [|repeat split].
  unfold Open, os.ReadFile. rewrite Hfile. simpl.
  destruct (findFile_spec members corePropertiesPath)
    as [(f & _ & Hin & Hname) | (Hnf & _)].
  - exfalso. exact (Hnone f Hin Hname).
  - rewrite Hnf. reflexivity.
Qed.

Lemma Open_without_core_properties_witness :
  fst (Open "cv.docx" (samples.world_with (Zip samples.archive_without_core)))
  = Ok (container "cv.docx" (Zip samples.archive_without_core)
          (default "2024-05-01T10:00:00Z")).
Proof.
  refine (f_equal fst
            (proj1 (Open_without_core_properties
                      (samples.world_with (Zip samples.archive_without_core))
                      "cv.docx" samples.archive_without_core _ _))).
  - reflexivity.
  - intros f Hin. simpl in Hin.
    destruct Hin as [<- | [<- | []]]; discriminate.
Defined.

(** C6.  A file whose bytes are not a zip archive is not opened: [Open]
    returns the error of the zip reader, wrapped, and no container; it has
    not even built a record by then (the clock has not been read). *)
Theorem Open_rejects_non_zip (w : World) (path bytes : string) :
  files w path = Some (NotZip bytes) ->
  Open path w
  = (Err "failed to create zip reader: zip: not a valid zip file", w).
Proof.
  intros Hfile. unfold Open, os.ReadFile. rewrite Hfile. reflexivity.
Qed.

Lemma Open_rejects_non_zip_witness :
  Open "cv.docx" (samples.world_with (NotZip "{\rtf1 not a docx}"))
  = (Err "failed to create zip reader: zip: not a valid zip file",
     samples.world_with (NotZip "{\rtf1 not a docx}")).
Proof.
  apply (Open_rejects_non_zip _ _ "{\rtf1 not a docx}"). reflexivity.
Defined.

(** The strategies of [extractDublinCore] are exhausted exactly when the
    last one, the plain Dublin Core decode, fails after the first one gave an
    error or a record with no title, creator or keywords. *)
Lemma extractDublinCore_fails (data e : string) (w w' : World) :
  extractDublinCore data w = (Err e, w') ->
  FromXML data = Err e
  /\ ((exists e1, parseCoreXML data w = (Err e1, w'))
      \/ (exists dc, parseCoreXML data w = (Ok dc, w')
                     /\ Title dc = [] /\ Creator dc = []
                     /\ Keywords dc = [])).
Proof.
  unfold extractDublinCore.
  destruct (parseCoreXML data w) as [[dc|e1|m|] w1]; try discriminate.
  - destruct (Title dc) eqn:HT; simpl; [|discriminate].
    destruct (Creator dc) eqn:HC; simpl; [|discriminate].
    destruct (Keywords dc) eqn:HK; simpl; [|discriminate].
    destruct (FromXML data); intros H; inversion H; subst.
    split; [reflexivity|]. right. exists dc. auto.
  - destruct (FromXML data); intros H; inversion H; subst.
    split; [reflexivity|]. left. eauto.
Qed.

(** Whatever the metadata entry holds, [Open] does not return an error for
    an archive: no decode error reaches its caller. *)
Lemma Open_archive_no_error
  (w : World) (path : string) (members : list zip.File) (e : string) :
  files w path = Some (Zip members) -> fst (Open path w) <> Err e.
Proof.
  intros Hfile. unfold Open, os.ReadFile. rewrite Hfile. simpl.
  destruct (findFile_spec members corePropertiesPath)
    as [(f & Hf & _) | (Hnf & _)].
  - rewrite Hf.
    destruct (readZipFile_cases f) as [(data & Hd) | (e1 & He)].
    + rewrite Hd.
      destruct (extractDublinCore data (time.tick w)) as [[dc|e2|m|] w2];
        simpl; discriminate.
    + rewrite He. simpl. discriminate.
  - rewrite Hnf. simpl. discriminate.
Qed.

Lemma extractDublinCore_stray_subjects (w : World) :
  extractDublinCore samples.stray_subjects w
  = (Panic "slice bounds out of range", time.tick (time.tick w)).
Proof.
  unfold extractDublinCore, parseCoreXML.
  let decoded := eval vm_compute in
                   (Unmarshal_coreProps samples.stray_subjects) in
  replace (Unmarshal_coreProps samples.stray_subjects) with decoded
    by (vm_compute; reflexivity).
  rewrite New_eq.
  replace (usable (map_properties _ (default (time.reading w))))
    with false by reflexivity.
  unfold parseCoreXMLAlternative. rewrite New_eq.
  replace (scan_tags samples.stray_subjects possibleTags
             (default (time.reading (time.tick w))))
    with (@Panic DublinCore "slice bounds out of range")
    by (vm_compute; reflexivity).
  reflexivity.
Qed.

(** C4.  [Open] recovers from an error of the decoder, and not from a
    panic in it.  When the metadata entry is there and can be read and
    [extractDublinCore] returns an error, [Open] succeeds, and the record of
    the container is the default record, built from the reading of the clock
    at the start of [Open]; [Open] hands no decode error to its caller.  But
    when the decoder panics, so does [Open]: nothing in it recovers.  And the
    decoder does panic: on the entry [samples.stray_subjects], in which the
    strict decode finds two subjects and no title, creator, keywords or
    description, the substring fallback takes the second subject at the
    wrong offset and slices with bounds out of range. *)
Theorem Open_aborts_when_the_fallback_panics
  (w : World) (path : string) (members : list zip.File)
  (coreFile : zip.File) :
  files w path = Some (Zip members) ->
  findFile members corePropertiesPath = Ok coreFile ->
  (forall coreData e w',
     readZipFile coreFile = Ok coreData ->
     extractDublinCore coreData (time.tick w) = (Err e, w') ->
     Open path w
     = (Ok (container path (Zip members) (default (time.reading w))), w'))
  /\ (forall e0, fst (Open path w) <> Err e0)
  /\ (forall coreData m w',
        readZipFile coreFile = Ok coreData ->
        extractDublinCore coreData (time.tick w) = (Panic m, w') ->
        Open path w = (Panic m, w'))
  /\ (readZipFile coreFile = Ok samples.stray_subjects ->
      Open path w
      = (Panic "slice bounds out of range",
         time.tick (time.tick (time.tick w)))).
Proof.
  intros Hfile Hfind.
  assert (Hpanic : forall coreData m w',
            readZipFile coreFile = Ok coreData ->
            extractDublinCore coreData (time.tick w) = (Panic m, w') ->
            Open path w = (Panic m, w')).
  { intros coreData m w' Hread Hp.
    unfold Open, os.ReadFile. rewrite Hfile. simpl.
    rewrite Hfind, Hread, Hp. reflexivity. }
  split; [|split; [|split]].
  - intros coreData e w' Hread Hfail.
    unfold Open, os.ReadFile. rewrite Hfile. simpl.
    rewrite Hfind, Hread, Hfail. reflexivity.
  - intros e0. eapply Open_archive_no_error; eassumption.
  - exact Hpanic.
  - intros Hread.
    apply (Hpanic samples.stray_subjects _ _ Hread).
    apply extractDublinCore_stray_subjects.
Qed.

Lemma Open_aborts_when_the_fallback_panics_witness :
  fst (Open "cv.docx"
         (samples.world_with
            (Zip (samples.archive_with samples.stray_subjects))))
  = Panic "slice bounds out of range".
Proof.
  refine (f_equal fst
            (proj2 (proj2 (proj2
               (Open_aborts_when_the_fallback_panics
                  (samples.world_with
                     (Zip (samples.archive_with samples.stray_subjects)))
                  "cv.docx" (samples.archive_with samples.stray_subjects)
                  (zip.stored corePropertiesPath samples.stray_subjects)
                  _ _))) _));
    reflexivity.
Defined.

(** ** The container codec: saving *)

Lemma writeCoreProperties_eq (d : DOCX) (zw : zip.Writer) :
  writeCoreProperties d zw
  = (Ok tt, (corePropertiesPath, core_xml (DublinCore_ d)) :: zw).
Proof. reflexivity. Qed.

Lemma copy_all_readable (d : DOCX) (members : list zip.File) :
  (forall f, In f members -> other f = true -> readable f) ->
  forall zw,
    exists zw',
      copy_all d zw members = (Ok tt, zw')
      /\ zip.Close zw'
         = (zip.Close zw ++ map (saved_member (core_xml (DublinCore_ d))) members)%list.
Proof.
  induction members as [|f ms IH]; intros Hr zw.
  - exists zw. simpl. split; [reflexivity|]. now rewrite app_nil_r.
  - cbn [copy_all map]. unfold saved_member at 1.
    destruct (String.eqb (zip.Name f) corePropertiesPath) eqn:E.
    + rewrite writeCoreProperties_eq.
      destruct (IH (fun g Hg => Hr g (or_intror Hg))
                   ((corePropertiesPath, core_xml (DublinCore_ d)) :: zw))
        as (zw' & H1 & H2).
      exists zw'. split; [assumption|]. rewrite H2.
      unfold zip.Close. simpl. rewrite map_app, <- app_assoc. reflexivity.
    + destruct (Hr f (or_introl eq_refl)) as (data & Hopen).
      { unfold other. now rewrite E. }
      unfold copyZipFile. rewrite Hopen. simpl.
      destruct (IH (fun g Hg => Hr g (or_intror Hg))
                   ((zip.Name f, data) :: zw))
        as (zw' & H1 & H2).
      exists zw'. split; [assumption|]. rewrite H2.
      unfold zip.Close. simpl. rewrite map_app, <- app_assoc. simpl.
      do 2 f_equal. unfold zip.stored. destruct f as [name op].
      simpl in *. now rewrite Hopen.
Qed.

Lemma filter_other_saved (core : string) (members : list zip.File) :
  filter other (map (saved_member core) members) = filter other members.
Proof.
  induction members as [|f ms IH]; [reflexivity|].
  cbn [map filter]. rewrite IH.
  assert (H : other (saved_member core f) = other f).
  { unfold other, saved_member.
    destruct (String.eqb (zip.Name f) corePropertiesPath) eqn:E;
      [reflexivity | now rewrite E]. }
  rewrite H. destruct (other f) eqn:E; [|reflexivity].
  unfold saved_member. unfold other in E.
  destruct (String.eqb (zip.Name f) corePropertiesPath);
    [discriminate | reflexivity].
Qed.

Lemma Name_saved_member (core : string) (f : zip.File) :
  zip.Name (saved_member core f) = zip.Name f.
Proof.
  unfold saved_member.
  destruct (String.eqb (zip.Name f) corePropertiesPath) eqn:E;
    [|reflexivity].
  apply String.eqb_eq in E. now rewrite E.
Qed.

(** What [Save] writes when nothing fails. *)
Lemma Save_writes
  (d : DOCX) (outputPath : string) (w : World) (members : list zip.File) :
  FileData_ d = Zip members ->
  creatable w (destination d outputPath) = true ->
  (forall f, In f members -> other f = true -> readable f) ->
  exists written,
    Save d outputPath w
    = (Ok tt, os.write (destination d outputPath) (Zip written) w)
    /\ written = map (saved_member (core_xml (DublinCore_ d))) members
    /\ List.length written = List.length members
    /\ map zip.Name written = map zip.Name members
    /\ filter other written = filter other members
    /\ (forall i f, nth_error members i = Some f -> other f = true ->
                    nth_error written i = Some f)
    /\ (forall i f, nth_error members i = Some f -> other f = false ->
                    nth_error written i
                    = Some (zip.stored corePropertiesPath (core_xml (DublinCore_ d)))).
Proof.
  intros Hdata Hcreate Hread.
  destruct (copy_all_readable d members Hread zip.NewWriter)
    as (zw & Hcopy & Hclose).
  exists (map (saved_member (core_xml (DublinCore_ d))) members).
  split; [|split; [reflexivity|]].
  - unfold Save. fold (destination d outputPath).
    rewrite Hdata. simpl. rewrite Hcreate, Hcopy, Hclose. reflexivity.
  - split; [apply length_map|].
    split.
    { rewrite map_map. apply map_ext. apply Name_saved_member. }
    split; [apply filter_other_saved|].
    split; intros i f Hnth Hother; rewrite nth_error_map, Hnth; simpl;
      unfold saved_member; unfold other in Hother;
      destruct (String.eqb (zip.Name f) corePropertiesPath);
      simpl in Hother; congruence.
Qed.

(** C1.  [Save] of a container whose archive can be read and whose
    destination can be created writes an archive with the members of the
    source in the same order under the same names; a member other than
    [docProps/core.xml] is the member of the source, byte for byte, at the
    same position, and only the metadata entry is replaced, by the serialized
    record. *)
Theorem Save_preserves_other_entries
  (d : DOCX) (outputPath : string) (w : World) (members : list zip.File) :
  FileData_ d = Zip members ->
  creatable w (destination d outputPath) = true ->
  (forall f, In f members -> other f = true -> readable f) ->
  exists written,
    Save d outputPath w
    = (Ok tt, os.write (destination d outputPath) (Zip written) w)
    /\ written = map (saved_member (core_xml (DublinCore_ d))) members
    /\ List.length written = List.length members
    /\ map zip.Name written = map zip.Name members
    /\ filter other written = filter other members
    /\ (forall i f, nth_error members i = Some f -> other f = true ->
                    nth_error written i = Some f)
    /\ (forall i f, nth_error members i = Some f -> other f = false ->
                    nth_error written i
                    = Some (zip.stored corePropertiesPath (core_xml (DublinCore_ d)))).
Proof. exact (Save_writes d outputPath w members). Qed.

Lemma stored_readable (name data : string) : readable (zip.stored name data).
Proof. exists data. reflexivity. Qed.

Lemma Save_preserves_other_entries_witness :
  exists written,
    fst (Save (container "cv.docx" (Zip (samples.archive_with samples.core_old))
                 (SetCategory (SetTitle "New Role" (default "t"))))
           "out.docx"
           (samples.world_with (Zip (samples.archive_with samples.core_old))))
    = Ok tt
    /\ filter other written = [samples.content_types; samples.document_xml].
Proof.
  destruct (Save_preserves_other_entries
              (container "cv.docx"
                 (Zip (samples.archive_with samples.core_old))
                 (SetCategory (SetTitle "New Role" (default "t"))))
              "out.docx"
              (samples.world_with (Zip (samples.archive_with samples.core_old)))
              (samples.archive_with samples.core_old))
    as (written & Hsave & _ & _ & _ & Hother & _).
  - reflexivity.
  - reflexivity.
  - intros f Hin _. simpl in Hin.
    destruct Hin as [<- | [<- | [<- | []]]]; apply stored_readable.
  - exists written. split.
    + now rewrite Hsave.
    + exact Hother.
Defined.

(** ** The decode strategies *)

(** C7 (what the code does).  On a document that holds a description and
    nothing else, [parseCoreXML] accepts the strict decode and returns the
    description; [extractDublinCore], whose own test leaves the description
    out, drops that record, goes on to the plain Dublin Core decode, which
    fails on the [coreProperties] root, and returns the error; [Open] then
    keeps the default record, in which the description is empty. *)
Lemma description_only_is_discarded (w : World) :
  (exists dc, parseCoreXML samples.description_only w = (Ok dc, time.tick w)
              /\ Description dc = ["Only"])
  /\ extractDublinCore samples.description_only w
     = (Err "expected element type <dc> but have <coreProperties>",
        time.tick w)
  /\ exists doc,
       fst (Open "cv.docx"
              (samples.world_with (Zip (samples.archive_with samples.description_only))))
       = Ok doc
       /\ Description (DublinCore_ doc) = [].
Proof.
  split; [|split].
  - eexists. split; [vm_compute; reflexivity | reflexivity].
  - vm_compute. reflexivity.
  - eexists. split; [vm_compute; reflexivity | reflexivity].
Qed.

(** C2.  The example scenario.  In an archive whose metadata entry is
    exactly [<coreProperties><dc:title>Old</dc:title></coreProperties>],
    [Open] decodes a record with title ["Old"]; after [SetTitle "New Role"]
    and [SetCategory], [Save] writes an archive whose metadata entry contains
    [<dc:title>New Role</dc:title>] and
    [<cp:category>curriculo</cp:category>], every other member being the
    member of the source. *)
Theorem example_scenario
  (w : World) (path outputPath : string) (members : list zip.File)
  (coreFile : zip.File) :
  files w path = Some (Zip members) ->
  findFile members corePropertiesPath = Ok coreFile ->
  readZipFile coreFile = Ok samples.core_old ->
  (forall f, In f members -> other f = true -> readable f) ->
  creatable w (if String.eqb outputPath "" then path else outputPath) = true ->
  exists doc w1 written core,
    Open path w = (Ok doc, w1)
    /\ Title (DublinCore_ doc) = ["Old"]
    /\ Save (container path (Zip members)
               (SetCategory (SetTitle "New Role" (DublinCore_ doc))))
          outputPath w1
       = (Ok tt,
          os.write (if String.eqb outputPath "" then path else outputPath)
            (Zip written) w1)
    /\ written = map (saved_member core) members
    /\ Contains core "<dc:title>New Role</dc:title>" = true
    /\ Contains core "<cp:category>curriculo</cp:category>" = true
    /\ filter other written = filter other members.
Proof.
  intros Hfile Hfind Hread Hothers Hcreate.
  set (dc := set FTitle ["Old"] (default (time.reading (time.tick w)))).
  assert (Hopen : Open path w
                  = (Ok (container path (Zip members) dc),
                     time.tick (time.tick w))).
  { unfold Open, os.ReadFile. rewrite Hfile. simpl.
    rewrite Hfind, Hread. reflexivity. }
  destruct (Save_writes
              (container path (Zip members)
                 (SetCategory (SetTitle "New Role" dc)))
              outputPath (time.tick (time.tick w)) members)
    as (written & Hsave & Hwritten & _ & _ & Hfilter & _);
    [reflexivity | exact Hcreate | exact Hothers |].
  exists (container path (Zip members) dc), (time.tick (time.tick w)),
    written, (core_xml (SetCategory (SetTitle "New Role" dc))).
  split; [exact Hopen|].
  split; [reflexivity|].
  split; [exact Hsave|].
  split; [exact Hwritten|].
  split; [vm_compute; reflexivity|].
  split; [vm_compute; reflexivity|].
  exact Hfilter.
Qed.

Lemma example_scenario_witness :
  exists doc written,
    fst (Open "cv.docx"
           (samples.world_with (Zip (samples.archive_with samples.core_old))))
    = Ok doc
    /\ Title (DublinCore_ doc) = ["Old"]
    /\ filter other written = [samples.content_types; samples.document_xml].
Proof.
  destruct (example_scenario
              (samples.world_with (Zip (samples.archive_with samples.core_old)))
              "cv.docx" "" (samples.archive_with samples.core_old)
              (zip.stored corePropertiesPath samples.core_old))
    as (doc & w1 & written & core & Hopen & Htitle & _ & _ & _ & _ & Hother).
  - reflexivity.
  - reflexivity.
  - reflexivity.
  - intros f Hin _. simpl in Hin.
    destruct Hin as [<- | [<- | [<- | []]]]; apply stored_readable.
  - reflexivity.
  - exists doc, written. split; [now rewrite Hopen|]. split; assumption.
Defined.

End docx_facts.

(** ** The edit flow *)

Module editor_facts.
Import dublincore docx editor.

Lemma differ_false (a b : list string) (sep : string) :
  differ a b sep = false <-> strings.Join a sep = strings.Join b sep.
Proof.
  unfold differ. rewrite negb_false_iff. apply String.eqb_eq.
Qed.

Lemma hasChanges_false (original updated : DublinCore) :
  hasChanges original updated = false
  <-> strings.Join (Title original) "|" = strings.Join (Title updated) "|"
      /\ strings.Join (Creator original) "|"
         = strings.Join (Creator updated) "|"
      /\ strings.Join (Keywords original) "|"
         = strings.Join (Keywords updated) "|"
      /\ strings.Join (Description original) "|"
         = strings.Join (Description updated) "|".
Proof.
  unfold hasChanges. rewrite <- !differ_false.
  destruct (differ (Title original) (Title updated) "|"),
    (differ (Creator original) (Creator updated) "|"),
    (differ (Keywords original) (Keywords updated) "|"),
    (differ (Description original) (Description updated) "|");
    intuition discriminate.
Qed.

Lemma hasRealChanges_false (original updated : DublinCore) :
  hasRealChanges original updated = false
  <-> strings.Join (Title original) "," = strings.Join (Title updated) ","
      /\ strings.Join (Creator original) ","
         = strings.Join (Creator updated) ","
      /\ strings.Join (Keywords original) ","
         = strings.Join (Keywords updated) ","
      /\ strings.Join (Description original) ","
         = strings.Join (Description updated) ",".
Proof.
  unfold hasRealChanges. rewrite <- !differ_false.
  destruct (differ (Title original) (Title updated) ","),
    (differ (Creator original) (Creator updated) ","),
    (differ (Keywords original) (Keywords updated) ","),
    (differ (Description original) (Description updated) ",");
    intuition discriminate.
Qed.

Lemma Open_store (path : string) (w : World) :
  same_store w (snd (Open path w)).
Proof.
  unfold Open.
  destruct (os.ReadFile path w) as [d| | |]; try apply docx_facts.same_store_refl.
  destruct (NewReader d) as [reader| | |];
    try apply docx_facts.same_store_refl.
  rewrite docx_facts.New_eq.
  destruct (findFile reader corePropertiesPath) as [f| | |];
    try apply docx_facts.same_store_tick.
  destruct (readZipFile f) as [data| | |];
    try apply docx_facts.same_store_tick.
  pose proof (docx_facts.extractDublinCore_store data (time.tick w)) as H.
  destruct (extractDublinCore data (time.tick w)) as [[dc| | |] w2];
    simpl in *;
    (eapply docx_facts.same_store_trans;
     [apply docx_facts.same_store_tick | exact H]).
Qed.

(** C10.  The check before the save compares the title, the creators, the
    keywords and the description, each joined into one string (with a bar in
    [hasChanges], with a comma in [hasRealChanges]), and nothing else: the
    subject and the category have no part in it.  So two records that differ
    only in the subject, or whose creators are ["a|b"] and ["a"; "b"], pass
    for unchanged; and whenever the check finds no change between the record
    as opened and the record the form hands back, [editWithTUI] ends without
    a backup and without a save: the files are what they were. *)
Theorem change_detection_blind_spots :
  (forall original updated,
     hasChanges original updated = false
     <-> strings.Join (Title original) "|" = strings.Join (Title updated) "|"
         /\ strings.Join (Creator original) "|"
            = strings.Join (Creator updated) "|"
         /\ strings.Join (Keywords original) "|"
            = strings.Join (Keywords updated) "|"
         /\ strings.Join (Description original) "|"
            = strings.Join (Description updated) "|")
  /\ (forall original updated,
        hasRealChanges original updated = false
        <-> strings.Join (Title original) ","
            = strings.Join (Title updated) ","
            /\ strings.Join (Creator original) ","
               = strings.Join (Creator updated) ","
            /\ strings.Join (Keywords original) ","
               = strings.Join (Keywords updated) ","
            /\ strings.Join (Description original) ","
               = strings.Join (Description updated) ",")
  /\ (forall original updated subject category,
        hasChanges original (set FSubject subject (set FCategory category updated))
        = hasChanges original updated
        /\ hasRealChanges original
             (set FSubject subject (set FCategory category updated))
           = hasRealChanges original updated)
  /\ (exists original updated,
        updated = set FSubject ["other subject"] original
        /\ original <> updated
        /\ hasChanges original updated = false
        /\ hasRealChanges original updated = false)
  /\ (exists original updated,
        Creator original = ["a|b"] /\ Creator updated = ["a"; "b"]
        /\ hasChanges original updated = false)
  /\ (exists original updated,
        Creator original = ["a,b"] /\ Creator updated = ["a"; "b"]
        /\ hasRealChanges original updated = false)
  /\ (forall filePath outputPath s w doc w1 updated,
        Open filePath w = (Ok doc, w1) ->
        ui.RunEditor (DublinCore_ doc) s = Ok (updated, false) ->
        hasChanges (snapshot (DublinCore_ doc)) updated = false ->
        editWithTUI filePath outputPath s w = (Ok tt, w1)
        /\ files w1 = files w).
Proof.
  split; [exact hasChanges_false|].
  split; [exact hasRealChanges_false|].
  split; [intros; split; reflexivity|].
  split.
  { exists (default "t"), (set FSubject ["other subject"] (default "t")).
    repeat split; try reflexivity. discriminate. }
  split.
  { exists (set FCreator ["a|b"] (default "t")),
      (set FCreator ["a"; "b"] (default "t")).
    repeat split. }
  split.
  { exists (set FCreator ["a,b"] (default "t")),
      (set FCreator ["a"; "b"] (default "t")).
    repeat split. }
  intros filePath outputPath s w doc w1 updated Hopen Hrun Hsame.
  split.
  - unfold editWithTUI. rewrite Hopen, Hrun. simpl. rewrite Hsame.
    reflexivity.
  - pose proof (Open_store filePath w) as H. rewrite Hopen in H.
    apply H.
Qed.

(** The flow run on a document whose one creator is [a|b] and whose
    category is [other], the form being submitted with the creators retyped
    as [a, b]: the record handed back has two creators and the category
    [curriculo], yet nothing is written, neither the file nor a backup. *)
Lemma change_detection_blind_spots_witness :
  exists doc w1,
    Open "cv.docx" (samples.world_with (Zip (samples.archive_with samples.core_bar)))
    = (Ok doc, w1)
    /\ Creator (DublinCore_ doc) = ["a|b"]
    /\ Category (DublinCore_ doc) = ["other"]
    /\ Creator (ui.updateDublinCoreFromInputs
                  {| ui.title_input := ""; ui.creator_input := "a, b";
                     ui.keywords_input := ""; ui.description_input := "" |}
                  (DublinCore_ doc)) = ["a"; "b"]
    /\ editWithTUI "cv.docx" "" samples.retyped
         (samples.world_with (Zip (samples.archive_with samples.core_bar)))
       = (Ok tt, w1)
    /\ files w1 "cv.docx" = Some (Zip (samples.archive_with samples.core_bar))
    /\ files w1 "cv.docx.backup" = None.
Proof.
  eexists. eexists.
  split; [vm_compute; reflexivity|].
  split; [reflexivity|].
  split; [reflexivity|].
  split; [vm_compute; reflexivity|].
  split.
  - destruct change_detection_blind_spots as (_ & _ & _ & _ & _ & _ & Hflow).
    refine (proj1 (Hflow "cv.docx" "" samples.retyped
                     (samples.world_with
                        (Zip (samples.archive_with samples.core_bar)))
                     _ _ _ _ _ _)).
    + vm_compute. reflexivity.
    + vm_compute. reflexivity.
    + vm_compute. reflexivity.
  - split; reflexivity.
Defined.

End editor_facts.

(** ** Serializing and decoding again *)

Module roundtrip_facts.
Import string_facts xml xml_facts dublincore docx.

Lemma fold_pstore (f : pfield) (vs : list string) (p : coreProps) :
  fold_left (fun r v => pstore f v r) vs p = pappend f vs p.
Proof.
  revert p. induction vs as [|v vs IH]; intros p.
  - destruct f, p; cbn; now rewrite app_nil_r.
  - cbn [fold_left]. rewrite IH.
    destruct f, p; cbn; now rewrite <- app_assoc.
Qed.

Lemma run_prologue :
  run boundary (header ++ root_start)
  = (boundary,
     [ProcInst "xml"; CharData nl; StartElement root_raw root_attrs]).
Proof. vm_compute. reflexivity. Qed.

Local Ltac reads := split; vm_compute; reflexivity.

Lemma reads_title : reads_as indent "dc:title" {| Space := "dc"; Local := "title" |}.
Proof. reads. Qed.
Lemma reads_creator : reads_as indent "dc:creator" {| Space := "dc"; Local := "creator" |}.
Proof. reads. Qed.
Lemma reads_subject : reads_as indent "dc:subject" {| Space := "dc"; Local := "subject" |}.
Proof. reads. Qed.
Lemma reads_description : reads_as indent "dc:description" {| Space := "dc"; Local := "description" |}.
Proof. reads. Qed.
Lemma reads_keywords : reads_as indent "cp:keywords" {| Space := "cp"; Local := "keywords" |}.
Proof. reads. Qed.
Lemma reads_category : reads_as indent "cp:category" {| Space := "cp"; Local := "category" |}.
Proof. reads. Qed.

Lemma run_tail (body : string) :
  exists pre,
    run boundary ((if String.eqb body "" then "" else nl) ++ "</cp:coreProperties>")
    = (boundary, (chardata pre ++ [EndElement root_raw])%list).
Proof.
  destruct (String.eqb body "").
  - exists "". vm_compute. reflexivity.
  - exists nl. vm_compute. reflexivity.
Qed.

Lemma Unmarshal_marshalled (cp : CoreProperties) :
  valid_properties cp ->
  Unmarshal_coreProps (header ++ marshalled cp) = Ok (decoded cp).
Proof.
  intros (HT & HC & HS & HD & HK & HG).
  unfold Unmarshal_coreProps, Unmarshal, tokens, marshalled, children, docx.elements.
  cbv zeta.
  rewrite <- (append_assoc header root_start).
  rewrite run_app, run_prologue.
  rewrite !append_assoc.
  rewrite run_app, (run_elements _ _ _ _ reads_title HT).
  rewrite run_app, (run_elements _ _ _ _ reads_creator HC).
  rewrite run_app, (run_elements _ _ _ _ reads_subject HS).
  rewrite run_app, (run_elements _ _ _ _ reads_description HD).
  rewrite run_app, (run_elements _ _ _ _ reads_keywords HK).
  rewrite run_app, (run_elements _ _ _ _ reads_category HG).
  match goal with
  | |- context [run boundary ((if String.eqb ?b "" then _ else _) ++ _)] =>
      destruct (run_tail b) as (pre & ->)
  end.
  cbn [finish boundary String.eqb app find_root bind].
  replace (translate (ns_bind [] root_attrs) root_raw) with root_name
    by (vm_compute; reflexivity).
  change (proot_error root_name) with (@None string). cbv iota.
  rewrite app_nil_r.
  rewrite (fill_elements _ _ _ _ _ _ _ _ PTitle) by (vm_compute; reflexivity).
  rewrite (fill_elements _ _ _ _ _ _ _ _ PCreator) by (vm_compute; reflexivity).
  rewrite (fill_elements _ _ _ _ _ _ _ _ PSubject) by (vm_compute; reflexivity).
  rewrite (fill_elements _ _ _ _ _ _ _ _ PDescription)
    by (vm_compute; reflexivity).
  rewrite (fill_elements _ _ _ _ _ _ _ _ PKeywords) by (vm_compute; reflexivity).
  rewrite (fill_elements _ _ _ _ _ _ _ _ PCategory) by (vm_compute; reflexivity).
  rewrite !fold_pstore, fill_chardata.
  reflexivity.
Qed.


Lemma pappend_valid f vs p :
  all_valid vs -> valid_coreProps p -> valid_coreProps (pappend f vs p).
Proof.
  intros Hv (H1 & H2 & H3 & H4 & H5 & H6).
  destruct f; cbn; repeat split; try assumption;
    apply Forall_app; split; assumption.
Qed.

Lemma Unmarshal_coreProps_valid data p :
  Unmarshal_coreProps data = Ok p -> valid_coreProps p.
Proof.
  apply (Unmarshal_invariant _ _ plookup pstore valid_coreProps).
  - intros f v r Hv Hr. apply pappend_valid; [|assumption].
    constructor; [assumption | constructor].
  - intros n. repeat split; constructor.
Qed.

(** The record the strict decode gives, field by field. *)
Lemma map_properties_default (p : coreProps) (now : string) :
  map_properties p (default now)
  = {| XMLName := no_name;
       Title := pTitle p; Creator := pCreator p; Subject := pSubject p;
       Description := pDescription p; Publisher := []; Contributor := [];
       Date := [now]; Type_ := []; Format := [docx_mime]; Identifier := [];
       Source := []; Language := []; Relation := []; Coverage := [];
       Rights := []; Keywords := pKeywords p;
       Category := if nonempty (pCategory p) then pCategory p
                   else ["curriculo"] |}.
Proof.
  unfold map_properties.
  destruct (pTitle p), (pCreator p), (pSubject p), (pDescription p),
    (pKeywords p), (pCategory p); reflexivity.
Qed.

Lemma parseCoreXML_strict data w p :
  Unmarshal_coreProps data = Ok p ->
  usable (map_properties p (default (time.reading w))) = true ->
  parseCoreXML data w
  = (Ok (map_properties p (default (time.reading w))), time.tick w).
Proof.
  intros H1 H2. unfold parseCoreXML. rewrite H1. cbn [New time.Now_RFC3339].
  now rewrite H2.
Qed.

Lemma omitempty_nonempty (l : list string) :
  nonempty (omitempty l) = true -> nonempty l = true.
Proof. destruct l; [discriminate | reflexivity]. Qed.

Lemma omitempty_valid (l : list string) : all_valid l -> all_valid (omitempty l).
Proof.
  unfold all_valid, omitempty. rewrite !Forall_forall.
  intros H v Hv. apply filter_In in Hv as (Hv & _). now apply H.
Qed.

(** C3, as amended.  Take a record [x] that the strict decode of a
    well-formed entry gives, with a title, a creator, a keyword or a
    description that is not the empty string.  Serializing [x] and decoding
    the result, at whatever later time, gives back, for title, creator,
    subject, description, keywords and category, the values of [x] in order
    with the empty strings left out (the encoder writes nothing for an empty
    string), the category ["curriculo"] when none is left; the format is the
    same constant; the date is not serialized: it is the time of the second
    decode.  When no value of [x] is the empty string, nothing but the date
    differs. *)
Theorem strict_roundtrip (data : string) (w w2 : World) (p : coreProps) :
  Unmarshal_coreProps data = Ok p ->
  nonempty (omitempty (pTitle p)) || nonempty (omitempty (pCreator p))
  || nonempty (omitempty (pKeywords p))
  || nonempty (omitempty (pDescription p)) = true ->
  exists x x',
    parseCoreXML data w = (Ok x, time.tick w)
    /\ parseCoreXML (core_xml x) w2 = (Ok x', time.tick w2)
    /\ Title x' = omitempty (Title x) /\ Creator x' = omitempty (Creator x)
    /\ Subject x' = omitempty (Subject x)
    /\ Description x' = omitempty (Description x)
    /\ Keywords x' = omitempty (Keywords x)
    /\ Category x'
       = (if nonempty (omitempty (Category x)) then omitempty (Category x)
          else ["curriculo"])
    /\ Format x' = Format x
    /\ Date x' = [time.reading w2]
    /\ (no_empty_value x -> x' = set FDate [time.reading w2] x).
Proof.
  intros Hp Hu.
  assert (Hu0 : usable (map_properties p (default (time.reading w))) = true).
  { rewrite map_properties_default. unfold usable.
    cbn [Title Creator Keywords Description].
    repeat match type of Hu with
    | _ || _ = true => apply orb_true_iff in Hu as [Hu | Hu]
    end; apply omitempty_nonempty in Hu; rewrite Hu;
      rewrite ?orb_true_r; reflexivity. }
  exists (map_properties p (default (time.reading w))).
  eexists.
  split; [now apply parseCoreXML_strict|].
  destruct (Unmarshal_coreProps_valid _ _ Hp)
    as (H1 & H2 & H3 & H4 & H5 & H6).
  assert (Hv : valid_properties
                 (properties_of
                    (map_properties p (default (time.reading w))))).
  { rewrite map_properties_default.
    repeat split; try assumption. cbn.
    destruct (pCategory p); [repeat constructor | assumption]. }
  split.
  { unfold core_xml.
    apply (parseCoreXML_strict _ _ _ (Unmarshal_marshalled _ Hv)).
    rewrite !map_properties_default. exact Hu. }
  rewrite !map_properties_default.
  cbn [Title Creator Subject Description Keywords Category Format Date
       decoded properties_of pTitle pCreator pSubject pDescription pKeywords
       pCategory cpTitle cpCreator cpSubject cpDescription cpKeywords
       cpCategory].
  do 8 (split; [reflexivity|]).
  intros (E1 & E2 & E3 & E4 & E5 & E6).
  cbn [Title Creator Subject Description Keywords Category] in *.
  rewrite E1, E2, E3, E4, E5, E6.
  destruct (pCategory p); reflexivity.
Qed.

Lemma strict_roundtrip_witness :
  exists x x',
    parseCoreXML samples.core_plain (samples.world_with (NotZip ""))
    = (Ok x, time.tick (samples.world_with (NotZip "")))
    /\ parseCoreXML (core_xml x) (time.tick (samples.world_with (NotZip "")))
       = (Ok x', time.tick (time.tick (samples.world_with (NotZip ""))))
    /\ Title x' = ["Senior & Lead <dev>"] /\ Creator x' = ["Ana"; "Rui"].
Proof.
  destruct (strict_roundtrip samples.core_plain
              (samples.world_with (NotZip ""))
              (time.tick (samples.world_with (NotZip "")))
              {| pXMLName := {| Space := ""; Local := "coreProperties" |};
                 pTitle := ["Senior & Lead <dev>"];
                 pCreator := ["Ana"; "Rui"]; pSubject := [];
                 pDescription := []; pKeywords := []; pCategory := [] |})
    as (x & x' & H1 & H2 & H3 & H4 & _).
  - vm_compute. reflexivity.
  - reflexivity.
  - assert (E : parseCoreXML samples.core_plain
                  (samples.world_with (NotZip ""))
                = (Ok (set FCreator ["Ana"; "Rui"]
                         (set FTitle ["Senior & Lead <dev>"]
                            (default "2024-05-01T10:00:00Z"))),
                   time.tick (samples.world_with (NotZip ""))))
      by (vm_compute; reflexivity).
    rewrite E in H1. inversion H1; subst x.
    exists (set FCreator ["Ana"; "Rui"]
              (set FTitle ["Senior & Lead <dev>"]
                 (default "2024-05-01T10:00:00Z"))), x'.
    split; [exact E|]. split; [exact H2|].
    rewrite H3, H4. split; reflexivity.
Defined.

(** C3, as stated, fails on the date: the record decoded from a title-only
    entry when the clock reads 10:00:00 holds that time as its date; decoded
    again from its own serialization one reading later, it holds 10:00:01. *)
Lemma roundtrip_changes_date :
  exists x w1 x' w2,
    parseCoreXML samples.core_title (samples.world_with (NotZip ""))
    = (Ok x, w1)
    /\ parseCoreXML (core_xml x) w1 = (Ok x', w2)
    /\ Date x = ["2024-05-01T10:00:00Z"]
    /\ Date x' = ["2024-05-01T10:00:01Z"]
    /\ Date x' <> Date x.
Proof.
  do 4 eexists.
  split; [vm_compute; reflexivity|].
  split; [vm_compute; reflexivity|].
  split; [reflexivity|]. split; [reflexivity|]. discriminate.
Qed.

(** Where the first decode goes through the substring fallback (here: a
    subject and nothing else), the value it keeps is the raw text between the
    tags, references and all; written out and decoded again, it comes back
    escaped once more. *)
Lemma fallback_roundtrip_escapes_again :
  exists x w1 x' w2,
    parseCoreXML samples.core_subject (samples.world_with (NotZip ""))
    = (Ok x, w1)
    /\ parseCoreXML (core_xml x) w1 = (Ok x', w2)
    /\ Subject x = ["a&amp;b"]
    /\ Subject x' = ["a&amp;amp;b"].
Proof.
  do 4 eexists.
  split; [vm_compute; reflexivity|].
  split; [vm_compute; reflexivity|].
  split; reflexivity.
Qed.

End roundtrip_facts.

(** ** The loop of extractField *)

Module loop_facts.
Import string_facts dublincore docx.

Lemma index_nat_bound (s sub : string) (n : nat) :
  strings.index_nat s sub = Some n -> (n <= String.length s)%nat.
Proof.
  revert n. induction s as [|c s IH]; intros n; cbn [strings.index_nat].
  - destruct (strings.HasPrefix "" sub); [|discriminate].
    intros H; inversion H; simpl; lia.
  - destruct (strings.HasPrefix (String c s) sub).
    + intros H; inversion H; simpl; lia.
    + destruct (strings.index_nat s sub) as [k|]; [|discriminate].
      intros H; inversion H; subst. specialize (IH k eq_refl). simpl. lia.
Qed.

Lemma Index_range (s sub : string) :
  strings.Index s sub = -1
  \/ 0 <= strings.Index s sub <= strings.len s.
Proof.
  unfold strings.Index, strings.len.
  destruct (strings.index_nat s sub) as [n|] eqn:E; [right | left; reflexivity].
  apply index_nat_bound in E. lia.
Qed.

Lemma length_drop (n : nat) (s : string) :
  String.length (strings.drop n s) = (String.length s - n)%nat.
Proof.
  revert s. induction n as [|n IH]; intros s; [simpl; lia|].
  destruct s as [|c s]; [reflexivity|]. simpl. apply IH.
Qed.

Lemma length_take (n : nat) (s : string) :
  String.length (strings.take n s) = Nat.min n (String.length s).
Proof.
  revert s. induction n as [|n IH]; intros s; [reflexivity|].
  destruct s as [|c s]; [reflexivity|]. simpl. now rewrite IH.
Qed.

Lemma slice_Ok (s : string) (lo hi : Z) (r : string) :
  strings.slice s lo hi = Ok r ->
  0 <= lo <= hi /\ hi <= strings.len s /\ strings.len r = hi - lo.
Proof.
  unfold strings.slice.
  destruct ((0 <=? lo) && (lo <=? hi) && (hi <=? strings.len s)) eqn:E;
    [|discriminate].
  apply andb_true_iff in E. destruct E as [E E3].
  apply andb_true_iff in E. destruct E as [E1 E2].
  apply Z.leb_le in E1, E2, E3.
  intros H; inversion H; subst. repeat split; try lia.
  unfold strings.len in *. rewrite length_take, length_drop. lia.
Qed.

Lemma slice_cases (s : string) (lo hi : Z) :
  (exists r, strings.slice s lo hi = Ok r)
  \/ strings.slice s lo hi = Panic "slice bounds out of range".
Proof.
  unfold strings.slice.
  destruct ((0 <=? lo) && (lo <=? hi) && (hi <=? strings.len s)); eauto.
Qed.

Section Loop.
Variables xmlStr startTag endTag : string.

#[local] Abbreviation turn1 := (turn xmlStr startTag endTag).
#[local] Abbreviation turnsN := (turns xmlStr startTag endTag).

Lemma turn_range (start start' : Z) :
  turn1 start = Some start' -> 0 <= start' <= strings.len xmlStr.
Proof.
  unfold turn, strings.slice_from.
  destruct (strings.slice xmlStr start (strings.len xmlStr)) as [rest| | |] eqn:E1;
    try discriminate.
  destruct (strings.Index rest endTag =? -1) eqn:E2; [discriminate|].
  destruct (strings.slice xmlStr (start + strings.len startTag)
              (start + strings.Index rest endTag)) as [v| | |]; try discriminate.
  destruct (strings.slice xmlStr
              (start + strings.Index rest endTag + strings.len endTag)
              (strings.len xmlStr)) as [rest'| | |] eqn:E3; try discriminate.
  destruct (strings.Index rest' startTag =? -1) eqn:E4; [discriminate|].
  intros H; inversion H; subst; clear H.
  apply slice_Ok in E1, E3. apply Z.eqb_neq in E2, E4.
  destruct (Index_range rest endTag) as [?|?]; [contradiction|].
  destruct (Index_range rest' startTag) as [?|?]; [contradiction|].
  assert (0 <= strings.len endTag) by (unfold strings.len; lia).
  lia.
Qed.

Lemma loop_diverges (fuel : nat) :
  forall start values,
    start <> -1 ->
    (extractField_loop fuel xmlStr startTag endTag start values = Diverges
     <-> turnsN fuel start <> None).
Proof.
  induction fuel as [|fuel IH]; intros start values Hs.
  - cbn [extractField_loop turns].
    destruct (start =? -1) eqn:E; [apply Z.eqb_eq in E; contradiction|].
    split; [discriminate | reflexivity].
  - cbn [extractField_loop turns]. unfold turn, strings.slice_from.
    destruct (start =? -1) eqn:E; [apply Z.eqb_eq in E; contradiction|].
    destruct (slice_cases xmlStr start (strings.len xmlStr)) as [[rest ->] | ->];
      [|cbn [bind]; split; [discriminate | congruence]].
    cbn [bind].
    destruct (strings.Index rest endTag =? -1) eqn:E2;
      [split; [discriminate | congruence]|].
    destruct (slice_cases xmlStr (start + strings.len startTag)
                (start + strings.Index rest endTag)) as [[v ->] | ->];
      [|cbn [bind]; split; [discriminate | congruence]].
    cbn [bind].
    destruct (slice_cases xmlStr
                (start + strings.Index rest endTag + strings.len endTag)
                (strings.len xmlStr)) as [[rest' ->] | ->];
      [|cbn [bind]; split; [discriminate | congruence]].
    cbn [bind].
    destruct (strings.Index rest' startTag =? -1) eqn:E4.
    + destruct fuel; cbn [extractField_loop]; rewrite E4;
        (split; [discriminate | congruence]).
    + apply IH. apply Z.eqb_neq in E2, E4.
      destruct (Index_range rest endTag) as [?|?]; [contradiction|].
      destruct (Index_range rest' startTag) as [?|?]; [contradiction|].
      assert (0 <= strings.len endTag) by (unfold strings.len; lia).
      lia.
Qed.

Lemma turns_add (a b : nat) (start : Z) :
  turnsN (a + b)%nat start
  = match turnsN a start with
    | Some s => turnsN b s
    | None => None
    end.
Proof.
  revert start. induction a as [|a IH]; intros start;
    [reflexivity|].
  cbn [Nat.add turns]. destruct (turn xmlStr startTag endTag start); auto.
Qed.

Lemma turns_prefix (a b : nat) (start : Z) :
  (a <= b)%nat -> turnsN b start <> None -> turnsN a start <> None.
Proof.
  intros Hab Hb. replace b with (a + (b - a))%nat in Hb by lia.
  rewrite turns_add in Hb. destruct (turnsN a start); congruence.
Qed.

Lemma turns_range (n : nat) (start s : Z) :
  turnsN (S n) start = Some s -> 0 <= s <= strings.len xmlStr.
Proof.
  replace (S n) with (n + 1)%nat by lia. rewrite turns_add.
  destruct (turnsN n start) as [a|]; [|discriminate].
  cbn [turns].
  destruct (turn1 a) as [b|] eqn:E; [|discriminate].
  intros H; inversion H; subst. eapply turn_range; eassumption.
Qed.

Lemma repeated_element (l : list nat) :
  ~ NoDup l ->
  exists i j x,
    (i < j)%nat /\ nth_error l i = Some x /\ nth_error l j = Some x.
Proof.
  induction l as [|a l IH]; intros H.
  - exfalso. apply H. constructor.
  - destruct (in_dec Nat.eq_dec a l) as [Hin|Hnin].
    + apply In_nth_error in Hin. destruct Hin as [j Hj].
      exists O, (S j), a. repeat split; [lia | assumption].
    + destruct IH as (i & j & x & Hij & Hi & Hj).
      { intros Hl. apply H. constructor; assumption. }
      exists (S i), (S j), x. repeat split; [lia | assumption | assumption].
Qed.

(** A run of more turns than there are offsets into the text passes
    twice through the same offset, and from there on repeats itself. *)
Lemma turns_forever (start : Z) :
  turnsN (String.length xmlStr + 2) start <> None ->
  forall m, turnsN m start <> None.
Proof.
  set (L := String.length xmlStr). set (N := (L + 2)%nat). intros HN.
  set (g := fun k => match turnsN k start with
                     | Some s => Z.to_nat s
                     | None => O
                     end).
  assert (Hdef : forall k, (k <= N)%nat -> exists s, turnsN k start = Some s).
  { intros k Hk. pose proof (turns_prefix k N start Hk HN) as H.
    destruct (turnsN k start) as [s|]; [eauto | congruence]. }
  assert (Hdup : ~ NoDup (map g (seq 1 N))).
  { intros Hnd.
    assert (Hincl : incl (map g (seq 1 N)) (seq 0 (S L))).
    { intros x Hx. apply in_map_iff in Hx. destruct Hx as (k & <- & Hk).
      apply in_seq in Hk. apply in_seq. unfold g.
      destruct k as [|k]; [lia|].
      destruct (Hdef (S k)) as [s Hs]; [lia|]. rewrite Hs.
      pose proof (turns_range _ _ _ Hs) as Hr.
      unfold strings.len in Hr. fold L in Hr. lia. }
    pose proof (NoDup_incl_length Hnd Hincl) as Hlen.
    rewrite length_map, !length_seq in Hlen. unfold N in Hlen. lia. }
  destruct (repeated_element _ Hdup) as (i & j & x & Hij & Hi & Hj).
  assert (HjN : (j < N)%nat).
  { assert (H : nth_error (map g (seq 1 N)) j <> None) by congruence.
    apply nth_error_Some in H. now rewrite length_map, length_seq in H. }
  rewrite nth_error_map, nth_error_seq in Hi, Hj.
  destruct (Nat.ltb_spec i N) as [_|?]; [|lia].
  destruct (Nat.ltb_spec j N) as [_|?]; [|lia].
  cbn [option_map] in Hi, Hj. unfold g in Hi, Hj.
  destruct (Hdef (1 + i)%nat) as [sa Ha]; [lia|].
  destruct (Hdef (1 + j)%nat) as [sb Hb]; [lia|].
  rewrite Ha in Hi. rewrite Hb in Hj.
  pose proof (turns_range _ _ _ Ha) as Ra.
  pose proof (turns_range _ _ _ Hb) as Rb.
  assert (sa = sb) by (inversion Hi; inversion Hj; lia). subst sb.
  intros m. induction m as [m IH] using lt_wf_ind.
  destruct (Nat.le_gt_cases m (1 + j)) as [Hm|Hm].
  - apply (turns_prefix m N start); [lia | exact HN].
  - replace m with ((1 + j) + (m - (1 + j)))%nat by lia.
    rewrite turns_add, Hb.
    specialize (IH ((1 + i) + (m - (1 + j)))%nat ltac:(lia)).
    rewrite turns_add, Ha in IH. exact IH.
Qed.

End Loop.

(** The fuel of [extractField] is enough: when the loop has not ended after
    as many turns as it is given, no number of turns ends it. *)
Theorem extractField_never_ends (xmlStr tag : string) :
  extractField xmlStr tag = Diverges ->
  forall fuel values,
    extractField_loop fuel xmlStr ("<" ++ tag ++ ">") ("</" ++ tag ++ ">")
      (strings.Index xmlStr ("<" ++ tag ++ ">")) values
    = Diverges.
Proof.
  unfold extractField. intros H fuel values.
  assert (Hs : strings.Index xmlStr ("<" ++ tag ++ ">") <> -1).
  { intros E. rewrite E in H. destruct (String.length xmlStr + 2)%nat;
      discriminate H. }
  apply loop_diverges; [exact Hs|].
  apply turns_forever. apply (loop_diverges _ _ _ _ _ [] Hs). exact H.
Qed.

End loop_facts.

(** ** Prefixed tags and the fallback *)

Module fallback_facts.
Import string_facts xml xml_facts dublincore docx roundtrip_facts.

Local Ltac reads := split; vm_compute; reflexivity.

Lemma reads_cp (f : pfield) : reads_as "" (cp_tag f) (cp_name f).
Proof. destruct f; reads. Qed.

Lemma run_cp_items (items : list (pfield * string)) :
  all_valid (map snd items) ->
  run boundary (cp_items items) = (boundary, concat (map item_tokens items)).
Proof.
  induction items as [|[f v] items IH]; intros Hv; [reflexivity|].
  inversion Hv as [|? ? Hv1 Hv2]; subst.
  cbn [cp_items map concat].
  rewrite run_app, (run_element _ _ _ _ (reads_cp f) Hv1), (IH Hv2).
  reflexivity.
Qed.

Lemma run_cp_root :
  run boundary cp_root_start = (boundary, [StartElement root_raw cp_attrs]).
Proof. vm_compute. reflexivity. Qed.

Lemma plookup_cp (f : pfield) :
  plookup (translate (ns_bind [] cp_attrs) (cp_name f)) = Some f.
Proof. destruct f; vm_compute; reflexivity. Qed.

Lemma fill_cp_items (items : list (pfield * string)) :
  forall r rest,
    fill coreProps pfield plookup pstore root_raw (ns_bind [] cp_attrs)
      Children r (concat (map item_tokens items) ++ rest)
    = fill coreProps pfield plookup pstore root_raw (ns_bind [] cp_attrs)
        Children (fold_left (fun r i => pstore (fst i) (snd i) r) items r) rest.
Proof.
  induction items as [|[f v] items IH]; intros r rest; [reflexivity|].
  cbn [map concat fold_left]. rewrite <- app_assoc. unfold item_tokens at 1.
  rewrite (fill_element _ _ plookup pstore _ _ _ _ _ f) by apply plookup_cp.
  apply IH.
Qed.

Lemma fold_items (items : list (pfield * string)) :
  forall r,
    fold_left (fun r i => pstore (fst i) (snd i) r) items r
    = {| pXMLName := pXMLName r;
         pTitle := pTitle r ++ values_of PTitle items;
         pCreator := pCreator r ++ values_of PCreator items;
         pSubject := pSubject r ++ values_of PSubject items;
         pDescription := pDescription r ++ values_of PDescription items;
         pKeywords := pKeywords r ++ values_of PKeywords items;
         pCategory := pCategory r ++ values_of PCategory items |}.
Proof.
  induction items as [|[f v] items IH]; intros r.
  - destruct r; cbn. now rewrite !app_nil_r.
  - cbn [fold_left]. rewrite IH.
    destruct f, r; cbn; rewrite <- ?app_assoc; reflexivity.
Qed.

Lemma Unmarshal_cp_entry (items : list (pfield * string)) :
  all_valid (map snd items) ->
  Unmarshal_coreProps (cp_entry items)
  = Ok {| pXMLName := root_name;
          pTitle := values_of PTitle items;
          pCreator := values_of PCreator items;
          pSubject := values_of PSubject items;
          pDescription := values_of PDescription items;
          pKeywords := values_of PKeywords items;
          pCategory := values_of PCategory items |}.
Proof.
  intros Hv.
  unfold Unmarshal_coreProps, Unmarshal, tokens, cp_entry.
  rewrite run_app, run_cp_root, run_app, (run_cp_items _ Hv).
  replace (run boundary "</cp:coreProperties>")
    with (boundary, [EndElement root_raw]) by (vm_compute; reflexivity).
  cbn [finish boundary String.eqb app find_root bind].
  replace (translate (ns_bind [] cp_attrs) root_raw) with root_name
    by (vm_compute; reflexivity).
  change (proot_error root_name) with (@None string). cbv iota.
  rewrite app_nil_r, fill_cp_items, fold_items.
  reflexivity.
Qed.

Lemma primary_values (items : list (pfield * string)) :
  existsb (fun i => primary (fst i)) items = true ->
  nonempty (values_of PTitle items) || nonempty (values_of PCreator items)
  || nonempty (values_of PKeywords items)
  || nonempty (values_of PDescription items) = true.
Proof.
  induction items as [|[f v] items IH]; [discriminate|].
  cbn [existsb fst]. destruct f; cbn; auto with bool;
    intros H; specialize (IH H); try exact IH;
    repeat rewrite orb_true_r; reflexivity.
Qed.

Lemma leading_values (items : list (pfield * string)) :
  existsb (fun i => leading (fst i)) items = true ->
  nonempty (values_of PTitle items) || nonempty (values_of PCreator items)
  || nonempty (values_of PKeywords items) = true.
Proof.
  induction items as [|[f v] items IH]; [discriminate|].
  cbn [existsb fst]. destruct f; cbn; auto with bool;
    intros H; specialize (IH H); try exact IH;
    repeat rewrite orb_true_r; reflexivity.
Qed.

Lemma no_leading_values (items : list (pfield * string)) :
  existsb (fun i => leading (fst i)) items = false ->
  nonempty (values_of PTitle items) || nonempty (values_of PCreator items)
  || nonempty (values_of PKeywords items) = false.
Proof.
  induction items as [|[f v] items IH]; [reflexivity|].
  cbn [existsb fst]. destruct f; cbn; try discriminate; exact IH.
Qed.

(** *** The substring fallback *)

Lemma get_assign (f : field) (tag : string) (vs : list string) (dc : DublinCore) :
  get f (assign tag vs dc)
  = if spells f tag then (if nonempty vs then vs else get f dc) else get f dc.
Proof.
  unfold assign, spells.
  destruct (nonempty vs); [|now destruct (field_of_tag tag) as [g|];
                              [destruct (field_eqb f g)|]].
  destruct (field_of_tag tag) as [g|]; [|reflexivity].
  destruct (field_eqb f g) eqn:E.
  - assert (f = g) by (destruct f, g; try discriminate; reflexivity).
    subst. apply dublincore_facts.get_set_same.
  - apply dublincore_facts.get_set_other. exact E.
Qed.

Lemma scan_tags_last_match (data : string) (f : field) (tags : list string) :
  forall dc0 dc,
    scan_tags data tags dc0 = Ok dc ->
    get f dc = last_match data (filter (spells f) tags) (get f dc0).
Proof.
  induction tags as [|tag tags IH]; intros dc0 dc H.
  - inversion H. reflexivity.
  - cbn [scan_tags] in H.
    destruct (extractField data tag) as [vs| | |] eqn:E; try discriminate.
    cbn [bind] in H. rewrite (IH _ _ H), get_assign. cbn [filter].
    destruct (spells f tag); [|reflexivity].
    unfold last_match. cbn [fold_left]. rewrite E. reflexivity.
Qed.

(** *** A [cp:]-prefixed entry in any layout *)

Lemma Local_translate (env : ns_env) (n : Name) :
  Local (translate env n) = Local n.
Proof.
  unfold translate.
  destruct (String.eqb (Space n) "xmlns"); [reflexivity|].
  destruct (String.eqb (Space n) "xml"); [reflexivity|].
  destruct (String.eqb (Space n) "" && String.eqb (Local n) "xmlns");
    [reflexivity|].
  destruct (ns_lookup env (Space n)); reflexivity.
Qed.

Lemma plookup_translate (env : ns_env) (n : Name) :
  plookup (translate env n) = plookup n.
Proof. unfold plookup. now rewrite Local_translate. Qed.

Lemma name_eqb_refl (n : Name) : name_eqb n n = true.
Proof. unfold name_eqb. now rewrite !String.eqb_refl. Qed.

Lemma find_root_passed_over (pre : list Token) (n : Name) (a : list Attr)
  (rest : list Token) :
  forallb passed_over pre = true ->
  find_root (pre ++ StartElement n a :: rest) = Ok (n, a, rest).
Proof.
  induction pre as [|t pre IH]; intros H; [reflexivity|].
  cbn [forallb] in H. apply andb_true_iff in H as (Ht & H).
  destruct t; try discriminate Ht; cbn [app find_root]; apply IH; exact H.
Qed.

Section FillParts.
Variables (root : Name) (env : ns_env).

Let fill_ := fill coreProps pfield plookup pstore root env.

Lemma fill_field_content (f : pfield) (x : Name) (content : list Token) :
  forallb passed_over content = true ->
  forall acc r rest,
    fill_ (Field f acc [x]) r (content ++ rest)
    = fill_ (Field f (acc ++ text_of content) [x]) r rest.
Proof.
  induction content as [|t content IH]; intros H acc r rest.
  - cbn [app text_of]. now rewrite append_nil_r.
  - cbn [forallb] in H. apply andb_true_iff in H as (Ht & H).
    destruct t; try discriminate Ht; cbn [app text_of];
      unfold fill_; cbn [fill]; fold fill_; rewrite (IH H);
      rewrite ?append_assoc; reflexivity.
Qed.

Lemma fill_skipped_content (x : Name) (content : list Token) :
  forallb passed_over content = true ->
  forall r rest,
    fill_ (Skipped [x]) r (content ++ rest) = fill_ (Skipped [x]) r rest.
Proof.
  induction content as [|t content IH]; intros H r rest; [reflexivity|].
  cbn [forallb] in H. apply andb_true_iff in H as (Ht & H).
  destruct t; try discriminate Ht; cbn [app];
    unfold fill_; cbn [fill]; fold fill_; apply (IH H).
Qed.

Lemma fill_parts (parts : list part) :
  forallb part_ok parts = true ->
  forall r rest,
    fill_ Children r (concat (map part_tokens parts) ++ rest)
    = fill_ Children
        (fold_left (fun r i => pstore (fst i) (snd i) r) (items_of parts) r)
        rest.
Proof.
  induction parts as [|p parts IH]; intros H r rest; [reflexivity|].
  cbn [forallb] in H. apply andb_true_iff in H as (Hp & H).
  cbn [map concat]. rewrite <- app_assoc.
  destruct p as [f attr content | n attr content | t];
    cbn [part_ok] in Hp; cbn [part_tokens items_of fold_left fst snd].
  - cbn [app]. rewrite <- app_assoc.
    unfold fill_ at 1. cbn [fill]. fold fill_.
    rewrite plookup_translate.
    replace (plookup (cp_name f)) with (Some f) by (now destruct f).
    rewrite (fill_field_content f (cp_name f) content Hp).
    cbn [app append]. unfold fill_ at 1. cbn [fill]. fold fill_.
    rewrite name_eqb_refl. apply (IH H).
  - apply andb_true_iff in Hp as (Hc & Hn).
    cbn [app]. rewrite <- app_assoc.
    unfold fill_ at 1. cbn [fill]. fold fill_.
    rewrite plookup_translate.
    destruct (plookup n); [discriminate Hn|].
    rewrite (fill_skipped_content n content Hc).
    cbn [app]. unfold fill_ at 1. cbn [fill]. fold fill_.
    rewrite name_eqb_refl. apply (IH H).
  - destruct t; try discriminate Hp; cbn [app];
      unfold fill_ at 1; cbn [fill]; fold fill_; apply (IH H).
Qed.

End FillParts.

Lemma Unmarshal_parts (data : string) (pre post : list Token) (root : Name)
  (attrs : list Attr) (parts : list part) :
  tokens data
  = (pre ++ StartElement root attrs
         :: concat (map part_tokens parts) ++ EndElement root :: post)%list ->
  forallb passed_over pre = true ->
  Local root = "coreProperties" ->
  forallb part_ok parts = true ->
  Unmarshal_coreProps data
  = Ok {| pXMLName := translate (ns_bind [] attrs) root;
          pTitle := values_of PTitle (items_of parts);
          pCreator := values_of PCreator (items_of parts);
          pSubject := values_of PSubject (items_of parts);
          pDescription := values_of PDescription (items_of parts);
          pKeywords := values_of PKeywords (items_of parts);
          pCategory := values_of PCategory (items_of parts) |}.
Proof.
  intros Htok Hpre Hroot Hparts.
  unfold Unmarshal_coreProps, Unmarshal. rewrite Htok.
  rewrite (find_root_passed_over pre root attrs _ Hpre). cbn [bind].
  unfold proot_error. rewrite Local_translate, Hroot. cbn [String.eqb].
  replace (String.eqb "coreProperties" "coreProperties") with true
    by reflexivity.
  rewrite (fill_parts root (ns_bind [] attrs) parts Hparts).
  cbn [fill]. rewrite name_eqb_refl, fold_items. reflexivity.
Qed.

Lemma FromXML_coreProperties_root (data : string) (pre rest : list Token)
  (root : Name) (attrs : list Attr) :
  tokens data = (pre ++ StartElement root attrs :: rest)%list ->
  forallb passed_over pre = true ->
  Local root = "coreProperties" ->
  FromXML data = Err "expected element type <dc> but have <coreProperties>".
Proof.
  intros Htok Hpre Hroot. unfold FromXML, Unmarshal. rewrite Htok.
  rewrite (find_root_passed_over pre root attrs _ Hpre). cbn [bind].
  unfold root_error. rewrite Local_translate, Hroot. reflexivity.
Qed.

(** C8, as amended.  Take a metadata entry that uses [cp:]-prefixed tags
    only, in any layout: before the root only white space, comments and
    processing instructions; a root whose local name is [coreProperties];
    under it elements [cp:title], [cp:creator], [cp:subject],
    [cp:description], [cp:keywords], [cp:category] with any attributes and
    with text, CDATA sections and comments as content, elements of other
    names, and white space and comments between them; anything after the
    end of the root.  When one of the elements is a title, a creator,
    keywords or a description, the strict strategy decodes it, going by the
    local name of an element whatever its prefix: [parseCoreXML] returns a
    record in which title, creator, subject, description and keywords hold
    the texts of their elements in document order.  [extractDublinCore]
    returns that record when a title, a creator or keywords are there; when
    they are not (a description only), it drops the record and returns the
    error of the raw decode.  The substring fallback is not involved: it
    runs only when the strict decode finds no title, creator, keywords or
    description.  Within the fallback, for every field, the spellings are
    tried in the listed order and each one that matches replaces what the
    earlier ones gave. *)
Theorem cp_prefixed_entry_decoded
  (data : string) (w : World) (pre post : list Token) (root : Name)
  (attrs : list Attr) (parts : list part) :
  tokens data
  = (pre ++ StartElement root attrs
         :: concat (map part_tokens parts) ++ EndElement root :: post)%list ->
  forallb passed_over pre = true ->
  Local root = "coreProperties" ->
  forallb part_ok parts = true ->
  existsb (fun i => primary (fst i)) (items_of parts) = true ->
  exists x,
    parseCoreXML data w = (Ok x, time.tick w)
    /\ Title x = values_of PTitle (items_of parts)
    /\ Creator x = values_of PCreator (items_of parts)
    /\ Subject x = values_of PSubject (items_of parts)
    /\ Description x = values_of PDescription (items_of parts)
    /\ Keywords x = values_of PKeywords (items_of parts)
    /\ (existsb (fun i => leading (fst i)) (items_of parts) = true ->
        extractDublinCore data w = (Ok x, time.tick w))
    /\ (existsb (fun i => leading (fst i)) (items_of parts) = false ->
        extractDublinCore data w
        = (Err "expected element type <dc> but have <coreProperties>",
           time.tick w))
    /\ (forall data0 w0 p,
          Unmarshal_coreProps data0 = Ok p ->
          parseCoreXML data0 w0
          = if usable (map_properties p (default (time.reading w0)))
            then (Ok (map_properties p (default (time.reading w0))),
                  time.tick w0)
            else parseCoreXMLAlternative data0 (time.tick w0))
    /\ (forall data0 w0 dc w1 f,
          parseCoreXMLAlternative data0 w0 = (Ok dc, w1) ->
          get f dc
          = last_match data0 (variants f)
              (get f (default (time.reading w0)))).
Proof.
  intros Htok Hpre Hroot Hparts Hp.
  pose proof (Unmarshal_parts data pre post root attrs parts
                Htok Hpre Hroot Hparts) as HU.
  pose proof (primary_values (items_of parts) Hp) as Hu.
  eexists. split.
  { apply (parseCoreXML_strict _ _ _ HU).
    rewrite map_properties_default. exact Hu. }
  do 5 (split; [rewrite map_properties_default; reflexivity|]).
  split; [|split; [|split]].
  - intros Hl. unfold extractDublinCore.
    rewrite (parseCoreXML_strict _ _ _ HU)
      by (rewrite map_properties_default; exact Hu).
    rewrite map_properties_default. cbv beta iota zeta.
    cbn [Title Creator Keywords pTitle pCreator pKeywords].
    now rewrite (leading_values (items_of parts) Hl).
  - intros Hl. unfold extractDublinCore.
    rewrite (parseCoreXML_strict _ _ _ HU)
      by (rewrite map_properties_default; exact Hu).
    rewrite map_properties_default. cbv beta iota zeta.
    cbn [Title Creator Keywords pTitle pCreator pKeywords].
    rewrite (no_leading_values (items_of parts) Hl).
    now rewrite (FromXML_coreProperties_root data pre _ root attrs
                   Htok Hpre Hroot).
  - intros data0 w0 p H. unfold parseCoreXML. rewrite H.
    rewrite docx_facts.New_eq. reflexivity.
  - intros data0 w0 dc w1 f H. unfold parseCoreXMLAlternative in H.
    rewrite docx_facts.New_eq in H. apply (f_equal fst) in H.
    cbn [fst] in H. unfold variants.
    apply (scan_tags_last_match _ _ _ _ _ H).
Qed.

Lemma cp_prefixed_entry_decoded_witness :
  exists x,
    extractDublinCore samples.cp_laid_out (samples.world_with (NotZip ""))
    = (Ok x, time.tick (samples.world_with (NotZip "")))
    /\ Title x = ["A"] /\ Creator x = [] /\ Subject x = ["S"]
    /\ Description x = ["D & E"] /\ Keywords x = [].
Proof.
  destruct (cp_prefixed_entry_decoded samples.cp_laid_out
              (samples.world_with (NotZip ""))
              [ProcInst "xml"; CharData nl]
              [CharData nl]
              root_raw cp_attrs samples.cp_laid_out_parts)
    as (x & _ & HT & HC & HS & HD & HK & Hx & _).
  - vm_compute. reflexivity.
  - reflexivity.
  - reflexivity.
  - reflexivity.
  - reflexivity.
  - exists x. split; [apply Hx; reflexivity|].
    rewrite HT, HC, HS, HD, HK. repeat split.
Defined.

(** C8, as stated, fails on how the values are recovered: on an entry with
    [cp:] tags only, the decode returns the title with its reference
    resolved, [A & B], which is what the strict strategy reads; the substring
    fallback, run on the same entry, gives the raw text [A &amp; B]. *)
Lemma cp_prefixed_entry_not_through_fallback :
  exists x y,
    fst (extractDublinCore samples.cp_only (samples.world_with (NotZip "")))
    = Ok x
    /\ fst (parseCoreXMLAlternative samples.cp_only
              (samples.world_with (NotZip ""))) = Ok y
    /\ Title x = ["A & B"]
    /\ Title y = ["A &amp; B"]
    /\ Title x <> Title y.
Proof.
  do 2 eexists.
  split; [vm_compute; reflexivity|].
  split; [vm_compute; reflexivity|].
  split; [reflexivity|]. split; [reflexivity|]. discriminate.
Qed.

(** What [extractField] does with a tag that occurs more than once: the
    offset of the next occurrence is taken from the wrong origin, so the
    second value is cut at the wrong place, or the slice bounds cross, or the
    loop keeps finding the same occurrence. *)
Lemma extractField_repeated_tag :
  extractField "<r><t>A</t><t>B</t></r>" "t" = Ok ["A"; "<t>B"]
  /\ extractField "abcd<t>A</t><t>B</t>" "t"
     = Panic "slice bounds out of range"
  /\ extractField "<t>A</t><t>B</t><t>C</t>" "t" = Diverges.
Proof. repeat split; vm_compute; reflexivity. Qed.

End fallback_facts.

(** ** Saving and opening again *)

Module save_facts.
Import string_facts dublincore docx.

Lemma Close_cons (e : string * string) (zw : zip.Writer) :
  zip.Close (e :: zw) = (zip.Close zw ++ [zip.stored (fst e) (snd e)])%list.
Proof. unfold zip.Close. simpl. now rewrite map_app. Qed.

(** The loop of [Save] over a run of members that can be read: the writer
    holds what it held and, after it, what [Save] writes for each of them. *)
Lemma copy_all_app (d : DOCX) (pre rest : list zip.File) :
  (forall f, In f pre -> other f = true -> readable f) ->
  forall zw,
    exists zw',
      copy_all d zw (pre ++ rest) = copy_all d zw' rest
      /\ zip.Close zw'
         = (zip.Close zw
            ++ map (saved_member (core_xml (DublinCore_ d))) pre)%list.
Proof.
  induction pre as [|f ms IH]; intros Hr zw.
  - exists zw. simpl. split; [reflexivity|]. now rewrite app_nil_r.
  - cbn [copy_all map app]. unfold saved_member at 1.
    destruct (String.eqb (zip.Name f) corePropertiesPath) eqn:E.
    + rewrite docx_facts.writeCoreProperties_eq.
      destruct (IH (fun g Hg => Hr g (or_intror Hg))
                   ((corePropertiesPath, core_xml (DublinCore_ d)) :: zw))
        as (zw' & H1 & H2).
      exists zw'. split; [assumption|]. rewrite H2, Close_cons.
      rewrite <- app_assoc. reflexivity.
    + destruct (Hr f (or_introl eq_refl)) as (data & Hopen).
      { unfold other. now rewrite E. }
      unfold copyZipFile. rewrite Hopen. simpl.
      destruct (IH (fun g Hg => Hr g (or_intror Hg))
                   ((zip.Name f, data) :: zw))
        as (zw' & H1 & H2).
      exists zw'. split; [assumption|]. rewrite H2, Close_cons.
      rewrite <- app_assoc. simpl.
      do 2 f_equal. unfold zip.stored. destruct f as [name op].
      simpl in *. now rewrite Hopen.
Qed.

Lemma saved_member_other (core : string) (members : list zip.File) :
  (forall f, In f members -> other f = true) ->
  map (saved_member core) members = members.
Proof.
  intros H. induction members as [|f ms IH]; [reflexivity|].
  simpl. rewrite IH by (intros g Hg; apply H; now right).
  f_equal. unfold saved_member. specialize (H f (or_introl eq_refl)).
  unfold other in H.
  destruct (String.eqb (zip.Name f) corePropertiesPath);
    [discriminate | reflexivity].
Qed.

Lemma findFile_other (members : list zip.File) :
  (forall f, In f members -> other f = true) ->
  findFile members corePropertiesPath
  = Err ("file not found: " ++ corePropertiesPath).
Proof.
  intros H. induction members as [|f ms IH]; [reflexivity|].
  cbn [findFile]. specialize (H f (or_introl eq_refl)) as Hf.
  unfold other in Hf.
  destruct (String.eqb (zip.Name f) corePropertiesPath); [discriminate|].
  apply IH. intros g Hg. apply H. now right.
Qed.

Lemma files_write (path : string) (d : FileData) (w : World) :
  files (os.write path d w) path = Some d.
Proof. unfold os.write. cbn [files]. now rewrite String.eqb_refl. Qed.

Lemma files_write_other (path p : string) (d : FileData) (w : World) :
  p <> path -> files (os.write path d w) p = files w p.
Proof.
  intros H. unfold os.write. cbn [files].
  apply String.eqb_neq in H. now rewrite H.
Qed.

(** X1.  [Save] never adds a metadata entry.  When the archive of the
    container has no member named [docProps/core.xml] and its members can be
    read, [Save] writes the very members of the source, whatever the record
    of the container holds; opening the output gives the default record, so
    the edits are not in the file. *)
Theorem Save_never_adds_core_properties
  (d : DOCX) (outputPath : string) (w : World) (members : list zip.File) :
  FileData_ d = Zip members ->
  creatable w (destination d outputPath) = true ->
  (forall f, In f members -> other f = true) ->
  (forall f, In f members -> readable f) ->
  let w' := os.write (destination d outputPath) (Zip members) w in
  Save d outputPath w = (Ok tt, w')
  /\ Open (destination d outputPath) w'
     = (Ok (container (destination d outputPath) (Zip members)
              (default (time.reading w))),
        time.tick w').
Proof.
  intros Hdata Hcreate Hother Hread w'.
  destruct (docx_facts.Save_writes d outputPath w members Hdata Hcreate
              (fun f Hf _ => Hread f Hf))
    as (written & HS & Hw & _).
  rewrite saved_member_other in Hw by assumption. subst written.
  split; [exact HS|].
  unfold Open, os.ReadFile. subst w'. rewrite files_write.
  cbn [NewReader]. rewrite docx_facts.New_eq, findFile_other by assumption.
  reflexivity.
Qed.

Lemma Save_never_adds_core_properties_witness :
  files
    (snd (Save (container "cv.docx" (Zip samples.archive_without_core)
                  samples.new_role)
            "out.docx"
            (samples.world_with (Zip samples.archive_without_core))))
    "out.docx"
  = Some (Zip samples.archive_without_core).
Proof.
  refine (eq_trans
            (f_equal (fun r => files (snd r) "out.docx")
               (proj1 (Save_never_adds_core_properties
                         (container "cv.docx"
                            (Zip samples.archive_without_core)
                            samples.new_role)
                         "out.docx"
                         (samples.world_with
                            (Zip samples.archive_without_core))
                         samples.archive_without_core _ _ _ _)))
            _).
  - reflexivity.
  - reflexivity.
  - intros f Hin. simpl in Hin. destruct Hin as [<- | [<- | []]]; reflexivity.
  - intros f Hin. simpl in Hin.
    destruct Hin as [<- | [<- | []]]; apply docx_facts.stored_readable.
  - reflexivity.
Defined.

(** The member [Save] writes in place of the first metadata entry is the
    one [findFile] finds in the output. *)
Lemma findFile_saved (core : string) (members : list zip.File) (f : zip.File) :
  findFile members corePropertiesPath = Ok f ->
  findFile (map (saved_member core) members) corePropertiesPath
  = Ok (zip.stored corePropertiesPath core).
Proof.
  induction members as [|g ms IH]; [discriminate|].
  cbn [findFile map].
  destruct (String.eqb (zip.Name g) corePropertiesPath) eqn:E.
  - intros _.
    replace (saved_member core g) with (zip.stored corePropertiesPath core)
      by (unfold saved_member; now rewrite E).
    reflexivity.
  - replace (saved_member core g) with g
      by (unfold saved_member; now rewrite E).
    rewrite E. exact IH.
Qed.

(** What [parseCoreXML] makes of the entry [Save] writes for a record. *)
Lemma parseCoreXML_core_xml (dc : DublinCore) (w : World) :
  valid_properties (properties_of dc) ->
  writes_usable dc = true ->
  parseCoreXML (core_xml dc) w
  = (Ok (map_properties (decoded (properties_of dc))
           (default (time.reading w))), time.tick w).
Proof.
  intros Hv Hu. apply roundtrip_facts.parseCoreXML_strict.
  - apply roundtrip_facts.Unmarshal_marshalled. exact Hv.
  - rewrite roundtrip_facts.map_properties_default.
    exact Hu.
Qed.

(** The plain Dublin Core decode refuses what [Save] writes, at the root,
    whatever follows the start tag of the root. *)
Lemma FromXML_foreign_root (tail : string) :
  FromXML (header ++ root_start ++ tail)
  = Err "expected element type <dc> but have <coreProperties>".
Proof.
  unfold FromXML, xml.Unmarshal, xml.tokens.
  rewrite <- append_assoc, xml_facts.run_app, roundtrip_facts.run_prologue.
  destruct (xml.run xml.boundary tail) as [st out].
  reflexivity.
Qed.

Lemma extractDublinCore_core_xml (dc : DublinCore) (w : World) :
  valid_properties (properties_of dc) ->
  writes_leading dc = true ->
  extractDublinCore (core_xml dc) w
  = (Ok (map_properties (decoded (properties_of dc))
           (default (time.reading w))), time.tick w).
Proof.
  intros Hv Hl. unfold extractDublinCore.
  rewrite parseCoreXML_core_xml; [|assumption|].
  - rewrite roundtrip_facts.map_properties_default.
    cbn [Title Creator Keywords decoded properties_of pTitle pCreator
         pKeywords cpTitle cpCreator cpKeywords].
    unfold writes_leading in Hl. now rewrite Hl.
  - unfold writes_usable. rewrite Hl. reflexivity.
Qed.

(** [Open] on what [Save] wrote over an archive that has a metadata
    entry. *)
Lemma Open_saved (d : DOCX) (outputPath : string) (w : World)
  (members : list zip.File) (f : zip.File) :
  findFile members corePropertiesPath = Ok f ->
  let dest := destination d outputPath in
  let written := map (saved_member (core_xml (DublinCore_ d))) members in
  let w' := os.write dest (Zip written) w in
  Open dest w'
  = match extractDublinCore (core_xml (DublinCore_ d)) (time.tick w') with
    | (Ok dc, w2) => (Ok (container dest (Zip written) dc), w2)
    | (Err _, w2) =>
        (Ok (container dest (Zip written) (default (time.reading w'))), w2)
    | (Panic m, w2) => (Panic m, w2)
    | (Diverges, w2) => (Diverges, w2)
    end.
Proof.
  intros Hf dest written w'.
  unfold Open, os.ReadFile. subst w'. rewrite files_write.
  cbn [NewReader]. rewrite docx_facts.New_eq.
  subst written. rewrite (findFile_saved _ _ _ Hf).
  reflexivity.
Qed.

(** X2.  [Save] then [Open].  Take a container whose archive has a metadata
    entry and can be read, and whose record holds valid text and at least
    one title, creator or keyword that is not the empty string.  [Save]
    succeeds, and [Open] on the file it wrote gives a record with the titles,
    creators, subjects, descriptions and keywords of the record, in the same
    order, the empty strings left out (the encoder writes nothing for them);
    the category is the record's, treated likewise, or ["curriculo"] when
    nothing is left of it; the date is the reading of the clock at the decode
    and the format the DOCX MIME type.  For a record none of whose values is
    the empty string the six fields come back as they are. *)
Theorem Save_then_Open
  (d : DOCX) (outputPath : string) (w : World)
  (members : list zip.File) (f : zip.File) :
  FileData_ d = Zip members ->
  creatable w (destination d outputPath) = true ->
  (forall g, In g members -> other g = true -> readable g) ->
  findFile members corePropertiesPath = Ok f ->
  valid_properties (properties_of (DublinCore_ d)) ->
  writes_leading (DublinCore_ d) = true ->
  exists w' written dc',
    Save d outputPath w = (Ok tt, w')
    /\ Open (destination d outputPath) w'
       = (Ok (container (destination d outputPath) (Zip written) dc'),
          time.tick (time.tick w'))
    /\ Title dc' = xml.omitempty (Title (DublinCore_ d))
    /\ Creator dc' = xml.omitempty (Creator (DublinCore_ d))
    /\ Subject dc' = xml.omitempty (Subject (DublinCore_ d))
    /\ Description dc' = xml.omitempty (Description (DublinCore_ d))
    /\ Keywords dc' = xml.omitempty (Keywords (DublinCore_ d))
    /\ Category dc'
       = (if nonempty (xml.omitempty (Category (DublinCore_ d)))
          then xml.omitempty (Category (DublinCore_ d))
          else ["curriculo"])
    /\ Date dc' = [clock w (S (ticks w))]
    /\ Format dc' = [docx_mime]
    /\ (no_empty_value (DublinCore_ d) ->
        Title dc' = Title (DublinCore_ d)
        /\ Creator dc' = Creator (DublinCore_ d)
        /\ Subject dc' = Subject (DublinCore_ d)
        /\ Description dc' = Description (DublinCore_ d)
        /\ Keywords dc' = Keywords (DublinCore_ d)
        /\ (Category (DublinCore_ d) <> [] ->
            Category dc' = Category (DublinCore_ d))).
Proof.
  intros Hdata Hcreate Hread Hfind Hvalid Hlead.
  destruct (docx_facts.Save_writes d outputPath w members Hdata Hcreate Hread)
    as (written & HS & Hw & _).
  subst written.
  eexists _, _, _. split; [exact HS|].
  split.
  - rewrite (Open_saved d outputPath w members f Hfind).
    rewrite extractDublinCore_core_xml by assumption.
    reflexivity.
  - rewrite roundtrip_facts.map_properties_default.
    cbn [Title Creator Subject Description Keywords Category Date Format
         decoded properties_of pTitle pCreator pSubject pDescription
         pKeywords pCategory cpTitle cpCreator cpSubject cpDescription
         cpKeywords cpCategory].
    do 8 (split; [reflexivity|]).
    intros (E1 & E2 & E3 & E4 & E5 & E6).
    rewrite E1, E2, E3, E4, E5, E6. repeat split.
    intros Hc. destruct (Category (DublinCore_ d)); [congruence|reflexivity].
Qed.

Lemma Save_then_Open_witness :
  exists w' written dc',
    Save (container "cv.docx" (Zip (samples.archive_with samples.core_old))
            samples.new_role)
      "out.docx"
      (samples.world_with (Zip (samples.archive_with samples.core_old)))
    = (Ok tt, w')
    /\ Open "out.docx" w'
       = (Ok (container "out.docx" (Zip written) dc'),
          time.tick (time.tick w'))
    /\ Title dc' = ["New Role"]
    /\ Category dc' = ["curriculo"]
    /\ Date dc' = ["2024-05-01T10:00:01Z"].
Proof.
  destruct (Save_then_Open
              (container "cv.docx"
                 (Zip (samples.archive_with samples.core_old))
                 samples.new_role)
              "out.docx"
              (samples.world_with (Zip (samples.archive_with samples.core_old)))
              (samples.archive_with samples.core_old)
              (zip.stored corePropertiesPath samples.core_old))
    as (w' & written & dc' & H1 & H2 & H3 & _ & _ & _ & _ & H8 & H9 & _).
  - reflexivity.
  - reflexivity.
  - intros g Hin _. simpl in Hin.
    destruct Hin as [<- | [<- | [<- | []]]]; apply docx_facts.stored_readable.
  - reflexivity.
  - repeat split; repeat constructor.
  - reflexivity.
  - exists w', written, dc'. repeat split; assumption.
Defined.

(** X3.  A record that holds a description but no title, creator or keyword
    does not come back from the file (the empty string counts for nothing:
    it is not written).  [Save] writes the record; on opening the output,
    [parseCoreXML] decodes it, [extractDublinCore] drops it for want of a
    title, a creator or a keyword, the plain Dublin Core decode fails on the
    [coreProperties] root, and [Open] returns the default record:
    description, subject and category are lost. *)
Theorem Save_then_Open_loses_description
  (d : DOCX) (outputPath : string) (w : World)
  (members : list zip.File) (f : zip.File) :
  FileData_ d = Zip members ->
  creatable w (destination d outputPath) = true ->
  (forall g, In g members -> other g = true -> readable g) ->
  findFile members corePropertiesPath = Ok f ->
  valid_properties (properties_of (DublinCore_ d)) ->
  writes_leading (DublinCore_ d) = false ->
  xml.omitempty (Description (DublinCore_ d)) <> [] ->
  exists w' written,
    Save d outputPath w = (Ok tt, w')
    /\ Open (destination d outputPath) w'
       = (Ok (container (destination d outputPath) (Zip written)
                (default (time.reading w'))),
          time.tick (time.tick w')).
Proof.
  intros Hdata Hcreate Hread Hfind Hvalid HL HD.
  destruct (docx_facts.Save_writes d outputPath w members Hdata Hcreate Hread)
    as (written & HS & Hw & _).
  subst written.
  eexists _, _. split; [exact HS|].
  rewrite (Open_saved d outputPath w members f Hfind).
  unfold extractDublinCore.
  rewrite parseCoreXML_core_xml; [|assumption|].
  - rewrite roundtrip_facts.map_properties_default.
    cbn [Title Creator Keywords decoded properties_of pTitle pCreator
         pKeywords cpTitle cpCreator cpKeywords].
    unfold writes_leading in HL. rewrite HL.
    unfold core_xml, marshalled. rewrite FromXML_foreign_root.
    reflexivity.
  - unfold writes_usable. rewrite HL.
    destruct (xml.omitempty (Description (DublinCore_ d))); [congruence|].
    reflexivity.
Qed.

Lemma Save_then_Open_loses_description_witness :
  exists w' written,
    Save (container "cv.docx" (Zip (samples.archive_with samples.core_old))
            samples.described)
      "out.docx"
      (samples.world_with (Zip (samples.archive_with samples.core_old)))
    = (Ok tt, w')
    /\ Open "out.docx" w'
       = (Ok (container "out.docx" (Zip written)
                (default (time.reading w'))),
          time.tick (time.tick w')).
Proof.
  refine (Save_then_Open_loses_description
            (container "cv.docx"
               (Zip (samples.archive_with samples.core_old))
               samples.described)
            "out.docx"
            (samples.world_with (Zip (samples.archive_with samples.core_old)))
            (samples.archive_with samples.core_old)
            (zip.stored corePropertiesPath samples.core_old)
            _ _ _ _ _ _ _).
  - reflexivity.
  - reflexivity.
  - intros g Hin _. simpl in Hin.
    destruct Hin as [<- | [<- | [<- | []]]]; apply docx_facts.stored_readable.
  - reflexivity.
  - repeat split; repeat constructor.
  - reflexivity.
  - discriminate.
Defined.

(** X4.  [Save] writes to its destination and nowhere else.  Whatever it
    returns, the clock, the permissions and every file but the destination
    are what they were; when the destination cannot be created, or the data
    of the container is not an archive, nothing at all is written. *)
Theorem Save_touches_only_destination
  (d : DOCX) (outputPath : string) (w : World) :
  let w' := snd (Save d outputPath w) in
  clock w' = clock w /\ ticks w' = ticks w /\ creatable w' = creatable w
  /\ (forall p, p <> destination d outputPath -> files w' p = files w p)
  /\ (creatable w (destination d outputPath) = false -> w' = w)
  /\ (forall bytes, FileData_ d = NotZip bytes -> w' = w).
Proof.
  unfold Save. fold (destination d outputPath).
  destruct (FileData_ d) as [members|bytes]; cbn [NewReader].
  - destruct (creatable w (destination d outputPath)) eqn:E.
    + destruct (copy_all d zip.NewWriter members) as [res zw]. cbn [snd].
      repeat split; try discriminate.
      intros p Hp. now apply files_write_other.
    + cbn [snd]. repeat split; discriminate.
  - cbn [snd]. repeat split.
Qed.

Lemma Save_touches_only_destination_witness :
  files
    (snd (Save (container "cv.docx"
                  (Zip (samples.archive_with samples.core_old))
                  samples.new_role)
            "out.docx"
            (samples.world_with (Zip (samples.archive_with samples.core_old)))))
    "cv.docx"
  = Some (Zip (samples.archive_with samples.core_old)).
Proof.
  destruct (Save_touches_only_destination
              (container "cv.docx"
                 (Zip (samples.archive_with samples.core_old))
                 samples.new_role)
              "out.docx"
              (samples.world_with (Zip (samples.archive_with samples.core_old))))
    as (_ & _ & _ & H & _).
  rewrite (H "cv.docx"); [reflexivity | discriminate].
Defined.

(** X5.  [Save] stops at the first member it cannot copy and leaves the
    destination truncated.  When the members before [f] can be read and
    copying [f] fails (it cannot be opened, or reading it breaks off), [Save]
    returns the error under the name of [f], and the destination holds an
    archive of what had been written: the members before [f] and, when [f]
    could be opened, a member with the bytes delivered before the error.
    With no output path given, the destination is the file that was
    opened. *)
Theorem Save_stops_at_first_failure
  (d : DOCX) (outputPath : string) (w : World)
  (pre post : list zip.File) (f : zip.File) (e : string) :
  FileData_ d = Zip (pre ++ f :: post) ->
  creatable w (destination d outputPath) = true ->
  (forall g, In g pre -> other g = true -> readable g) ->
  other f = true ->
  copy_error f = Some e ->
  Save d outputPath w
  = (Err (wrap ("failed to copy file " ++ zip.Name f) e),
     os.write (destination d outputPath)
       (Zip (map (saved_member (core_xml (DublinCore_ d))) pre
             ++ partial_copy f)) w).
Proof.
  intros Hdata Hcreate Hpre Hother Herr.
  unfold Save. fold (destination d outputPath).
  rewrite Hdata. cbn [NewReader]. rewrite Hcreate.
  destruct (copy_all_app d pre (f :: post) Hpre zip.NewWriter)
    as (zw & -> & Hclose).
  cbn [copy_all]. unfold other in Hother.
  destruct (String.eqb (zip.Name f) corePropertiesPath); [discriminate|].
  unfold copyZipFile, copy_error, partial_copy in *.
  destruct (zip.Open f) as [rc|e'].
  - rewrite Herr. unfold zip.Create, zip.Write.
    rewrite Close_cons, Hclose. reflexivity.
  - inversion Herr; subst. rewrite Hclose, app_nil_r. reflexivity.
Qed.

Lemma Save_stops_at_first_failure_witness :
  Save (container "cv.docx" (Zip samples.archive_broken) samples.new_role) ""
    (samples.world_with (Zip samples.archive_broken))
  = (Err "failed to copy file word/media/image1.png: zip: checksum error",
     os.write "cv.docx"
       (Zip [samples.content_types;
             zip.stored "word/media/image1.png" "PNG"])
       (samples.world_with (Zip samples.archive_broken))).
Proof.
  refine (Save_stops_at_first_failure
            (container "cv.docx" (Zip samples.archive_broken)
               samples.new_role)
            "" (samples.world_with (Zip samples.archive_broken))
            [samples.content_types] [samples.document_xml]
            samples.broken_picture "zip: checksum error" _ _ _ _ _).
  - reflexivity.
  - reflexivity.
  - intros g Hin _. simpl in Hin.
    destruct Hin as [<- | []]; apply docx_facts.stored_readable.
  - reflexivity.
  - reflexivity.
Defined.

Lemma saved_member_twice (core : string) (members : list zip.File) :
  map (saved_member core) (map (saved_member core) members)
  = map (saved_member core) members.
Proof.
  rewrite map_map. apply map_ext. intros f.
  destruct (String.eqb (zip.Name f) corePropertiesPath) eqn:E.
  - replace (saved_member core f) with (zip.stored corePropertiesPath core)
      by (unfold saved_member; now rewrite E).
    reflexivity.
  - replace (saved_member core f) with f
      by (unfold saved_member; now rewrite E).
    unfold saved_member. now rewrite E.
Qed.

Lemma saved_member_readable (core : string) (members : list zip.File) :
  (forall g, In g members -> other g = true -> readable g) ->
  forall g, In g (map (saved_member core) members) -> other g = true ->
            readable g.
Proof.
  intros H g Hg Ho. apply in_map_iff in Hg as (f & <- & Hf).
  unfold saved_member in *.
  destruct (String.eqb (zip.Name f) corePropertiesPath) eqn:E.
  - discriminate Ho.
  - apply H; [assumption|]. unfold other. now rewrite E.
Qed.

Lemma omitempty_twice (l : list string) :
  xml.omitempty (xml.omitempty l) = xml.omitempty l.
Proof.
  unfold xml.omitempty. induction l as [|v l IH]; [reflexivity|].
  cbn [filter]. destruct (String.eqb v "") eqn:E; cbn [negb]; [exact IH|].
  cbn [filter]. rewrite E. cbn [negb]. now rewrite IH.
Qed.

Lemma elements_omitempty (tag : string) (l : list string) :
  docx.elements tag (xml.omitempty l) = docx.elements tag l.
Proof.
  unfold docx.elements, xml.omitempty.
  induction l as [|v l IH]; [reflexivity|].
  cbn [filter xml.elements].
  destruct (String.eqb v "") eqn:E; cbn [negb]; [exact IH|].
  cbn [xml.elements]. rewrite E. now rewrite IH.
Qed.

(** The bytes written for a record depend on its six serialized fields
    only, and of these on the values that are not the empty string. *)
Lemma core_xml_fields (a b : DublinCore) :
  xml.omitempty (Title a) = xml.omitempty (Title b) ->
  xml.omitempty (Creator a) = xml.omitempty (Creator b) ->
  xml.omitempty (Subject a) = xml.omitempty (Subject b) ->
  xml.omitempty (Description a) = xml.omitempty (Description b) ->
  xml.omitempty (Keywords a) = xml.omitempty (Keywords b) ->
  xml.omitempty (Category a) = xml.omitempty (Category b) ->
  core_xml a = core_xml b.
Proof.
  intros H1 H2 H3 H4 H5 H6.
  assert (E : children (properties_of a) = children (properties_of b)).
  { unfold children, properties_of.
    cbn [cpTitle cpCreator cpSubject cpDescription cpKeywords cpCategory].
    rewrite <- (elements_omitempty _ (Title a)), H1, elements_omitempty.
    rewrite <- (elements_omitempty _ (Creator a)), H2, elements_omitempty.
    rewrite <- (elements_omitempty _ (Subject a)), H3, elements_omitempty.
    rewrite <- (elements_omitempty _ (Description a)), H4,
      elements_omitempty.
    rewrite <- (elements_omitempty _ (Keywords a)), H5, elements_omitempty.
    rewrite <- (elements_omitempty _ (Category a)), H6, elements_omitempty.
    reflexivity. }
  unfold core_xml, marshalled. now rewrite E.
Qed.

(** X6.  Saving what was opened reproduces the archive.  Under the
    conditions of X2 and with a category in the record that is not the
    empty string, the container that [Open] builds from the file [Save]
    wrote, saved again to any path that can be created, writes the same
    archive, member for member: the metadata entry is the same bytes. *)
Theorem Save_Open_Save_stable
  (d : DOCX) (outputPath again : string) (w : World)
  (members : list zip.File) (f : zip.File) :
  FileData_ d = Zip members ->
  creatable w (destination d outputPath) = true ->
  (forall g, In g members -> other g = true -> readable g) ->
  findFile members corePropertiesPath = Ok f ->
  valid_properties (properties_of (DublinCore_ d)) ->
  writes_leading (DublinCore_ d) = true ->
  xml.omitempty (Category (DublinCore_ d)) <> [] ->
  exists w1 d2 w2 written,
    Save d outputPath w = (Ok tt, w1)
    /\ files w1 (destination d outputPath) = Some (Zip written)
    /\ Open (destination d outputPath) w1 = (Ok d2, w2)
    /\ (creatable w (destination d2 again) = true ->
        Save d2 again w2
        = (Ok tt, os.write (destination d2 again) (Zip written) w2)).
Proof.
  intros Hdata Hcreate Hread Hfind Hvalid Hlead Hcat.
  destruct (docx_facts.Save_writes d outputPath w members Hdata Hcreate Hread)
    as (written & HS & Hw & _).
  subst written.
  eexists _, _, _, _. split; [exact HS|].
  split; [apply files_write|].
  split.
  { rewrite (Open_saved d outputPath w members f Hfind).
    rewrite extractDublinCore_core_xml by assumption.
    reflexivity. }
  intros Hc2.
  match goal with
  | |- Save ?d2 _ ?w2 = _ =>
      destruct (docx_facts.Save_writes d2 again w2
                  (map (saved_member (core_xml (DublinCore_ d))) members)
                  eq_refl)
        as (written2 & HS2 & Hw2 & _)
  end.
  { exact Hc2. }
  { now apply saved_member_readable. }
  rewrite HS2. subst written2. do 3 f_equal.
  cbn [DublinCore_ container].
  rewrite (core_xml_fields _ (DublinCore_ d)).
  - apply saved_member_twice.
  - rewrite roundtrip_facts.map_properties_default. apply omitempty_twice.
  - rewrite roundtrip_facts.map_properties_default. apply omitempty_twice.
  - rewrite roundtrip_facts.map_properties_default. apply omitempty_twice.
  - rewrite roundtrip_facts.map_properties_default. apply omitempty_twice.
  - rewrite roundtrip_facts.map_properties_default. apply omitempty_twice.
  - rewrite roundtrip_facts.map_properties_default.
    cbn [Category decoded properties_of pCategory cpCategory].
    destruct (xml.omitempty (Category (DublinCore_ d))) eqn:E;
      [congruence|].
    cbn [nonempty]. rewrite <- E. apply omitempty_twice.
Qed.

Lemma Save_Open_Save_stable_witness :
  exists w1 d2 w2 written,
    Save (container "cv.docx" (Zip (samples.archive_with samples.core_old))
            samples.new_role)
      "out.docx"
      (samples.world_with (Zip (samples.archive_with samples.core_old)))
    = (Ok tt, w1)
    /\ files w1 "out.docx" = Some (Zip written)
    /\ Open "out.docx" w1 = (Ok d2, w2)
    /\ Save d2 "again.docx" w2
       = (Ok tt, os.write "again.docx" (Zip written) w2).
Proof.
  destruct (Save_Open_Save_stable
              (container "cv.docx"
                 (Zip (samples.archive_with samples.core_old))
                 samples.new_role)
              "out.docx" "again.docx"
              (samples.world_with (Zip (samples.archive_with samples.core_old)))
              (samples.archive_with samples.core_old)
              (zip.stored corePropertiesPath samples.core_old))
    as (w1 & d2 & w2 & written & H1 & H2 & H3 & H4).
  - reflexivity.
  - reflexivity.
  - intros g Hin _. simpl in Hin.
    destruct Hin as [<- | [<- | [<- | []]]]; apply docx_facts.stored_readable.
  - reflexivity.
  - repeat split; repeat constructor.
  - reflexivity.
  - discriminate.
  - exists w1, d2, w2, written.
    split; [exact H1|]. split; [exact H2|]. split; [exact H3|].
    apply H4. reflexivity.
Defined.

(** X7.  [parseCoreXML] reads what [writeCoreProperties] writes, for any
    record, not only one that came from a file: when the strings of the
    record are valid text and it has a title, a creator, a keyword or a
    description that is not the empty string, decoding its serialization
    succeeds, takes one reading of the clock, and gives the six value
    sequences of the record with the empty strings left out, which the
    encoder does not write (the category ["curriculo"] when nothing is left
    of it).  The sequences of a record without an empty string come back as
    they are. *)
Theorem serialized_record_is_parsed (dc : DublinCore) (w : World) :
  valid_properties (properties_of dc) ->
  writes_usable dc = true ->
  exists dc',
    parseCoreXML (core_xml dc) w = (Ok dc', time.tick w)
    /\ Title dc' = xml.omitempty (Title dc)
    /\ Creator dc' = xml.omitempty (Creator dc)
    /\ Subject dc' = xml.omitempty (Subject dc)
    /\ Description dc' = xml.omitempty (Description dc)
    /\ Keywords dc' = xml.omitempty (Keywords dc)
    /\ Category dc'
       = (if nonempty (xml.omitempty (Category dc))
          then xml.omitempty (Category dc) else ["curriculo"])
    /\ (no_empty_value dc ->
        Title dc' = Title dc /\ Creator dc' = Creator dc
        /\ Subject dc' = Subject dc /\ Description dc' = Description dc
        /\ Keywords dc' = Keywords dc
        /\ (Category dc <> [] -> Category dc' = Category dc)).
Proof.
  intros Hv Hu. eexists. split.
  - exact (parseCoreXML_core_xml dc w Hv Hu).
  - rewrite roundtrip_facts.map_properties_default.
    cbn [Title Creator Subject Description Keywords Category
         decoded properties_of pTitle pCreator pSubject pDescription
         pKeywords pCategory cpTitle cpCreator cpSubject cpDescription
         cpKeywords cpCategory].
    do 6 (split; [reflexivity|]).
    intros (E1 & E2 & E3 & E4 & E5 & E6).
    rewrite E1, E2, E3, E4, E5, E6. repeat split.
    intros Hc. destruct (Category dc); [congruence|reflexivity].
Qed.

Lemma serialized_record_is_parsed_witness :
  exists dc',
    parseCoreXML (core_xml samples.described)
      (samples.world_with (NotZip ""))
    = (Ok dc', time.tick (samples.world_with (NotZip "")))
    /\ Description dc' = ["Only"].
Proof.
  destruct (serialized_record_is_parsed samples.described
              (samples.world_with (NotZip "")))
    as (dc' & H1 & _ & _ & _ & H5 & _).
  - repeat split; repeat constructor.
  - reflexivity.
  - exists dc'. split; assumption.
Defined.

End save_facts.

(** ** What [Open] reads and what it leaves alone *)

Module open_facts.
Import string_facts dublincore docx.

(** What a successful [Open] says about the file it read. *)
Lemma Open_container (path : string) (w w1 : World) (doc : DOCX) :
  Open path w = (Ok doc, w1) ->
  exists members,
    files w path = Some (Zip members)
    /\ FilePath doc = path /\ FileData_ doc = Zip members.
Proof.
  unfold Open, os.ReadFile.
  destruct (files w path) as [[members|bytes]|]; cbn [NewReader];
    try discriminate.
  rewrite docx_facts.New_eq. intros H. exists members.
  split; [reflexivity|].
  destruct (findFile members corePropertiesPath) as [f| | |];
    try discriminate; [|inversion H; subst; split; reflexivity].
  destruct (readZipFile f) as [data| | |];
    try discriminate; [|inversion H; subst; split; reflexivity].
  destruct (extractDublinCore data (time.tick w)) as [[dc| | |] w2];
    try discriminate; inversion H; subst; split; reflexivity.
Qed.

(** X8.  [Open] writes nothing.  Whatever it returns, the files, the
    permissions and the clock are what they were (only readings of the clock
    are taken).  A container it returns holds the path it was given and the
    bytes of the file at that path, which are those of an archive; for a
    path with no file it returns the error of the read, wrapped. *)
Theorem Open_reads_only (path : string) (w : World) :
  same_store w (snd (Open path w))
  /\ (forall doc, fst (Open path w) = Ok doc ->
        FilePath doc = path
        /\ exists members,
             files w path = Some (Zip members)
             /\ FileData_ doc = Zip members)
  /\ (files w path = None ->
      Open path w
      = (Err (wrap "failed to read file"
                ("open " ++ path ++ ": no such file or directory")), w)).
Proof.
  split; [apply editor_facts.Open_store|]. split.
  - intros doc H. destruct (Open path w) as [r w1] eqn:E.
    cbn [fst] in H. subst r.
    destruct (Open_container _ _ _ _ E) as (ms & H1 & H2 & H3).
    split; [assumption|]. exists ms. auto.
  - intros H. unfold Open, os.ReadFile. now rewrite H.
Qed.

Lemma Open_reads_only_witness :
  Open "missing.docx" (samples.world_with (NotZip ""))
  = (Err "failed to read file: open missing.docx: no such file or directory",
     samples.world_with (NotZip "")).
Proof.
  refine (proj2 (proj2 (Open_reads_only "missing.docx"
                          (samples.world_with (NotZip "")))) _).
  reflexivity.
Defined.

Lemma copy_error_readZipFile (f : zip.File) (e : string) :
  copy_error f = Some e -> readZipFile f = Err e.
Proof.
  unfold copy_error, readZipFile, zip.ReadAll.
  destruct (zip.Open f) as [rc|e']; [|congruence].
  destruct (zip.failure rc); congruence.
Qed.

(** X9.  A metadata entry that cannot be read is passed over.  When the
    first member named [docProps/core.xml] cannot be opened, or reading it
    breaks off, [Open] succeeds all the same and the record of the container
    is the default one. *)
Theorem Open_with_unreadable_core_properties
  (w : World) (path : string) (members : list zip.File) (f : zip.File)
  (e : string) :
  files w path = Some (Zip members) ->
  findFile members corePropertiesPath = Ok f ->
  copy_error f = Some e ->
  Open path w
  = (Ok (container path (Zip members) (default (time.reading w))),
     time.tick w).
Proof.
  intros Hfile Hfind Herr. unfold Open, os.ReadFile.
  rewrite Hfile. cbn [NewReader]. rewrite docx_facts.New_eq, Hfind.
  now rewrite (copy_error_readZipFile _ _ Herr).
Qed.

Lemma Open_with_unreadable_core_properties_witness :
  Open "cv.docx"
    (samples.world_with
       (Zip [samples.content_types; samples.sealed_core;
             samples.document_xml]))
  = (Ok (container "cv.docx"
           (Zip [samples.content_types; samples.sealed_core;
                 samples.document_xml])
           (default "2024-05-01T10:00:00Z")),
     time.tick
       (samples.world_with
          (Zip [samples.content_types; samples.sealed_core;
                samples.document_xml]))).
Proof.
  refine (Open_with_unreadable_core_properties
            (samples.world_with
               (Zip [samples.content_types; samples.sealed_core;
                     samples.document_xml]))
            "cv.docx" _ samples.sealed_core
            "zip: unsupported compression algorithm" _ _ _);
    reflexivity.
Defined.

End open_facts.

(** ** The edit command: what gets written *)

Module edit_facts.
Import string_facts dublincore docx editor.

Lemma backup_differs (path : string) : path ++ ".backup" <> path.
Proof.
  intros H. apply (f_equal String.length) in H.
  rewrite length_append in H. simpl in H. lia.
Qed.

Lemma destination_own (d : DOCX) : destination d (FilePath d) = FilePath d.
Proof.
  unfold destination. destruct (String.eqb (FilePath d) "") eqn:E;
    reflexivity.
Qed.

Lemma destination_given (d : DOCX) (outputPath : string) :
  outputPath <> "" -> destination d outputPath = outputPath.
Proof.
  intros H. unfold destination. apply String.eqb_neq in H. now rewrite H.
Qed.

(** X10.  No backup, no save.  When [editWithTUI] is run without an output
    path and the backup file cannot be written, nothing is written at all,
    however the form ends: the files and the permissions are what they
    were. *)
Theorem no_backup_no_save (filePath : string) (s : ui.session) (w : World) :
  creatable w (filePath ++ ".backup") = false ->
  same_store w (snd (editWithTUI filePath "" s w)).
Proof.
  intros Hb. unfold editWithTUI.
  pose proof (editor_facts.Open_store filePath w) as Hs.
  destruct (Open filePath w) as [[doc| | |] w1]; cbn [snd] in *;
    try exact Hs.
  destruct (ui.RunEditor (DublinCore_ doc) s) as [[u c]| | |];
    try exact Hs.
  destruct c; [exact Hs|].
  destruct (negb _); [exact Hs|].
  cbn [String.eqb].
  assert (Hb1 : creatable w1 (filePath ++ ".backup") = false).
  { destruct Hs as (_ & _ & ->). exact Hb. }
  unfold createBackup, os.WriteFile.
  destruct (os.ReadFile filePath w1); cbn [snd]; try exact Hs.
  rewrite Hb1. exact Hs.
Qed.

Lemma no_backup_no_save_witness :
  files
    (snd (editWithTUI "cv.docx" "" (ui.Submitted samples.titled)
            (samples.world_without_backup
               (Zip (samples.archive_with samples.core_old)))))
  = files
      (samples.world_without_backup
         (Zip (samples.archive_with samples.core_old))).
Proof.
  refine (proj1 (proj2 (no_backup_no_save "cv.docx"
                          (ui.Submitted samples.titled)
                          (samples.world_without_backup
                             (Zip (samples.archive_with samples.core_old)))
                          _))).
  reflexivity.
Defined.

(** X11.  Only a submitted form leads to a write.  When the form is
    cancelled, ends without being submitted, or fails, [editWithTUI] leaves
    the files and the permissions as they were, with or without an output
    path. *)
Theorem only_a_submitted_form_is_saved
  (filePath outputPath : string) (s : ui.session) (w : World) :
  (forall m, s <> ui.Submitted m) ->
  same_store w (snd (editWithTUI filePath outputPath s w)).
Proof.
  intros Hs. unfold editWithTUI.
  pose proof (editor_facts.Open_store filePath w) as Ho.
  destruct (Open filePath w) as [[doc| | |] w1]; cbn [snd] in *;
    try exact Ho.
  destruct s as [m| | |e]; cbn [ui.RunEditor]; try exact Ho.
  - exfalso. exact (Hs m eq_refl).
  - replace (hasChanges (snapshot (DublinCore_ doc)) (DublinCore_ doc))
      with false; [exact Ho|].
    symmetry. apply editor_facts.hasChanges_false. repeat split.
Qed.

Lemma only_a_submitted_form_is_saved_witness :
  files
    (snd (editWithTUI "cv.docx" "" ui.Cancelled
            (samples.world_with (Zip (samples.archive_with samples.core_old)))))
  = files (samples.world_with (Zip (samples.archive_with samples.core_old))).
Proof.
  refine (proj1 (proj2 (only_a_submitted_form_is_saved "cv.docx" ""
                          ui.Cancelled
                          (samples.world_with
                             (Zip (samples.archive_with samples.core_old)))
                          _))).
  intros m. discriminate.
Defined.

(** X12.  Editing in place keeps a backup.  When the file opens, the
    submitted form changes something the comparison sees, the members of the
    archive can be read and both the backup and the file can be written,
    [editWithTUI] without an output path succeeds; afterwards the file
    [<path>.backup] holds the bytes the file had, the file holds the archive
    with the metadata entry replaced by the serialized record of the form,
    and every other file is what it was. *)
Theorem edit_in_place_keeps_a_backup
  (filePath : string) (m : ui.inputs) (w : World)
  (members : list zip.File) (doc : DOCX) :
  files w filePath = Some (Zip members) ->
  fst (Open filePath w) = Ok doc ->
  hasChanges (snapshot (DublinCore_ doc))
    (ui.updateDublinCoreFromInputs m (DublinCore_ doc)) = true ->
  creatable w (filePath ++ ".backup") = true ->
  creatable w filePath = true ->
  (forall g, In g members -> other g = true -> readable g) ->
  let updated := ui.updateDublinCoreFromInputs m (DublinCore_ doc) in
  let w' := snd (editWithTUI filePath "" (ui.Submitted m) w) in
  fst (editWithTUI filePath "" (ui.Submitted m) w) = Ok tt
  /\ files w' (filePath ++ ".backup") = Some (Zip members)
  /\ files w' filePath
     = Some (Zip (map (saved_member (core_xml updated)) members))
  /\ (forall p, p <> filePath -> p <> filePath ++ ".backup" ->
                files w' p = files w p).
Proof.
  intros Hfile Hopen Hchg Hcb Hcp Hread updated w'. subst w'.
  unfold editWithTUI.
  pose proof (editor_facts.Open_store filePath w) as (_ & Hf & Hc).
  destruct (Open filePath w) as [r w1] eqn:EO. cbn [fst snd] in *.
  subst r.
  destruct (open_facts.Open_container _ _ _ _ EO)
    as (ms & Hms & Hpath & Hdata).
  rewrite Hfile in Hms. injection Hms as <-.
  cbn [ui.RunEditor].
  change (ui.updateDublinCoreFromInputs m (DublinCore_ doc)) with updated
    in Hchg |- *.
  rewrite Hchg. cbn [negb String.eqb].
  unfold createBackup, os.ReadFile, os.WriteFile.
  rewrite Hf, Hfile, Hc, Hcb.
  set (w2 := os.write (filePath ++ ".backup") (Zip members) w1).
  set (doc' := {| FilePath := FilePath doc; DublinCore_ := updated;
                  FileData_ := FileData_ doc |}).
  assert (Hdest : destination doc' filePath = filePath).
  { rewrite <- Hpath. exact (destination_own doc'). }
  destruct (docx_facts.Save_writes doc' filePath w2 members Hdata)
    as (written & HS & Hw & _).
  { rewrite Hdest. subst w2. cbn [os.write creatable]. now rewrite Hc. }
  { exact Hread. }
  rewrite HS, Hdest. subst written. cbn [fst snd DublinCore_ doc'].
  split; [reflexivity|].
  split.
  { rewrite save_facts.files_write_other by apply backup_differs.
    subst w2. apply save_facts.files_write. }
  split; [apply save_facts.files_write|].
  intros p H1 H2.
  rewrite save_facts.files_write_other by assumption.
  subst w2. rewrite save_facts.files_write_other by assumption.
  now rewrite Hf.
Qed.

Lemma edit_in_place_keeps_a_backup_witness :
  let w := samples.world_with (Zip (samples.archive_with samples.core_old)) in
  let w' := snd (editWithTUI "cv.docx" "" (ui.Submitted samples.titled) w) in
  files w' "cv.docx.backup" = Some (Zip (samples.archive_with samples.core_old))
  /\ files w' "cv.docx"
     = Some (Zip (samples.archive_with
                    (core_xml (set FTitle ["New Role"]
                                 (default "2024-05-01T10:00:01Z"))))).
Proof.
  intros w w'.
  destruct (edit_in_place_keeps_a_backup "cv.docx" samples.titled w
              (samples.archive_with samples.core_old)
              (container "cv.docx"
                 (Zip (samples.archive_with samples.core_old))
                 (set FTitle ["Old"] (default "2024-05-01T10:00:01Z"))))
    as (_ & H2 & H3 & _).
  - reflexivity.
  - vm_compute. reflexivity.
  - vm_compute. reflexivity.
  - reflexivity.
  - reflexivity.
  - intros g Hin _. simpl in Hin.
    destruct Hin as [<- | [<- | [<- | []]]]; apply docx_facts.stored_readable.
  - unfold w'. split; [exact H2|]. rewrite H3. reflexivity.
Defined.

(** X13.  Editing to an output path leaves the source alone.  Under the
    same conditions but with an output path that can be created,
    [editWithTUI] writes the new archive to that path and changes no other
    file: no backup is made, and when the output path is not the source
    path the source is what it was. *)
Theorem edit_to_output_leaves_the_source
  (filePath outputPath : string) (m : ui.inputs) (w : World)
  (members : list zip.File) (doc : DOCX) :
  files w filePath = Some (Zip members) ->
  fst (Open filePath w) = Ok doc ->
  hasChanges (snapshot (DublinCore_ doc))
    (ui.updateDublinCoreFromInputs m (DublinCore_ doc)) = true ->
  outputPath <> "" ->
  creatable w outputPath = true ->
  (forall g, In g members -> other g = true -> readable g) ->
  let updated := ui.updateDublinCoreFromInputs m (DublinCore_ doc) in
  let w' := snd (editWithTUI filePath outputPath (ui.Submitted m) w) in
  fst (editWithTUI filePath outputPath (ui.Submitted m) w) = Ok tt
  /\ files w' outputPath
     = Some (Zip (map (saved_member (core_xml updated)) members))
  /\ (forall p, p <> outputPath -> files w' p = files w p).
Proof.
  intros Hfile Hopen Hchg Hout Hco Hread updated w'. subst w'.
  unfold editWithTUI.
  pose proof (editor_facts.Open_store filePath w) as (_ & Hf & Hc).
  destruct (Open filePath w) as [r w1] eqn:EO. cbn [fst snd] in *.
  subst r.
  destruct (open_facts.Open_container _ _ _ _ EO)
    as (ms & Hms & Hpath & Hdata).
  rewrite Hfile in Hms. injection Hms as <-.
  cbn [ui.RunEditor].
  change (ui.updateDublinCoreFromInputs m (DublinCore_ doc)) with updated
    in Hchg |- *.
  rewrite Hchg. cbn [negb].
  pose proof Hout as Hne. apply String.eqb_neq in Hne. rewrite Hne.
  set (doc' := {| FilePath := FilePath doc; DublinCore_ := updated;
                  FileData_ := FileData_ doc |}).
  pose proof (destination_given doc' outputPath Hout) as Hdest.
  destruct (docx_facts.Save_writes doc' outputPath w1 members Hdata)
    as (written & HS & Hw & _).
  { rewrite Hdest, Hc. exact Hco. }
  { exact Hread. }
  rewrite HS, Hdest. subst written. cbn [fst snd DublinCore_ doc'].
  split; [reflexivity|].
  split; [apply save_facts.files_write|].
  intros p H1.
  rewrite save_facts.files_write_other by assumption.
  now rewrite Hf.
Qed.

Lemma edit_to_output_leaves_the_source_witness :
  let w := samples.world_with (Zip (samples.archive_with samples.core_old)) in
  let w' :=
    snd (editWithTUI "cv.docx" "out.docx" (ui.Submitted samples.titled) w) in
  files w' "cv.docx" = Some (Zip (samples.archive_with samples.core_old))
  /\ files w' "cv.docx.backup" = None.
Proof.
  intros w w'.
  destruct (edit_to_output_leaves_the_source "cv.docx" "out.docx"
              samples.titled w
              (samples.archive_with samples.core_old)
              (container "cv.docx"
                 (Zip (samples.archive_with samples.core_old))
                 (set FTitle ["Old"] (default "2024-05-01T10:00:01Z"))))
    as (_ & _ & H3).
  - reflexivity.
  - vm_compute. reflexivity.
  - vm_compute. reflexivity.
  - discriminate.
  - reflexivity.
  - intros g Hin _. simpl in Hin.
    destruct Hin as [<- | [<- | [<- | []]]]; apply docx_facts.stored_readable.
  - unfold w'. split; (rewrite H3; [reflexivity | discriminate]).
Defined.

End edit_facts.

(** ** The form: what a submit does to the record *)

Module form_facts.
Import string_facts dublincore ui.



























Lemma filled_nonempty (v p : string) : filled v p = true -> v <> "".
Proof.
  unfold filled. rewrite andb_true_iff, negb_true_iff.
  intros (H & _). now apply String.eqb_neq.
Qed.









Lemma pieces_nonempty (input : string) :
  Forall (fun s => s <> "") (pieces input).
Proof.
  unfold pieces. apply Forall_forall. intros s Hs.
  apply filter_In in Hs as (_ & Hs).
  apply negb_true_iff in Hs. now apply String.eqb_neq.
Qed.

(** X16.  The form writes five fields.  Whatever the inputs hold, after
    [updateDublinCoreFromInputs] the category is ["curriculo"], and the
    subject, the publisher, the contributor, the date, the type, the format,
    the identifier, the source, the language, the relation, the coverage, the
    rights and the XML name of the record are what they were. *)
Theorem form_changes_five_fields (m : inputs) (dc : DublinCore) :
  let dc' := updateDublinCoreFromInputs m dc in
  Category dc' = ["curriculo"]
  /\ XMLName dc' = XMLName dc
  /\ (forall f,
        In f [FSubject; FPublisher; FContributor; FDate; FType; FFormat;
              FIdentifier; FSource; FLanguage; FRelation; FCoverage;
              FRights] ->
        get f dc' = get f dc).
Proof.
  unfold updateDublinCoreFromInputs. cbv zeta.
  repeat match goal with
  | |- context [if filled ?a ?b then _ else _] => destruct (filled a b)
  end;
  (split; [reflexivity|]; split; [reflexivity|];
   intros f Hf; cbn [In] in Hf;
   repeat (destruct Hf as [<- | Hf]; [reflexivity|]); destruct Hf).
Qed.

Lemma form_changes_five_fields_witness :
  get FDate (updateDublinCoreFromInputs samples.titled samples.tidy) = ["t"].
Proof.
  refine (proj2 (proj2 (form_changes_five_fields samples.titled
                          samples.tidy)) FDate _).
  simpl. auto.
Defined.

(** X17.  The form never stores an empty value.  After
    [updateDublinCoreFromInputs] the title is what it was or one non-empty
    string, and so is the description: neither can be cleared through the
    form.  The creators are what they were or a list without an empty
    string (possibly the empty list), and so are the keywords. *)
Theorem form_sets_no_empty_value (m : inputs) (dc : DublinCore) :
  let dc' := updateDublinCoreFromInputs m dc in
  (Title dc' = Title dc \/ exists t, t <> "" /\ Title dc' = [t])
  /\ (Description dc' = Description dc
      \/ exists t, t <> "" /\ Description dc' = [t])
  /\ (Creator dc' = Creator dc \/ Forall (fun c => c <> "") (Creator dc'))
  /\ (Keywords dc' = Keywords dc \/ Forall (fun k => k <> "") (Keywords dc')).
Proof.
  unfold updateDublinCoreFromInputs. cbv zeta.
  destruct (filled (strings.TrimSpace (title_input m)) title_placeholder)
    eqn:ET;
  destruct (filled (strings.TrimSpace (creator_input m)) creator_placeholder)
    eqn:EC;
  destruct (filled (strings.TrimSpace (keywords_input m))
              keywords_placeholder) eqn:EK;
  destruct (filled (strings.TrimSpace (description_input m))
              description_placeholder) eqn:ED;
  (split; [first [left; reflexivity
                 | right; eexists; split;
                   [exact (filled_nonempty _ _ ET) | reflexivity]]|];
   split; [first [left; reflexivity
                 | right; eexists; split;
                   [exact (filled_nonempty _ _ ED) | reflexivity]]|];
   split; first [left; reflexivity | right; apply pieces_nonempty]).
Qed.

Lemma blank_not_filled (v p : string) :
  blank v p = true -> filled (strings.TrimSpace v) p = false.
Proof. unfold blank. now rewrite negb_true_iff. Qed.

(** X18.  A blank form is never saved.  When each of the four inputs is
    empty once trimmed, or holds its placeholder, the submit sets the
    category and nothing else, the comparison (which leaves the category out)
    finds no change, and [editWithTUI] writes nothing: a category other than
    ["curriculo"] stays in the file. *)
Theorem blank_form_is_never_saved
  (m : inputs) (filePath outputPath : string) (w : World) :
  blank (title_input m) title_placeholder = true ->
  blank (creator_input m) creator_placeholder = true ->
  blank (keywords_input m) keywords_placeholder = true ->
  blank (description_input m) description_placeholder = true ->
  (forall dc, updateDublinCoreFromInputs m dc = SetCategory dc)
  /\ docx.same_store w
       (snd (editor.editWithTUI filePath outputPath (Submitted m) w)).
Proof.
  intros HT HC HK HD.
  apply blank_not_filled in HT, HC, HK, HD.
  assert (E : forall dc, updateDublinCoreFromInputs m dc = SetCategory dc).
  { intros dc. unfold updateDublinCoreFromInputs. cbv zeta.
    now rewrite HT, HC, HK, HD. }
  split; [exact E|].
  unfold editor.editWithTUI.
  pose proof (editor_facts.Open_store filePath w) as Ho.
  destruct (docx.Open filePath w) as [[doc| | |] w1]; cbn [snd] in *;
    try exact Ho.
  cbn [RunEditor]. rewrite E.
  replace (editor.hasChanges (editor.snapshot (docx.DublinCore_ doc))
             (SetCategory (docx.DublinCore_ doc))) with false;
    [exact Ho|].
  symmetry. apply editor_facts.hasChanges_false. repeat split.
Qed.

Lemma blank_form_is_never_saved_witness :
  files
    (snd (editor.editWithTUI "cv.docx" "" (Submitted samples.untouched)
            (samples.world_with (Zip (samples.archive_with samples.core_bar)))))
  = files (samples.world_with (Zip (samples.archive_with samples.core_bar))).
Proof.
  refine (proj1 (proj2 (proj2 (blank_form_is_never_saved samples.untouched
                                 "cv.docx" ""
                                 (samples.world_with
                                    (Zip (samples.archive_with
                                            samples.core_bar)))
                                 _ _ _ _))));
    reflexivity.
Defined.

End form_facts.

(** ** The mutation API: how calls compose *)

Module api_facts.
Import dublincore.

Lemma calls_snoc (ms : list mutation) (m : mutation) (dc : DublinCore) :
  calls (ms ++ [m]) dc = call m (calls ms dc).
Proof. unfold calls. now rewrite fold_left_app. Qed.

(** X19.  Calls of the mutation API compose field by field.  After any
    sequence of calls the creators are those the record had followed by the
    ones added, in the order of the calls; likewise the keywords; the title
    and the description are those of the last call that set them, or what
    the record had; and no call touches any of the twelve other fields or
    the XML name. *)
Theorem calls_accumulate (ms : list mutation) (dc : DublinCore) :
  let dc' := calls ms dc in
  Creator dc' = (Creator dc ++ added_creators ms)%list
  /\ Keywords dc' = (Keywords dc ++ added_keywords ms)%list
  /\ Title dc' = last_title ms (Title dc)
  /\ Description dc' = last_description ms (Description dc)
  /\ XMLName dc' = XMLName dc
  /\ (forall f,
        In f [FSubject; FPublisher; FContributor; FDate; FType; FFormat;
              FIdentifier; FSource; FLanguage; FRelation; FCoverage;
              FRights] ->
        get f dc' = get f dc).
Proof.
  cbv zeta. revert dc. induction ms as [|m ms IH]; intros dc.
  - cbn. rewrite !app_nil_r. repeat split.
  - change (calls (m :: ms) dc) with (calls ms (call m dc)).
    destruct (IH (call m dc)) as (H1 & H2 & H3 & H4 & H5 & H6).
    rewrite H1, H2, H3, H4, H5.
    split; [|split; [|split; [|split; [|split]]]].
    + destruct m; cbn; rewrite <- ?app_assoc; reflexivity.
    + destruct m; cbn; rewrite <- ?app_assoc; reflexivity.
    + destruct m; reflexivity.
    + destruct m; reflexivity.
    + destruct m; reflexivity.
    + intros f Hf. rewrite (H6 f Hf). cbn [In] in Hf.
      destruct m;
        repeat (destruct Hf as [<- | Hf]; [reflexivity|]); destruct Hf.
Qed.

Lemma calls_accumulate_witness :
  get FDate
    (calls [CallAddCreator "Ana"; CallSetTitle "A"; CallAddCreator "Rui"]
       samples.tidy)
  = ["t"].
Proof.
  refine (proj2 (proj2 (proj2 (proj2 (proj2
            (calls_accumulate
               [CallAddCreator "Ana"; CallSetTitle "A"; CallAddCreator "Rui"]
               samples.tidy))))) FDate _).
  simpl. auto.
Defined.

End api_facts.

(** ** The substring fallback on tags that are not repeated *)

Module extract_facts.
Import string_facts dublincore docx.

Lemma HasPrefix_split (s p : string) :
  strings.HasPrefix s p = true ->
  s = p ++ strings.drop (String.length p) s.
Proof.
  revert s. induction p as [|c p IH]; intros s H; [reflexivity|].
  destruct s as [|d s]; [discriminate|].
  cbn [strings.HasPrefix] in H. apply andb_true_iff in H as (H1 & H2).
  apply Ascii.eqb_eq in H1. subst d. cbn. f_equal. now apply IH.
Qed.

Lemma HasPrefix_length (s p : string) :
  strings.HasPrefix s p = true -> (String.length p <= String.length s)%nat.
Proof.
  intros H. apply HasPrefix_split in H.
  apply (f_equal String.length) in H. rewrite length_append in H. lia.
Qed.

Lemma HasPrefix_app (p rest : string) :
  strings.HasPrefix (p ++ rest) p = true.
Proof.
  induction p as [|c p IH]; cbn.
  - destruct rest; reflexivity.
  - now rewrite Ascii.eqb_refl.
Qed.

Lemma HasPrefix_weaken (a b p : string) :
  strings.HasPrefix a p = true -> strings.HasPrefix (a ++ b) p = true.
Proof.
  intros H. apply HasPrefix_split in H. rewrite H, append_assoc.
  apply HasPrefix_app.
Qed.

Lemma drop_drop (a b : nat) (s : string) :
  strings.drop a (strings.drop b s) = strings.drop (b + a) s.
Proof.
  revert s. induction b as [|b IH]; intros s; [reflexivity|].
  destruct s as [|c s]; cbn.
  - destruct a; reflexivity.
  - apply IH.
Qed.

Lemma take_drop (n : nat) (s : string) :
  s = strings.take n s ++ strings.drop n s.
Proof.
  revert s. induction n as [|n IH]; intros s; [reflexivity|].
  destruct s as [|c s]; [reflexivity|]. cbn. f_equal. apply IH.
Qed.

Lemma drop_app (a b : string) :
  strings.drop (String.length a) (a ++ b) = b.
Proof. induction a as [|c a IH]; [reflexivity | exact IH]. Qed.

(** Where [index_nat] finds the substring, it is there; before, it is
    not. *)
Lemma index_nat_found (s sub : string) (n : nat) :
  strings.index_nat s sub = Some n ->
  strings.HasPrefix (strings.drop n s) sub = true
  /\ forall k, (k < n)%nat ->
               strings.HasPrefix (strings.drop k s) sub = false.
Proof.
  revert n. induction s as [|c s IH]; intros n; cbn [strings.index_nat].
  - destruct (strings.HasPrefix "" sub) eqn:E; [|discriminate].
    intros H; inversion H; subst. split; [exact E | lia].
  - destruct (strings.HasPrefix (String c s) sub) eqn:E.
    + intros H; inversion H; subst. split; [exact E | lia].
    + destruct (strings.index_nat s sub) as [m|]; [|discriminate].
      intros H; inversion H; subst. destruct (IH m eq_refl) as (H1 & H2).
      split; [exact H1|]. intros [|k] Hk; [exact E|].
      cbn. apply H2. lia.
Qed.

Lemma index_nat_least (s sub : string) (k : nat) :
  (k <= String.length s)%nat ->
  strings.HasPrefix (strings.drop k s) sub = true ->
  exists n, strings.index_nat s sub = Some n /\ (n <= k)%nat.
Proof.
  revert k. induction s as [|c s IH]; intros k Hk H;
    cbn [strings.index_nat].
  - destruct k; cbn [strings.drop] in H; rewrite H; exists O; split; auto;
      lia.
  - destruct (strings.HasPrefix (String c s) sub) eqn:E.
    + exists O. split; [reflexivity | lia].
    + destruct k as [|k]; [cbn [strings.drop] in H; congruence|].
      cbn [strings.drop] in H. cbn [String.length] in Hk. destruct (IH k) as (n & -> & Hn); [lia | exact H|].
      exists (S n). split; [reflexivity | lia].
Qed.

Lemma occurrences_none (s sub : string) :
  occurrences s sub = O -> strings.index_nat s sub = None.
Proof.
  induction s as [|c s IH]; cbn [occurrences strings.index_nat].
  - destruct (strings.HasPrefix "" sub); [discriminate | reflexivity].
  - destruct (strings.HasPrefix (String c s) sub); [discriminate|].
    cbn. intros H. now rewrite IH.
Qed.

Lemma occurrences_drop (k : nat) (s sub : string) :
  (k <= String.length s)%nat ->
  (occurrences (strings.drop k s) sub <= occurrences s sub)%nat.
Proof.
  revert s. induction k as [|k IH]; intros s Hk; [cbn; lia|].
  destruct s as [|c s]; [cbn in Hk; lia|].
  cbn [strings.drop occurrences]. cbn in Hk.
  specialize (IH s ltac:(lia)). lia.
Qed.

Lemma occurrences_after (s sub : string) (n : nat) :
  sub <> "" ->
  strings.index_nat s sub = Some n ->
  (1 + occurrences (strings.drop (S n) s) sub <= occurrences s sub)%nat.
Proof.
  intros Hsub. revert n. induction s as [|c s IH]; intros n;
    cbn [strings.index_nat occurrences].
  - destruct (strings.HasPrefix "" sub) eqn:E; [|discriminate].
    destruct sub; [congruence | discriminate].
  - destruct (strings.HasPrefix (String c s) sub) eqn:E.
    + intros H; inversion H; subst. cbn. lia.
    + destruct (strings.index_nat s sub) as [m|]; [|discriminate].
      intros H; inversion H; subst. specialize (IH m eq_refl).
      cbn [strings.drop] in *. lia.
Qed.

(** A substring that occurs at most once does not occur after its first
    occurrence. *)
Lemma single_occurrence (s sub : string) (n k : nat) :
  sub <> "" ->
  strings.index_nat s sub = Some n ->
  (occurrences s sub <= 1)%nat ->
  (n < k <= String.length s)%nat ->
  strings.index_nat (strings.drop k s) sub = None.
Proof.
  intros Hsub Hn Hocc Hk. apply occurrences_none.
  pose proof (occurrences_after s sub n Hsub Hn) as H1.
  replace k with (S n + (k - S n))%nat by lia.
  rewrite <- drop_drop.
  assert (Hlen : (S n <= String.length s)%nat) by lia.
  pose proof (occurrences_drop (k - S n) (strings.drop (S n) s) sub) as H2.
  rewrite loop_facts.length_drop in H2. specialize (H2 ltac:(lia)). lia.
Qed.


Lemma take_all (n : nat) (s : string) :
  (String.length s <= n)%nat -> strings.take n s = s.
Proof.
  revert s. induction n as [|n IH]; intros s H.
  - destruct s; [reflexivity | cbn in H; lia].
  - destruct s as [|c s]; [reflexivity|]. cbn in *. f_equal. apply IH. lia.
Qed.

Lemma slice_nat (s : string) (a b : nat) :
  (a <= b <= String.length s)%nat ->
  strings.slice s (Z.of_nat a) (Z.of_nat b)
  = Ok (strings.take (b - a) (strings.drop a s)).
Proof.
  intros H. unfold strings.slice.
  replace ((0 <=? Z.of_nat a) && (Z.of_nat a <=? Z.of_nat b)
           && (Z.of_nat b <=? strings.len s)) with true
    by (symmetry; rewrite !andb_true_iff, !Z.leb_le; unfold strings.len;
        lia).
  replace (Z.to_nat (Z.of_nat b - Z.of_nat a)) with (b - a)%nat by lia.
  now rewrite Nat2Z.id.
Qed.

Lemma slice_from_nat (s : string) (a : nat) :
  (a <= String.length s)%nat ->
  strings.slice_from s (Z.of_nat a) = Ok (strings.drop a s).
Proof.
  intros H. unfold strings.slice_from, strings.len.
  rewrite slice_nat by lia. f_equal. apply take_all.
  rewrite loop_facts.length_drop. lia.
Qed.

Lemma drop_app_le (k : nat) (a b : string) :
  (k <= String.length a)%nat ->
  strings.drop k (a ++ b) = strings.drop k a ++ b.
Proof.
  revert a. induction k as [|k IH]; intros a H; [reflexivity|].
  destruct a as [|c a]; [cbn in H; lia|]. cbn in *. apply IH. lia.
Qed.

Lemma no_char_cons (x a : ascii) (c : string) :
  strings.Index (String a c) (String x "") = -1 ->
  Ascii.eqb x a = false /\ strings.Index c (String x "") = -1.
Proof.
  unfold strings.Index. cbn [strings.index_nat strings.HasPrefix].
  replace (strings.HasPrefix c "") with true by (destruct c; reflexivity).
  destruct (Ascii.eqb x a); cbn [andb]; [discriminate|].
  destruct (strings.index_nat c (String x "")); cbn [option_map]; [lia|].
  split; reflexivity.
Qed.

(** No start of a tag inside a tag name or at the bracket that closes
    it. *)
Lemma no_tag_start_inside (tag rest p : string) (k : nat) :
  strings.Index tag "<" = -1 ->
  (k <= String.length tag)%nat ->
  strings.HasPrefix (strings.drop k (tag ++ String ">" rest)) (String "<" p)
  = false.
Proof.
  revert k. induction tag as [|c t IH]; intros k Ht Hk.
  - cbn in Hk. replace k with O by lia. reflexivity.
  - apply no_char_cons in Ht as (Hc & Ht).
    destruct k as [|k].
    + cbn [strings.drop append strings.HasPrefix]. now rewrite Hc.
    + cbn [strings.drop append String.length] in *.
      apply IH; [assumption | lia].
Qed.

(** The end tag is found past the start tag the text begins with. *)
Lemma end_after_start (tag y : string) (e : nat) :
  strings.Index tag "<" = -1 ->
  strings.HasPrefix tag "/" = false ->
  strings.HasPrefix y ("<" ++ tag ++ ">") = true ->
  strings.index_nat y ("</" ++ tag ++ ">") = Some e ->
  (String.length ("<" ++ tag ++ ">") <= e)%nat.
Proof.
  intros Ht Hs Hy He.
  apply index_nat_found in He as (He & _).
  apply HasPrefix_split in Hy.
  set (y' := strings.drop (String.length ("<" ++ tag ++ ">")) y) in Hy.
  destruct (Nat.le_gt_cases (String.length ("<" ++ tag ++ ">")) e)
    as [|Hlt]; [assumption|].
  exfalso. rewrite Hy in He.
  change (("<" ++ tag ++ ">") ++ y') with (String "<" ((tag ++ ">") ++ y'))
    in He.
  rewrite append_assoc in He.
  change (">" ++ y') with (String ">" y') in He.
  change ("</" ++ tag ++ ">") with (String "<" (String "/" (tag ++ ">")))
    in He.
  cbn [append String.length] in Hlt. rewrite length_append in Hlt.
  cbn [String.length] in Hlt.
  destruct e as [|k].
  - cbn [strings.drop append strings.HasPrefix] in He.
    apply andb_true_iff in He as (_ & He).
    destruct tag as [|c t]; [discriminate He|].
    cbn [append strings.HasPrefix] in He, Hs.
    apply andb_true_iff in He as (He & _).
    rewrite He in Hs. cbn [andb] in Hs.
    destruct t; discriminate Hs.
  - cbn [strings.drop] in He.
    rewrite (no_tag_start_inside tag y' _ k Ht) in He by lia.
    discriminate.
Qed.


Lemma loop_done (fuel : nat) (xmlStr startTag endTag : string)
  (values : list string) :
  extractField_loop fuel xmlStr startTag endTag (-1) values = Ok values.
Proof. destruct fuel; reflexivity. Qed.

Lemma index_nat_fits (s sub : string) (n : nat) :
  strings.index_nat s sub = Some n ->
  (n + String.length sub <= String.length s)%nat.
Proof.
  intros H. pose proof (loop_facts.index_nat_bound _ _ _ H) as Hn.
  apply index_nat_found in H as (H & _).
  apply HasPrefix_length in H. rewrite loop_facts.length_drop in H. lia.
Qed.

Lemma loop_step (fuel : nat) (xmlStr startTag endTag : string)
  (start : Z) (values : list string) :
  extractField_loop (S fuel) xmlStr startTag endTag start values
  = if start =? -1 then Ok values
    else
      rest <- strings.slice_from xmlStr start ;;
      let end_ := strings.Index rest endTag in
      if end_ =? -1 then Ok values
      else
        value <- strings.slice xmlStr (start + strings.len startTag)
                   (start + end_) ;;
        let values' := (values ++ [strings.TrimSpace value])%list in
        rest' <- strings.slice_from xmlStr
                   (start + end_ + strings.len endTag) ;;
        let next := strings.Index rest' startTag in
        let start' :=
          if next =? -1 then next else next + end_ + strings.len endTag in
        extractField_loop fuel xmlStr startTag endTag start' values'.
Proof. reflexivity. Qed.

Lemma Index_Some (s sub : string) (n : nat) :
  strings.index_nat s sub = Some n -> strings.Index s sub = Z.of_nat n.
Proof. unfold strings.Index. now intros ->. Qed.

Lemma Index_None (s sub : string) :
  strings.index_nat s sub = None -> strings.Index s sub = -1.
Proof. unfold strings.Index. now intros ->. Qed.

(** What [extractField] gives for a tag that occurs at most once. *)
Lemma extractField_single (xmlStr tag : string) :
  strings.Index tag "<" = -1 ->
  strings.HasPrefix tag "/" = false ->
  (occurrences xmlStr ("<" ++ tag ++ ">") <= 1)%nat ->
  extractField xmlStr tag = Ok []
  \/ exists pre value post,
       xmlStr
       = pre ++ ("<" ++ tag ++ ">") ++ value ++ ("</" ++ tag ++ ">") ++ post
       /\ strings.Index value ("</" ++ tag ++ ">") = -1
       /\ extractField xmlStr tag = Ok [strings.TrimSpace value].
Proof.
  intros Ht Hs Hocc. unfold extractField.
  set (st := "<" ++ tag ++ ">") in *. set (et := "</" ++ tag ++ ">") in *.
  destruct (strings.index_nat xmlStr st) as [n|] eqn:En.
  2:{ left. rewrite (Index_None _ _ En). apply loop_done. }
  rewrite (Index_Some _ _ _ En).
  pose proof (index_nat_fits _ _ _ En) as Hfit.
  destruct (index_nat_found _ _ _ En) as (Hpre & _).
  rewrite Nat.add_comm. cbn [Nat.add]. rewrite loop_step.
  replace (Z.of_nat n =? -1) with false by (symmetry; apply Z.eqb_neq; lia).
  rewrite slice_from_nat by lia. cbn [bind]. cbv zeta.
  destruct (strings.index_nat (strings.drop n xmlStr) et) as [e|] eqn:Ee.
  2:{ left. rewrite (Index_None _ _ Ee). reflexivity. }
  rewrite (Index_Some _ _ _ Ee).
  right.
  pose proof (end_after_start tag _ e Ht Hs Hpre Ee) as Hlo.
  fold st in Hlo.
  pose proof (index_nat_fits _ _ _ Ee) as Hhi.
  rewrite loop_facts.length_drop in Hhi.
  destruct (index_nat_found _ _ _ Ee) as (Hend & Hfirst).
  replace (Z.of_nat e =? -1) with false by (symmetry; apply Z.eqb_neq; lia).
  replace (Z.of_nat n + strings.len st)
    with (Z.of_nat (n + String.length st)) by (unfold strings.len; lia).
  replace (Z.of_nat n + Z.of_nat e) with (Z.of_nat (n + e)) by lia.
  rewrite slice_nat by lia. cbn [bind].
  replace (Z.of_nat (n + e) + strings.len et)
    with (Z.of_nat (n + e + String.length et)) by (unfold strings.len; lia).
  rewrite slice_from_nat by lia. cbn [bind].
  assert (Het : (1 <= String.length et)%nat)
    by (unfold et; cbn [append String.length]; lia).
  rewrite (Index_None _ st
             (single_occurrence xmlStr st n (n + e + String.length et)
                ltac:(discriminate) En Hocc ltac:(lia))).
  cbn [Z.eqb]. rewrite loop_done. cbn [app].
  set (value := strings.take (n + e - (n + String.length st))
                  (strings.drop (n + String.length st) xmlStr)).
  assert (Hdec : strings.drop n xmlStr
                 = st ++ value ++ et
                   ++ strings.drop (n + e + String.length et) xmlStr).
  { rewrite (HasPrefix_split _ _ Hpre) at 1. f_equal.
    rewrite drop_drop.
    rewrite (take_drop (n + e - (n + String.length st))
               (strings.drop (n + String.length st) xmlStr)) at 1.
    fold value. f_equal. rewrite drop_drop.
    replace (n + String.length st + (n + e - (n + String.length st)))%nat
      with (n + e)%nat by lia.
    rewrite drop_drop in Hend.
    rewrite (HasPrefix_split _ _ Hend) at 1. f_equal.
    now rewrite drop_drop. }
  exists (strings.take n xmlStr), value,
    (strings.drop (n + e + String.length et) xmlStr).
  split; [|split; [|reflexivity]].
  - rewrite (take_drop n xmlStr) at 1. now rewrite Hdec.
  - destruct (strings.index_nat value et) as [k|] eqn:Ek;
      [|now apply Index_None].
    exfalso.
    pose proof (index_nat_fits _ _ _ Ek) as Hk.
    destruct (index_nat_found _ _ _ Ek) as (Hin & _).
    assert (Hlen : String.length value = (e - String.length st)%nat).
    { unfold value. rewrite loop_facts.length_take, loop_facts.length_drop.
      lia. }
    specialize (Hfirst (String.length st + k)%nat ltac:(lia)).
    rewrite Hdec, <- drop_drop, drop_app in Hfirst.
    rewrite drop_app_le in Hfirst by lia.
    rewrite (HasPrefix_weaken _ _ _ Hin) in Hfirst. discriminate.
Qed.


(** [extractField] on a tag that occurs at most once, by the offsets at
    which the start tag and the end tag after it are found. *)
Lemma extractField_at (xmlStr tag : string) :
  strings.Index tag "<" = -1 ->
  strings.HasPrefix tag "/" = false ->
  (occurrences xmlStr ("<" ++ tag ++ ">") <= 1)%nat ->
  extractField xmlStr tag
  = match strings.index_nat xmlStr ("<" ++ tag ++ ">") with
    | None => Ok []
    | Some n =>
        match strings.index_nat (strings.drop n xmlStr)
                ("</" ++ tag ++ ">") with
        | None => Ok []
        | Some e =>
            Ok [strings.TrimSpace
                  (strings.take (e - String.length ("<" ++ tag ++ ">"))
                     (strings.drop (n + String.length ("<" ++ tag ++ ">"))
                        xmlStr))]
        end
    end.
Proof.
  intros Ht Hs Hocc. unfold extractField.
  set (st := "<" ++ tag ++ ">") in *. set (et := "</" ++ tag ++ ">") in *.
  destruct (strings.index_nat xmlStr st) as [n|] eqn:En.
  2:{ rewrite (Index_None _ _ En). apply loop_done. }
  rewrite (Index_Some _ _ _ En).
  pose proof (index_nat_fits _ _ _ En) as Hfit.
  destruct (index_nat_found _ _ _ En) as (Hpre & _).
  rewrite Nat.add_comm. cbn [Nat.add]. rewrite loop_step.
  replace (Z.of_nat n =? -1) with false by (symmetry; apply Z.eqb_neq; lia).
  rewrite slice_from_nat by lia. cbn [bind]. cbv zeta.
  destruct (strings.index_nat (strings.drop n xmlStr) et) as [e|] eqn:Ee.
  2:{ rewrite (Index_None _ _ Ee). reflexivity. }
  rewrite (Index_Some _ _ _ Ee).
  pose proof (end_after_start tag _ e Ht Hs Hpre Ee) as Hlo.
  fold st in Hlo.
  pose proof (index_nat_fits _ _ _ Ee) as Hhi.
  rewrite loop_facts.length_drop in Hhi.
  replace (Z.of_nat e =? -1) with false by (symmetry; apply Z.eqb_neq; lia).
  replace (Z.of_nat n + strings.len st)
    with (Z.of_nat (n + String.length st)) by (unfold strings.len; lia).
  replace (Z.of_nat n + Z.of_nat e) with (Z.of_nat (n + e)) by lia.
  rewrite slice_nat by lia. cbn [bind].
  replace (Z.of_nat (n + e) + strings.len et)
    with (Z.of_nat (n + e + String.length et)) by (unfold strings.len; lia).
  rewrite slice_from_nat by lia. cbn [bind].
  assert (Het : (1 <= String.length et)%nat)
    by (unfold et; cbn [append String.length]; lia).
  rewrite (Index_None _ st
             (single_occurrence xmlStr st n (n + e + String.length et)
                ltac:(discriminate) En Hocc ltac:(lia))).
  cbn [Z.eqb]. rewrite loop_done. cbn [app].
  now replace (n + e - (n + String.length st))%nat
    with (e - String.length st)%nat by lia.
Qed.

Lemma take_app (a b : string) : strings.take (String.length a) (a ++ b) = a.
Proof. induction a as [|c a IH]; [reflexivity|]. cbn. now rewrite IH. Qed.

Lemma HasPrefix_inside (a b p : string) :
  strings.HasPrefix (a ++ b) p = true ->
  (String.length p <= String.length a)%nat ->
  strings.HasPrefix a p = true.
Proof.
  revert a. induction p as [|c p IH]; intros a H Hl.
  - destruct a; reflexivity.
  - destruct a as [|d a]; [cbn in Hl; lia|].
    cbn [append strings.HasPrefix] in *.
    apply andb_true_iff in H as (H1 & H2). rewrite H1. cbn [andb].
    apply IH; [exact H2 | cbn in Hl; lia].
Qed.

(** The only occurrence of a substring is the first. *)
Lemma index_nat_only (pre sub rest : string) :
  sub <> "" ->
  (occurrences (pre ++ sub ++ rest) sub <= 1)%nat ->
  strings.index_nat (pre ++ sub ++ rest) sub = Some (String.length pre).
Proof.
  intros Hsub Hocc.
  destruct (index_nat_least (pre ++ sub ++ rest) sub (String.length pre))
    as (n & Hn & Hle).
  - rewrite length_append. lia.
  - rewrite drop_app. apply HasPrefix_app.
  - destruct (Nat.eq_dec n (String.length pre)) as [->|Hne]; [exact Hn|].
    exfalso.
    pose proof (single_occurrence _ sub n (String.length pre) Hsub Hn Hocc)
      as H.
    rewrite drop_app in H.
    rewrite length_append in H. specialize (H ltac:(lia)).
    destruct sub as [|c sub]; [congruence|].
    cbn [append strings.index_nat] in H.
    change (String c (sub ++ rest)) with (String c sub ++ rest) in H.
    rewrite HasPrefix_app in H. discriminate.
Qed.

(** An end tag that begins inside a value without an end tag does not run
    into the end tag that follows the value: past its first character an
    end tag has no [<]. *)
Lemma end_tag_not_across (tag value post : string) (k : nat) :
  strings.Index tag "<" = -1 ->
  strings.Index value ("</" ++ tag ++ ">") = -1 ->
  (k < String.length value)%nat ->
  strings.HasPrefix
    (strings.drop k (value ++ ("</" ++ tag ++ ">") ++ post))
    ("</" ++ tag ++ ">")
  = false.
Proof.
  intros Ht Hv Hk. set (et := "</" ++ tag ++ ">") in *.
  destruct (strings.HasPrefix (strings.drop k (value ++ et ++ post)) et)
    eqn:E; [|reflexivity].
  exfalso.
  destruct (Nat.le_gt_cases (k + String.length et) (String.length value))
    as [Hin | Hout].
  - rewrite drop_app_le in E by lia.
    apply HasPrefix_inside in E;
      [|rewrite loop_facts.length_drop; lia].
    destruct (index_nat_least value et k ltac:(lia) E) as (n & Hn & _).
    unfold strings.Index in Hv. rewrite Hn in Hv. lia.
  - pose proof (HasPrefix_split _ _ E) as Hsplit.
    set (rest := strings.drop (String.length et)
                   (strings.drop k (value ++ et ++ post))) in Hsplit.
    assert (Hat : strings.HasPrefix
                    (strings.drop (String.length value - k)
                       (strings.drop k (value ++ et ++ post))) et = true).
    { rewrite drop_drop.
      replace (k + (String.length value - k))%nat
        with (String.length value) by lia.
      rewrite drop_app. apply HasPrefix_app. }
    rewrite Hsplit in Hat.
    assert (Hlen : String.length et = (String.length tag + 3)%nat).
    { unfold et. cbn [append String.length]. rewrite length_append.
      cbn [String.length]. lia. }
    remember (String.length value - k)%nat as j eqn:Hj.
    destruct j as [|[|j]]; [lia| |].
    + unfold et in Hat at 1.
      cbn [append strings.drop] in Hat. discriminate Hat.
    + unfold et in Hat at 1.
      change (("</" ++ tag ++ ">") ++ rest)
        with (String "<" (String "/" ((tag ++ ">") ++ rest))) in Hat.
      cbn [strings.drop] in Hat.
      rewrite append_assoc in Hat.
      change (">" ++ rest) with (String ">" rest) in Hat.
      unfold et in Hat.
      change ("</" ++ tag ++ ">") with (String "<" ("/" ++ tag ++ ">"))
        in Hat.
      rewrite (no_tag_start_inside tag rest _ j Ht) in Hat by lia.
      discriminate.
Qed.

(** X20.  [extractField] on a tag that is not repeated.  For a tag name
    without [<] that does not begin with [/], and a text in which the start
    tag occurs at most once, [extractField] returns normally.  It returns
    the empty list when the start tag is missing, and when no end tag
    follows the start tag.  When the start tag is followed by a value
    without an end tag and then by the end tag, it returns that one value,
    with the white space around it trimmed and nothing else changed
    (character references stay as written).  The text is always of one of
    these three kinds. *)
Theorem extractField_single_occurrence (xmlStr tag : string) :
  strings.Index tag "<" = -1 ->
  strings.HasPrefix tag "/" = false ->
  (occurrences xmlStr ("<" ++ tag ++ ">") <= 1)%nat ->
  (strings.Index xmlStr ("<" ++ tag ++ ">") = -1 ->
   extractField xmlStr tag = Ok [])
  /\ (forall pre rest,
        xmlStr = pre ++ ("<" ++ tag ++ ">") ++ rest ->
        strings.Index rest ("</" ++ tag ++ ">") = -1 ->
        extractField xmlStr tag = Ok [])
  /\ (forall pre value post,
        xmlStr
        = pre ++ ("<" ++ tag ++ ">") ++ value ++ ("</" ++ tag ++ ">") ++ post ->
        strings.Index value ("</" ++ tag ++ ">") = -1 ->
        extractField xmlStr tag = Ok [strings.TrimSpace value])
  /\ (strings.Index xmlStr ("<" ++ tag ++ ">") = -1
      \/ (exists pre rest,
            xmlStr = pre ++ ("<" ++ tag ++ ">") ++ rest
            /\ strings.Index rest ("</" ++ tag ++ ">") = -1)
      \/ (exists pre value post,
            xmlStr
            = pre ++ ("<" ++ tag ++ ">") ++ value
              ++ ("</" ++ tag ++ ">") ++ post
            /\ strings.Index value ("</" ++ tag ++ ">") = -1)).
Proof.
  intros Ht Hs Hocc.
  pose proof (extractField_at xmlStr tag Ht Hs Hocc) as Hat.
  set (st := "<" ++ tag ++ ">") in *. set (et := "</" ++ tag ++ ">") in *.
  assert (Hst : st <> "") by discriminate.
  assert (Hlst : String.length st = (String.length tag + 2)%nat).
  { unfold st. cbn [append String.length]. rewrite length_append.
    cbn [String.length]. lia. }
  split; [|split; [|split]].
  - intros H. rewrite Hat. unfold strings.Index in H.
    destruct (strings.index_nat xmlStr st); [lia | reflexivity].
  - intros pre rest Hx Hrest. rewrite Hat. subst xmlStr.
    rewrite (index_nat_only pre st rest Hst Hocc), drop_app.
    destruct (strings.index_nat (st ++ rest) et) as [e|] eqn:Ee;
      [|reflexivity].
    exfalso.
    pose proof (end_after_start tag (st ++ rest) e Ht Hs
                  (HasPrefix_app st rest) Ee) as Hlo.
    fold st in Hlo.
    pose proof (loop_facts.index_nat_bound _ _ _ Ee) as Hhi.
    rewrite length_append in Hhi.
    destruct (index_nat_found _ _ _ Ee) as (Hend & _).
    replace e with (String.length st + (e - String.length st))%nat
      in Hend by lia.
    rewrite <- drop_drop, drop_app in Hend.
    destruct (index_nat_least rest et (e - String.length st)
                ltac:(lia) Hend) as (n & Hn & _).
    unfold strings.Index in Hrest. rewrite Hn in Hrest. lia.
  - intros pre value post Hx Hvalue. rewrite Hat. subst xmlStr.
    rewrite (index_nat_only pre st _ Hst Hocc), drop_app.
    destruct (index_nat_least (st ++ value ++ et ++ post) et
                (String.length st + String.length value))
      as (e & Ee & Hle).
    { rewrite !length_append. lia. }
    { rewrite <- drop_drop, drop_app, drop_app. apply HasPrefix_app. }
    rewrite Ee.
    pose proof (end_after_start tag (st ++ value ++ et ++ post) e Ht Hs
                  (HasPrefix_app st _) Ee) as Hlo.
    fold st in Hlo.
    assert (He : e = (String.length st + String.length value)%nat).
    { destruct (Nat.eq_dec e (String.length st + String.length value))
        as [|Hne]; [assumption|].
      exfalso.
      destruct (index_nat_found _ _ _ Ee) as (Hend & _).
      replace e with (String.length st + (e - String.length st))%nat
        in Hend by lia.
      rewrite <- drop_drop, drop_app in Hend.
      pose proof (end_tag_not_across tag value post (e - String.length st)
                    Ht Hvalue ltac:(lia)) as Hno.
      fold et in Hno. congruence. }
    subst e.
    replace (String.length st + String.length value - String.length st)%nat
      with (String.length value) by lia.
    replace (pre ++ st ++ value ++ et ++ post)
      with ((pre ++ st) ++ value ++ et ++ post)
      by (now rewrite append_assoc).
    replace (String.length pre + String.length st)%nat
      with (String.length (pre ++ st)) by (now rewrite length_append).
    now rewrite drop_app, take_app.
  - destruct (extractField_single xmlStr tag Ht Hs Hocc)
      as [H | (pre & value & post & Hx & Hv & _)].
    + destruct (strings.index_nat xmlStr st) as [n|] eqn:En.
      2:{ left. now apply Index_None. }
      right. left.
      destruct (index_nat_found _ _ _ En) as (Hpre & _).
      exists (strings.take n xmlStr),
        (strings.drop (String.length st) (strings.drop n xmlStr)).
      split.
      * rewrite (take_drop n xmlStr) at 1. f_equal.
        exact (HasPrefix_split _ _ Hpre).
      * rewrite Hat in H.
        destruct (strings.index_nat (strings.drop n xmlStr) et) as [e|]
          eqn:Ee; [discriminate H|].
        destruct (strings.index_nat
                    (strings.drop (String.length st) (strings.drop n xmlStr))
                    et) as [k|] eqn:Ek; [|now apply Index_None].
        exfalso.
        destruct (index_nat_found _ _ _ Ek) as (Hk & _).
        rewrite drop_drop in Hk.
        pose proof (loop_facts.index_nat_bound _ _ _ Ek) as Hb.
        rewrite !loop_facts.length_drop in Hb.
        pose proof (index_nat_fits _ _ _ En) as Hfit.
        destruct (index_nat_least (strings.drop n xmlStr) et
                    (String.length st + k)) as (m & Hm & _).
        { rewrite loop_facts.length_drop. lia. }
        { exact Hk. }
        congruence.
    + right. right. exists pre, value, post. split; assumption.
Qed.

Lemma extractField_single_occurrence_witness :
  extractField "<r><t> A &amp; B </t><u>C</u></r>" "t" = Ok ["A &amp; B"].
Proof.
  refine (proj1 (proj2 (proj2
            (extractField_single_occurrence
               "<r><t> A &amp; B </t><u>C</u></r>" "t" _ _ _)))
            "<r>" " A &amp; B " "<u>C</u></r>" _ _).
  - reflexivity.
  - reflexivity.
  - vm_compute. lia.
  - reflexivity.
  - reflexivity.
Defined.

Lemma possibleTags_names (tag : string) :
  In tag possibleTags ->
  strings.Index tag "<" = -1 /\ strings.HasPrefix tag "/" = false.
Proof.
  intros H. cbn [In possibleTags] in H.
  repeat (destruct H as [<- | H]; [split; reflexivity|]). destruct H.
Qed.

Lemma scan_tags_Ok (data : string) (tags : list string) :
  (forall tag, In tag tags -> exists vs, extractField data tag = Ok vs) ->
  forall dc0, exists dc, scan_tags data tags dc0 = Ok dc.
Proof.
  induction tags as [|tag tags IH]; intros H dc0.
  - exists dc0. reflexivity.
  - destruct (H tag (or_introl eq_refl)) as (vs & Hvs).
    cbn [scan_tags]. rewrite Hvs. cbn [bind].
    apply IH. intros t Ht. apply H. now right.
Qed.

Lemma last_match_short (data : string) (tags : list string) :
  (forall tag vs, In tag tags -> extractField data tag = Ok vs ->
                  (List.length vs <= 1)%nat) ->
  forall init, (List.length init <= 1)%nat ->
               (List.length (last_match data tags init) <= 1)%nat.
Proof.
  unfold last_match.
  induction tags as [|tag tags IH]; intros H init Hi; [exact Hi|].
  cbn [fold_left]. apply IH.
  - intros t vs Ht. apply H. now right.
  - destruct (extractField data tag) as [vs| | |] eqn:E; try exact Hi.
    destruct (nonempty vs); [|exact Hi].
    apply (H tag vs); [now left | exact E].
Qed.

Lemma variants_known (f : field) (tag : string) :
  In tag (variants f) -> In tag possibleTags.
Proof. unfold variants. intros H. now apply filter_In in H. Qed.

(** X21.  The fallback is safe on a text in which no tag it looks for is
    repeated.  When each of the sixteen start tags occurs at most once,
    [parseCoreXMLAlternative] returns a record (no panic, no endless loop)
    after one reading of the clock; each field is what the last of its
    spellings that matched gives, the default of [New] when none matched;
    and no field holds more than one value. *)
Theorem fallback_without_repeats (data : string) (w : World) :
  (forall tag, In tag possibleTags ->
               (occurrences data ("<" ++ tag ++ ">") <= 1)%nat) ->
  exists dc,
    parseCoreXMLAlternative data w = (Ok dc, time.tick w)
    /\ (forall f,
          get f dc
          = last_match data (variants f)
              (get f (default (time.reading w))))
    /\ (forall f, (List.length (get f dc) <= 1)%nat).
Proof.
  intros Hocc.
  assert (Hone : forall tag, In tag possibleTags ->
            exists vs, extractField data tag = Ok vs
                       /\ (List.length vs <= 1)%nat).
  { intros tag Ht. destruct (possibleTags_names tag Ht) as (H1 & H2).
    destruct (extractField_single data tag H1 H2 (Hocc tag Ht))
      as [H | (pre & value & post & _ & _ & H)];
      rewrite H; eexists; split; try reflexivity; cbn; lia. }
  unfold parseCoreXMLAlternative. rewrite docx_facts.New_eq.
  destruct (scan_tags_Ok data possibleTags) with
    (dc0 := default (time.reading w)) as (dc & Hdc).
  { intros tag Ht. destruct (Hone tag Ht) as (vs & H & _). eauto. }
  exists dc. rewrite Hdc. split; [reflexivity|].
  assert (Hget : forall f, get f dc
                 = last_match data (variants f)
                     (get f (default (time.reading w)))).
  { intros f. exact (fallback_facts.scan_tags_last_match data f possibleTags
                       _ _ Hdc). }
  split; [exact Hget|].
  intros f. rewrite Hget. apply last_match_short.
  - intros tag vs Ht E. apply variants_known in Ht.
    destruct (Hone tag Ht) as (vs' & H & Hl). congruence.
  - destruct f; cbn; lia.
Qed.

Lemma fallback_without_repeats_witness :
  exists dc,
    parseCoreXMLAlternative samples.cp_only (samples.world_with (NotZip ""))
    = (Ok dc, time.tick (samples.world_with (NotZip "")))
    /\ (List.length (get FTitle dc) <= 1)%nat.
Proof.
  destruct (fallback_without_repeats samples.cp_only
              (samples.world_with (NotZip "")))
    as (dc & H1 & _ & H3).
  - intros tag Hin. cbn [In possibleTags] in Hin.
    repeat (destruct Hin as [<- | Hin]; [vm_compute; lia|]). destruct Hin.
  - exists dc. split; [exact H1 | exact (H3 FTitle)].
Defined.

End extract_facts.

(** ** The comparison before the save, where it is exact *)

Module compare_facts.
Import string_facts dublincore editor.

Lemma barless_cons (v : string) (vs : list string) :
  barless (v :: vs) = true ->
  v <> "" /\ strings.Index v "|" = -1 /\ barless vs = true.
Proof.
  unfold barless. cbn [forallb].
  rewrite !andb_true_iff, negb_true_iff.
  intros ((H1 & H2) & H3). apply String.eqb_neq in H1.
  apply Z.eqb_eq in H2. auto.
Qed.

Lemma bar_found (d r : string) : strings.Index (d ++ "|" ++ r) "|" <> -1.
Proof.
  destruct (extract_facts.index_nat_least (d ++ "|" ++ r) "|"
              (String.length d)) as (n & Hn & _).
  - rewrite length_append. lia.
  - rewrite extract_facts.drop_app. apply extract_facts.HasPrefix_app.
  - rewrite (extract_facts.Index_Some _ _ _ Hn). lia.
Qed.

Lemma barless_prefix (c d ra rb : string) :
  strings.Index c "|" = -1 -> strings.Index d "|" = -1 ->
  c ++ "|" ++ ra = d ++ "|" ++ rb -> c = d /\ ra = rb.
Proof.
  revert d. induction c as [|x c IH]; intros d Hc Hd H.
  - destruct d as [|y d]; cbn in H.
    + inversion H. auto.
    + inversion H; subst.
      apply extract_facts.no_char_cons in Hd as (Hd & _). discriminate.
  - destruct d as [|y d]; cbn in H.
    + inversion H; subst.
      apply extract_facts.no_char_cons in Hc as (Hc & _). discriminate.
    + inversion H; subst.
      apply extract_facts.no_char_cons in Hc as (_ & Hc).
      apply extract_facts.no_char_cons in Hd as (_ & Hd).
      destruct (IH d Hc Hd H2) as (-> & ->). auto.
Qed.

Lemma Join_bar_injective (a b : list string) :
  barless a = true -> barless b = true ->
  strings.Join a "|" = strings.Join b "|" -> a = b.
Proof.
  revert b. induction a as [|c a IH]; intros b Ha Hb H.
  - destruct b as [|d b]; [reflexivity|].
    apply barless_cons in Hb as (Hd & _ & _).
    destruct b as [|d' b]; cbn in H.
    + congruence.
    + destruct d; [congruence | discriminate].
  - apply barless_cons in Ha as (Hc & Hcb & Ha).
    destruct b as [|d b].
    + destruct a as [|c' a]; cbn in H.
      * congruence.
      * destruct c; [congruence | discriminate].
    + apply barless_cons in Hb as (Hd & Hdb & Hb).
      destruct a as [|c' a], b as [|d' b].
      * cbn in H. now subst.
      * exfalso. change (strings.Join (d :: d' :: b) "|")
          with (d ++ "|" ++ strings.Join (d' :: b) "|") in H.
        cbn [strings.Join] in H. subst c. exact (bar_found _ _ Hcb).
      * exfalso. change (strings.Join (c :: c' :: a) "|")
          with (c ++ "|" ++ strings.Join (c' :: a) "|") in H.
        cbn [strings.Join] in H. subst d. exact (bar_found _ _ Hdb).
      * change (strings.Join (c :: c' :: a) "|")
          with (c ++ "|" ++ strings.Join (c' :: a) "|") in H.
        change (strings.Join (d :: d' :: b) "|")
          with (d ++ "|" ++ strings.Join (d' :: b) "|") in H.
        destruct (barless_prefix _ _ _ _ Hcb Hdb H) as (-> & HJ).
        f_equal. now apply IH.
Qed.

(** X22.  Where the comparison is exact.  For two records in whose titles,
    creators, keywords and descriptions no value is empty and none holds
    the bar, [hasChanges] finds no change exactly when these four fields are
    equal, value by value: joining with the bar loses nothing on such
    lists. *)
Theorem hasChanges_exact (original updated : DublinCore) :
  barless (Title original) = true -> barless (Title updated) = true ->
  barless (Creator original) = true -> barless (Creator updated) = true ->
  barless (Keywords original) = true -> barless (Keywords updated) = true ->
  barless (Description original) = true ->
  barless (Description updated) = true ->
  hasChanges original updated = false
  <-> Title original = Title updated
      /\ Creator original = Creator updated
      /\ Keywords original = Keywords updated
      /\ Description original = Description updated.
Proof.
  intros. rewrite editor_facts.hasChanges_false. split.
  - intros (J1 & J2 & J3 & J4).
    repeat split; apply Join_bar_injective; assumption.
  - intros (-> & -> & -> & ->). repeat split.
Qed.

Lemma hasChanges_exact_witness :
  hasChanges samples.tidy (set FCreator ["Ana Lima"] samples.tidy) = false
  <-> Title samples.tidy = Title (set FCreator ["Ana Lima"] samples.tidy)
      /\ Creator samples.tidy
         = Creator (set FCreator ["Ana Lima"] samples.tidy)
      /\ Keywords samples.tidy
         = Keywords (set FCreator ["Ana Lima"] samples.tidy)
      /\ Description samples.tidy
         = Description (set FCreator ["Ana Lima"] samples.tidy).
Proof.
  refine (hasChanges_exact samples.tidy
            (set FCreator ["Ana Lima"] samples.tidy) _ _ _ _ _ _ _ _);
    reflexivity.
Defined.

End compare_facts.

(** ** What every record of [parseCoreXML] has *)

Module record_facts.
Import string_facts dublincore docx.

Lemma last_match_nonempty (data : string) (tags : list string) :
  forall init, init <> [] -> last_match data tags init <> [].
Proof.
  unfold last_match. induction tags as [|tag tags IH]; intros init Hi;
    [exact Hi|].
  cbn [fold_left]. apply IH.
  destruct (extractField data tag) as [vs| | |]; try exact Hi.
  destruct vs; [exact Hi | discriminate].
Qed.

(** X23.  Every record [parseCoreXML] returns, by the strict decode or by
    the fallback, has the DOCX MIME type as its format, a category that is
    not empty, and as its date one reading of the clock taken during the
    call (the first, or the second when the fallback ran); publisher,
    contributor, type, identifier, source, language, relation, coverage and
    rights are empty, whatever the document holds. *)
Theorem parseCoreXML_record (data : string) (w w' : World) (dc : DublinCore) :
  parseCoreXML data w = (Ok dc, w') ->
  Format dc = [docx_mime]
  /\ Category dc <> []
  /\ (Date dc = [clock w (ticks w)] \/ Date dc = [clock w (S (ticks w))])
  /\ (forall f,
        In f [FPublisher; FContributor; FType; FIdentifier; FSource;
              FLanguage; FRelation; FCoverage; FRights] ->
        get f dc = []).
Proof.
  unfold parseCoreXML.
  destruct (Unmarshal_coreProps data) as [p| | |]; try discriminate.
  rewrite docx_facts.New_eq.
  destruct (usable (map_properties p (default (time.reading w)))).
  - intros H. inversion H; subst. clear H.
    rewrite roundtrip_facts.map_properties_default.
    split; [reflexivity|]. split.
    { cbn [Category]. destruct (pCategory p); discriminate. }
    split; [left; reflexivity|].
    intros f Hf. cbn [In] in Hf.
    repeat (destruct Hf as [<- | Hf]; [reflexivity|]). destruct Hf.
  - unfold parseCoreXMLAlternative. rewrite docx_facts.New_eq.
    destruct (scan_tags data possibleTags
                (default (time.reading (time.tick w)))) as [dc'| | |] eqn:E;
      try discriminate.
    intros H. inversion H; subst. clear H.
    pose proof (fun f => fallback_facts.scan_tags_last_match data f
                           possibleTags _ _ E) as Hget.
    split; [exact (Hget FFormat)|]. split.
    { change (Category dc) with (get FCategory dc). rewrite Hget.
      apply last_match_nonempty. discriminate. }
    split; [right; exact (Hget FDate)|].
    intros f Hf. rewrite Hget. cbn [In] in Hf.
    repeat (destruct Hf as [<- | Hf]; [reflexivity|]). destruct Hf.
Qed.

Lemma parseCoreXML_record_witness :
  Format
    (set FTitle ["Old"] (default "2024-05-01T10:00:00Z")) = [docx_mime].
Proof.
  refine (proj1 (parseCoreXML_record samples.core_old
                   (samples.world_with (NotZip ""))
                   (time.tick (samples.world_with (NotZip "")))
                   (set FTitle ["Old"] (default "2024-05-01T10:00:00Z"))
                   _)).
  vm_compute. reflexivity.
Defined.

End record_facts.

(** ** The keys of the form *)

Module focus_facts.
Import ui.

Lemma Update_focus (k : key) (m : model) :
  0 <= focused m <= n_inputs ->
  0 <= focused (fst (Update k m)) <= n_inputs.
Proof.
  unfold n_inputs. intros H.
  destruct k; cbn [Update fst focused]; unfold n_inputs; try lia.
  - destruct (focused m + 1 >? 4) eqn:E1; [lia|].
    destruct (focused m + 1 <? 0) eqn:E2; lia.
  - destruct (focused m - 1 >? 4) eqn:E1; [lia|].
    destruct (focused m - 1 <? 0) eqn:E2; lia.
  - destruct (focused m =? 4); cbn [fst focused]; lia.
Qed.

Lemma after_keys_snoc (keys : list key) (k : key) (m : model) :
  after_keys (keys ++ [k]) m = fst (Update k (after_keys keys m)).
Proof. unfold after_keys. now rewrite fold_left_app. Qed.

(** X24.  The focus stays on the form and goes round it.  After any
    sequence of keys from the initial model the focus is on one of the four
    inputs or on the submit button (0 to 4); from there, five times "next"
    come back to where the focus was, and "next" and "previous" undo each
    other, in either order. *)
Theorem focus_goes_round (keys : list key) :
  let m := after_keys keys initialModel in
  0 <= focused m <= n_inputs
  /\ focused (after_keys [KeyNext; KeyNext; KeyNext; KeyNext; KeyNext] m)
     = focused m
  /\ focused (after_keys [KeyNext; KeyPrevious] m) = focused m
  /\ focused (after_keys [KeyPrevious; KeyNext] m) = focused m.
Proof.
  cbv zeta.
  assert (H : 0 <= focused (after_keys keys initialModel) <= n_inputs).
  { induction keys as [|k keys IH] using rev_ind.
    - cbn. unfold n_inputs. lia.
    - rewrite after_keys_snoc. now apply Update_focus. }
  set (m := after_keys keys initialModel) in *.
  split; [exact H|].
  unfold n_inputs in *.
  assert (C : focused m = 0 \/ focused m = 1 \/ focused m = 2
              \/ focused m = 3 \/ focused m = 4) by lia.
  unfold after_keys. cbn [fold_left Update fst focused].
  destruct C as [-> | [-> | [-> | [-> | ->]]]]; repeat split.
Qed.

(** X25.  The form is submitted from the submit button only.  When [done]
    is set after a sequence of keys from the initial model, one of the keys
    was Enter, pressed while the focus was on the submit button; when
    [cancelled] is set, one of the keys was Esc or Ctrl-C. *)
Theorem submitted_from_the_button (keys : list key) :
  let m := after_keys keys initialModel in
  (done m = true ->
   exists before after,
     keys = (before ++ KeyEnter :: after)%list
     /\ focused (after_keys before initialModel) = n_inputs)
  /\ (cancelled m = true -> In KeyCancel keys).
Proof.
  cbv zeta. induction keys as [|k keys (IH1 & IH2)] using rev_ind.
  - split; discriminate.
  - rewrite after_keys_snoc.
    set (m := after_keys keys initialModel) in *.
    assert (Hdone : done m = true ->
              exists before after,
                (keys ++ [k] = before ++ KeyEnter :: after)%list
                /\ focused (after_keys before initialModel) = n_inputs).
    { intros H. destruct (IH1 H) as (b & a & -> & Hb).
      exists b, (a ++ [k])%list. split; [|exact Hb].
      now rewrite <- app_assoc. }
    assert (Hcan : cancelled m = true -> In KeyCancel (keys ++ [k])).
    { intros H. apply in_or_app. left. auto. }
    destruct k; cbn [Update fst done cancelled]; split; auto.
    + intros _. apply in_or_app. right. now left.
    + destruct (focused m =? n_inputs) eqn:E; cbn [fst done]; [|exact Hdone].
      intros _. exists keys, []. split; [reflexivity|].
      now apply Z.eqb_eq in E.
    + destruct (focused m =? n_inputs); cbn [fst cancelled]; exact Hcan.
Qed.

Lemma submitted_from_the_button_witness :
  exists before after,
    [KeyNext; KeyPrevious; KeyPrevious; KeyEnter]
    = (before ++ KeyEnter :: after)%list
    /\ focused (after_keys before initialModel) = n_inputs.
Proof.
  refine (proj1 (submitted_from_the_button
                   [KeyNext; KeyPrevious; KeyPrevious; KeyEnter]) _).
  reflexivity.
Defined.

End focus_facts.

(** ** What [Open] takes from the clock *)

Module clock_facts.
Import string_facts dublincore docx.

Lemma same_but_date_default (a b : string) :
  same_but_date (default a) (default b).
Proof. intros f Hf. destruct f; try reflexivity. congruence. Qed.

Lemma same_but_date_assign (tag : string) (vs : list string)
  (a b : DublinCore) :
  same_but_date a b -> same_but_date (assign tag vs a) (assign tag vs b).
Proof.
  intros H f Hf. rewrite !fallback_facts.get_assign, (H f Hf). reflexivity.
Qed.

Lemma scan_tags_alike (data : string) (tags : list string) :
  forall a b, same_but_date a b ->
              alike same_but_date (scan_tags data tags a)
                (scan_tags data tags b).
Proof.
  induction tags as [|tag tags IH]; intros a b H; [exact H|].
  cbn [scan_tags]. destruct (extractField data tag) as [vs| | |];
    cbn [bind alike]; auto.
  apply IH. now apply same_but_date_assign.
Qed.

Lemma same_but_date_map (p : coreProps) (a b : string) :
  same_but_date (map_properties p (default a))
    (map_properties p (default b)).
Proof.
  rewrite !roundtrip_facts.map_properties_default. intros f Hf.
  destruct f; try reflexivity. congruence.
Qed.

Lemma same_but_date_usable (a b : DublinCore) :
  same_but_date a b -> usable a = usable b.
Proof.
  intros H. unfold usable.
  pose proof (H FTitle ltac:(discriminate)) as H1.
  pose proof (H FCreator ltac:(discriminate)) as H2.
  pose proof (H FKeywords ltac:(discriminate)) as H3.
  pose proof (H FDescription ltac:(discriminate)) as H4.
  cbn [get] in *. now rewrite H1, H2, H3, H4.
Qed.

Lemma parseCoreXML_alike (data : string) (w1 w2 : World) :
  alike same_but_date (fst (parseCoreXML data w1))
    (fst (parseCoreXML data w2)).
Proof.
  unfold parseCoreXML.
  destruct (Unmarshal_coreProps data) as [p| | |]; cbn [fst alike]; auto.
  rewrite !docx_facts.New_eq.
  pose proof (same_but_date_map p (time.reading w1) (time.reading w2)) as H.
  rewrite (same_but_date_usable _ _ H).
  destruct (usable (map_properties p (default (time.reading w2))));
    cbn [fst alike]; [exact H|].
  unfold parseCoreXMLAlternative. rewrite !docx_facts.New_eq. cbn [fst].
  apply scan_tags_alike, same_but_date_default.
Qed.

Lemma same_but_date_refl (a : DublinCore) : same_but_date a a.
Proof. intros f _. reflexivity. Qed.

Lemma extractDublinCore_alike (data : string) (w1 w2 : World) :
  alike same_but_date (fst (extractDublinCore data w1))
    (fst (extractDublinCore data w2)).
Proof.
  unfold extractDublinCore.
  pose proof (parseCoreXML_alike data w1 w2) as H.
  destruct (parseCoreXML data w1) as [[a|e1|m1|] u1],
    (parseCoreXML data w2) as [[b|e2|m2|] u2];
    cbn [fst alike] in H; try contradiction; cbn [fst alike]; auto.
  - pose proof (H FTitle ltac:(discriminate)) as H1.
    pose proof (H FCreator ltac:(discriminate)) as H2.
    pose proof (H FKeywords ltac:(discriminate)) as H3.
    cbn [get] in *. rewrite H1, H2, H3.
    destruct (nonempty (Title b) || nonempty (Creator b)
              || nonempty (Keywords b)); cbn [fst alike]; [exact H|].
    destruct (FromXML data); cbn [fst alike]; auto.
    apply same_but_date_refl.
  - destruct (FromXML data); cbn [fst alike]; auto.
    apply same_but_date_refl.
Qed.

(** X26.  [Open] takes nothing but the date from the clock.  Opening the
    same file in two worlds, whatever their clocks and however often they
    have been read, ends the same way: with the same error, the same panic,
    in the same endless loop, or with two containers of the same path and
    bytes whose records agree on every field except, possibly, the date. *)
Theorem Open_needs_the_clock_for_the_date_only
  (path : string) (w1 w2 : World) :
  files w1 path = files w2 path ->
  alike same_document (fst (Open path w1)) (fst (Open path w2)).
Proof.
  intros Hf. unfold Open, os.ReadFile. rewrite Hf.
  destruct (files w2 path) as [[members|bytes]|]; cbn [NewReader fst alike];
    auto.
  rewrite !docx_facts.New_eq.
  assert (D : forall a b, same_but_date a b ->
            same_document (container path (Zip members) a)
              (container path (Zip members) b)).
  { intros a b H. repeat split. exact H. }
  destruct (findFile members corePropertiesPath) as [f| | |];
    cbn [fst alike]; auto; [|apply D, same_but_date_default].
  destruct (readZipFile f) as [data| | |];
    cbn [fst alike]; auto; [|apply D, same_but_date_default].
  pose proof (extractDublinCore_alike data (time.tick w1) (time.tick w2))
    as H.
  destruct (extractDublinCore data (time.tick w1)) as [[a|e1|m1|] u1],
    (extractDublinCore data (time.tick w2)) as [[b|e2|m2|] u2];
    cbn [fst alike] in H; try contradiction; cbn [fst alike]; auto.
  - now apply D.
  - apply D, same_but_date_default.
Qed.

Lemma Open_needs_the_clock_for_the_date_only_witness :
  alike same_document
    (fst (Open "cv.docx"
            (samples.world_with (Zip (samples.archive_with samples.core_old)))))
    (fst (Open "cv.docx"
            (time.tick
               (samples.world_with
                  (Zip (samples.archive_with samples.core_old)))))).
Proof.
  refine (Open_needs_the_clock_for_the_date_only "cv.docx"
            (samples.world_with (Zip (samples.archive_with samples.core_old)))
            (time.tick
               (samples.world_with
                  (Zip (samples.archive_with samples.core_old))))
            _).
  reflexivity.
Defined.

End clock_facts.

(** ** The view and debug commands compared *)

Module viewer_facts.
Import string_facts dublincore docx viewer.

Lemma findZipFile_findFile (members : list zip.File) (name : string) :
  findZipFile members name = findFile members name.
Proof. induction members as [|f ms IH]; [reflexivity|]. cbn. now rewrite IH. Qed.

(** X27.  The debug command asks more of a file than the view command.
    Whatever [os.Stat] answered, whenever [debugDOCX] succeeds, so does
    [viewMetadata].  When the answer is not the not-exist error: on an
    archive without a metadata entry, and on one whose metadata entry cannot
    be read, [viewMetadata] succeeds (it shows the default record) while
    [debugDOCX] returns an error.  When the answer is the not-exist error,
    both return the same error, "file does not exist" with the path, and
    leave the world as it is. *)
Theorem debug_asks_more_than_view
  (filePath : string) (stat : os.StatResult) (w : World) :
  (fst (debugDOCX filePath stat w) = Ok tt ->
   fst (viewMetadata filePath stat w) = Ok tt)
  /\ (forall members,
        os.IsNotExist stat = false ->
        files w filePath = Some (Zip members) ->
        (forall f, In f members -> other f = true) ->
        fst (viewMetadata filePath stat w) = Ok tt
        /\ fst (debugDOCX filePath stat w)
           = Err "core.xml not found: file not found: docProps/core.xml")
  /\ (forall members f e,
        os.IsNotExist stat = false ->
        files w filePath = Some (Zip members) ->
        findFile members corePropertiesPath = Ok f ->
        copy_error f = Some e ->
        fst (viewMetadata filePath stat w) = Ok tt
        /\ fst (debugDOCX filePath stat w)
           = Err (wrap "failed to read core.xml" e))
  /\ (os.IsNotExist stat = true ->
      viewMetadata filePath stat w
      = (Err ("file does not exist: " ++ filePath), w)
      /\ debugDOCX filePath stat w
         = (Err ("file does not exist: " ++ filePath), w)).
Proof.
  split; [|split; [|split]].
  - unfold debugDOCX, viewMetadata, validateFileExists, os.ReadFile.
    destruct (os.IsNotExist stat); [discriminate|].
    destruct (files w filePath) as [[members|bytes]|]; cbn [NewReader fst];
      try discriminate.
    destruct (findZipFile members "docProps/core.xml"); try discriminate.
    destruct (viewer.readZipFile a); try discriminate.
    destruct (Open filePath w) as [[doc| | |] w1]; cbn [fst]; try discriminate.
    reflexivity.
  - intros members Hstat Hfile Hother.
    unfold debugDOCX, viewMetadata, validateFileExists, os.ReadFile.
    rewrite Hstat, Hfile. cbn [NewReader].
    rewrite findZipFile_findFile.
    change "docProps/core.xml" with corePropertiesPath.
    rewrite (save_facts.findFile_other members Hother). split; [|reflexivity].
    unfold Open, os.ReadFile. rewrite Hfile. cbn [NewReader].
    rewrite docx_facts.New_eq, (save_facts.findFile_other members Hother).
    reflexivity.
  - intros members f e Hstat Hfile Hfind Herr.
    unfold debugDOCX, viewMetadata, validateFileExists, os.ReadFile.
    rewrite Hstat, Hfile. cbn [NewReader].
    rewrite findZipFile_findFile.
    change "docProps/core.xml" with corePropertiesPath. rewrite Hfind.
    change (viewer.readZipFile f) with (docx.readZipFile f).
    rewrite (open_facts.copy_error_readZipFile _ _ Herr).
    split; [|reflexivity].
    unfold Open, os.ReadFile. rewrite Hfile. cbn [NewReader].
    rewrite docx_facts.New_eq, Hfind.
    rewrite (open_facts.copy_error_readZipFile _ _ Herr). reflexivity.
  - intros Hstat.
    unfold debugDOCX, viewMetadata, validateFileExists.
    rewrite Hstat. split; reflexivity.
Qed.

Lemma debug_asks_more_than_view_witness :
  fst (viewMetadata "cv.docx" os.FileInfo
         (samples.world_with (Zip samples.archive_without_core)))
  = Ok tt
  /\ fst (debugDOCX "cv.docx" os.FileInfo
            (samples.world_with (Zip samples.archive_without_core)))
     = Err "core.xml not found: file not found: docProps/core.xml".
Proof.
  refine (proj1 (proj2 (debug_asks_more_than_view "cv.docx" os.FileInfo
                          (samples.world_with
                             (Zip samples.archive_without_core))))
            samples.archive_without_core _ _ _).
  - reflexivity.
  - reflexivity.
  - intros f Hin. simpl in Hin. destruct Hin as [<- | [<- | []]]; reflexivity.
Defined.

End viewer_facts.

(** ** The substring fallback on a tag that comes twice *)

Module origin_facts.
Import string_facts dublincore docx extract_facts.

(** X28.  After its first value [extractField] goes on from the wrong
    offset.  Let the start tag first occur at offset [p1], the end tag first
    occur [e] bytes after [p1], and the start tag occur again [n] bytes
    after that end tag, that is at offset [p2 = p1 + e + len(endTag) + n].
    One turn of the loop appends the trimmed text between the first pair of
    tags and leaves the loop variable at [p2 - p1], not at [p2]: the next
    turn reads the text from an offset that is short by [p1], and is where
    it should be only when the text begins with the start tag. *)
Theorem second_turn_starts_short
  (xmlStr tag : string) (p1 e n fuel : nat) (values : list string) :
  let startTag := "<" ++ tag ++ ">" in
  let endTag := "</" ++ tag ++ ">" in
  strings.Index tag "<" = -1 ->
  strings.HasPrefix tag "/" = false ->
  strings.Index xmlStr startTag = Z.of_nat p1 ->
  strings.Index (strings.drop p1 xmlStr) endTag = Z.of_nat e ->
  strings.Index (strings.drop (p1 + e + String.length endTag) xmlStr) startTag
  = Z.of_nat n ->
  let p2 := (p1 + e + String.length endTag + n)%nat in
  let value :=
    strings.take (e - String.length startTag)
      (strings.drop (p1 + String.length startTag) xmlStr) in
  strings.HasPrefix (strings.drop p2 xmlStr) startTag = true
  /\ extractField_loop (S fuel) xmlStr startTag endTag (Z.of_nat p1) values
     = extractField_loop fuel xmlStr startTag endTag (Z.of_nat (p2 - p1))
         (values ++ [strings.TrimSpace value]).
Proof.
  intros st et Ht Hs H1 H2 H3 p2 value.
  assert (E1 : strings.index_nat xmlStr st = Some p1).
  { unfold strings.Index in H1.
    destruct (strings.index_nat xmlStr st) as [k|]; [f_equal; lia | lia]. }
  assert (E2 : strings.index_nat (strings.drop p1 xmlStr) et = Some e).
  { unfold strings.Index in H2.
    destruct (strings.index_nat (strings.drop p1 xmlStr) et) as [k|];
      [f_equal; lia | lia]. }
  assert (E3 : strings.index_nat
                 (strings.drop (p1 + e + String.length et) xmlStr) st
               = Some n).
  { unfold strings.Index in H3.
    destruct (strings.index_nat
                (strings.drop (p1 + e + String.length et) xmlStr) st)
      as [k|]; [f_equal; lia | lia]. }
  pose proof (index_nat_fits _ _ _ E1) as F1.
  pose proof (index_nat_fits _ _ _ E2) as F2.
  rewrite loop_facts.length_drop in F2.
  destruct (index_nat_found _ _ _ E1) as (P1 & _).
  destruct (index_nat_found _ _ _ E3) as (P3 & _).
  pose proof (end_after_start tag _ e Ht Hs P1 E2) as Hlo. fold st in Hlo.
  split.
  - rewrite drop_drop in P3. exact P3.
  - rewrite loop_step.
    replace (Z.of_nat p1 =? -1) with false
      by (symmetry; apply Z.eqb_neq; lia).
    rewrite slice_from_nat by lia. cbn [bind]. cbv zeta.
    rewrite H2.
    replace (Z.of_nat e =? -1) with false
      by (symmetry; apply Z.eqb_neq; lia).
    replace (Z.of_nat p1 + strings.len st)
      with (Z.of_nat (p1 + String.length st)) by (unfold strings.len; lia).
    replace (Z.of_nat p1 + Z.of_nat e) with (Z.of_nat (p1 + e)) by lia.
    rewrite slice_nat by lia. cbn [bind].
    replace (Z.of_nat (p1 + e) + strings.len et)
      with (Z.of_nat (p1 + e + String.length et))
      by (unfold strings.len; lia).
    rewrite slice_from_nat by lia. cbn [bind].
    rewrite H3.
    replace (Z.of_nat n =? -1) with false
      by (symmetry; apply Z.eqb_neq; lia).
    replace (Z.of_nat n + Z.of_nat e + strings.len et)
      with (Z.of_nat (p2 - p1)) by (unfold strings.len, p2; lia).
    replace (p1 + e - (p1 + String.length st))%nat
      with (e - String.length st)%nat by lia.
    reflexivity.
Qed.

Lemma second_turn_starts_short_witness :
  extractField_loop 2 "<r><t>A</t><t>B</t></r>" "<t>" "</t>" 3 []
  = extractField_loop 1 "<r><t>A</t><t>B</t></r>" "<t>" "</t>" 8 ["A"].
Proof.
  refine (proj2 (second_turn_starts_short "<r><t>A</t><t>B</t></r>" "t"
                   3 4 0 1 [] _ _ _ _ _));
    reflexivity.
Defined.

End origin_facts.
